(** * BlynkLib: the protocol engine of the IoT demo, embedded and verified

    A shallow embedding of [src/BlynkLib.py] (the Blynk client that the
    WiPy demo runs): the frame codec, the message-id counter, the
    rate-limited send path, the receive buffer, the liveness tracker, the
    inbound dispatcher and the two phases of the scheduler loop.

    Python integers are unbounded, so they are [Z].  A [bytes] object is a
    list of 8-bit characters, a [str] is a [string]; the two are converted
    where the source encodes or decodes.  The socket, the clock, the pins
    and the watchdog are the outside world: what they deliver is read from
    scripts held in the state, what the client does to them is logged. *)

From Stdlib Require Import ZArith Ascii String List Lia.
From stdpp Require Import base option list gmap strings pretty.

Local Open Scope Z_scope.

(** ** Constants of the module *)

Definition HDR_LEN : Z := 5.
Definition MAX_MSG_PER_SEC : Z := 20.

Definition MSG_RSP : Z := 0.
Definition MSG_LOGIN : Z := 2.
Definition MSG_PING : Z := 6.
Definition MSG_TWEET : Z := 12.
Definition MSG_EMAIL : Z := 13.
Definition MSG_NOTIFY : Z := 14.
Definition MSG_BRIDGE : Z := 15.
Definition MSG_HW : Z := 20.

Definition STA_SUCCESS : Z := 200.

Definition HB_PERIOD : Z := 10.
Definition NON_BLK_SOCK : Z := 0.
Definition MIN_SOCK_TO : Z := 1.
Definition MAX_SOCK_TO : Z := 5.
Definition MAX_TX_RETRIES : Z := 3.
Definition MAX_VIRTUAL_PINS : Z := 32.

Definition EAGAIN : Z := 11.

(** [DISCONNECTED = 0], [CONNECTING = 1], [AUTHENTICATING = 2],
    [AUTHENTICATED = 3]. *)
Inductive conn_state := DISCONNECTED | CONNECTING | AUTHENTICATING | AUTHENTICATED.

#[global] Instance conn_state_eq_dec : EqDecision conn_state.
Proof. solve_decision. Defined.

(** ** Bytes and strings *)

Definition bytes := list ascii.

(** The value of a byte, and the byte of a value in 0..255. *)
Definition byte_val (c : ascii) : Z := Z.of_N (N_of_ascii c).
Definition byte_of (z : Z) : ascii := ascii_of_N (Z.to_N z).

(** A bytes literal, [b"..."] in the source. *)
Definition B (s : string) : bytes := list_ascii_of_string s.

Definition NUL : ascii := Ascii.zero.

Definition is_ascii (c : ascii) : bool := byte_val c <? 128.

(** [x.decode('ascii')]: [None] stands for the UnicodeError raised on a
    byte above 127. *)
Definition decode_ascii (b : bytes) : option string :=
  if forallb is_ascii b then Some (string_of_list_ascii b) else None.

(** [bytes(s, 'ascii')], with [None] for the encoding error. *)
Definition encode_ascii (s : string) : option bytes :=
  if forallb is_ascii (list_ascii_of_string s) then Some (list_ascii_of_string s) else None.

(** [data.split(b'\0')]: the fields between NUL bytes; never empty. *)
Fixpoint split_nul (data : bytes) : list bytes :=
  match data with
  | [] => [[]]
  | c :: rest =>
      if Ascii.eqb c NUL then [] :: split_nul rest
      else match split_nul rest with
           | [] => [[c]]
           | f :: fs => (c :: f) :: fs
           end
  end.

(** ['\0'.join(fields)]. *)
Fixpoint join_nul (fields : list string) : string :=
  match fields with
  | [] => EmptyString
  | [f] => f
  | f :: fs => (f ++ String NUL (join_nul fs))%string
  end.

(** ** [struct.pack] and [struct.unpack] with [HDR_FMT = "!BHH"]

    One unsigned byte and two unsigned 16-bit values, big-endian.
    [None] stands for [struct.error]: a value out of range when packing,
    a buffer that is not five bytes long when unpacking. *)

Definition struct_pack (msg_type msg_id len : Z) : option bytes :=
  if (0 <=? msg_type) && (msg_type <=? 0xFF)
     && (0 <=? msg_id) && (msg_id <=? 0xFFFF)
     && (0 <=? len) && (len <=? 0xFFFF)
  then Some [ byte_of msg_type;
              byte_of (msg_id / 256); byte_of (msg_id mod 256);
              byte_of (len / 256); byte_of (len mod 256) ]
  else None.

Definition struct_unpack (data : bytes) : option (Z * Z * Z) :=
  match data with
  | [t; i1; i0; l1; l0] =>
      Some (byte_val t, byte_val i1 * 256 + byte_val i0, byte_val l1 * 256 + byte_val l0)
  | _ => None
  end.

(** ** Python values passed to [str()] and [int()] *)

Inductive py_value := PyStr (s : string) | PyInt (z : Z).

(** [str(x)]. *)
Definition py_str (v : py_value) : string :=
  match v with
  | PyStr s => s
  | PyInt z => pretty z
  end.

Definition is_digit (c : ascii) : bool := (48 <=? byte_val c) && (byte_val c <=? 57).

Definition is_space (c : ascii) : bool :=
  let v := byte_val c in (v =? 32) || ((9 <=? v) && (v <=? 13)).

Fixpoint digits_value (acc : Z) (ds : list ascii) : option Z :=
  match ds with
  | [] => Some acc
  | c :: ds' => if is_digit c then digits_value (10 * acc + (byte_val c - 48)) ds' else None
  end.

Fixpoint lstrip (s : list ascii) : list ascii :=
  match s with
  | c :: s' => if is_space c then lstrip s' else s
  | [] => []
  end.

Definition strip (s : list ascii) : list ascii := rev (lstrip (rev (lstrip s))).

Definition unsigned_value (ds : list ascii) : option Z :=
  match ds with
  | [] => None
  | _ => digits_value 0 ds
  end.

(** [int(s)] on a string: surrounding white space, an optional sign and
    decimal digits.  [None] stands for the ValueError on anything else
    (MicroPython, which the module is written for, takes no underscores
    between digits). *)
Definition py_int (s : string) : option Z :=
  match strip (list_ascii_of_string s) with
  | "-"%char :: ds => Z.opp <$> unsigned_value ds
  | "+"%char :: ds => unsigned_value ds
  | ds => unsigned_value ds
  end.

(** ** The outside world

    [conn.recv], [conn.send] and [connect] are answered from scripts: each
    call takes the next entry.  What the client sends, closes and does to
    the pins is logged. *)

Inductive rx_event :=
| RxData (chunk : bytes)      (* bytes are waiting in the socket *)
| RxTimeout                   (* socket.timeout *)
| RxError (errno : Z).        (* socket.error with this errno *)

Inductive tx_event :=
| TxOk
| TxError (errno : Z).

Inductive timer_ch := TimerA | TimerB.
Inductive pin_pull := PULL_UP | PULL_DOWN.

Inductive hw_event :=
| HeartbeatOff                                        (* wipy.heartbeat(False) *)
| PinInit (name : string) (out : bool) (pull : option pin_pull)
| PinWrite (name : string) (value : Z)
| PinRead (name : string)
| AdcInit (name : string)
| AdcRead (name : string)
| PwmInit (name : string) (alt timer : Z) (ch : timer_ch) (duty : Z)
| PwmDuty (name : string) (value : Z)
| VrWrite (pin : Z) (param : string)                  (* a virtual pin's write callback *)
| VrRead (pin : Z)                                    (* a virtual pin's read callback *)
| WdtFeed.

Record World := {
  rx_script : list rx_event;
  tx_script : list tx_event;       (* when it runs out, sends are accepted *)
  connect_script : list bool;      (* when it runs out, connecting fails *)
  wire : list bytes;               (* what conn.send has put on the wire *)
  closes : nat;                    (* calls of conn.close *)
  sock_timeout : option Z;         (* last conn.settimeout *)
  hw_log : list hw_event;
  pin_level : string -> Z;         (* what a digital pin reads *)
  adc_level : string -> Z;         (* what an analog channel reads *)
  HBPin : Z                        (* HwPin._HBPin: 25 on a WiPy, else 9 *)
}.

Definition set_rx_script v (w : World) :=
  Build_World v (tx_script w) (connect_script w) (wire w) (closes w) (sock_timeout w)
    (hw_log w) (pin_level w) (adc_level w) (HBPin w).
Definition set_tx_script v (w : World) :=
  Build_World (rx_script w) v (connect_script w) (wire w) (closes w) (sock_timeout w)
    (hw_log w) (pin_level w) (adc_level w) (HBPin w).
Definition set_connect_script v (w : World) :=
  Build_World (rx_script w) (tx_script w) v (wire w) (closes w) (sock_timeout w)
    (hw_log w) (pin_level w) (adc_level w) (HBPin w).
Definition set_wire v (w : World) :=
  Build_World (rx_script w) (tx_script w) (connect_script w) v (closes w) (sock_timeout w)
    (hw_log w) (pin_level w) (adc_level w) (HBPin w).
Definition set_closes v (w : World) :=
  Build_World (rx_script w) (tx_script w) (connect_script w) (wire w) v (sock_timeout w)
    (hw_log w) (pin_level w) (adc_level w) (HBPin w).
Definition set_sock_timeout v (w : World) :=
  Build_World (rx_script w) (tx_script w) (connect_script w) (wire w) (closes w) v
    (hw_log w) (pin_level w) (adc_level w) (HBPin w).
Definition set_hw_log v (w : World) :=
  Build_World (rx_script w) (tx_script w) (connect_script w) (wire w) (closes w)
    (sock_timeout w) v (pin_level w) (adc_level w) (HBPin w).

(** ** The objects *)

Module HwPin.
Record t := {
  _mode : string;
  _pull : string;
  _function : string;
  _pin : bool;            (* a machine.Pin has been made *)
  _apin : bool;           (* an ADC channel has been made *)
  _pwm : bool;            (* a PWM channel has been made *)
  _name : string
}.

Definition set_function v (p : t) :=
  Build_t (_mode p) (_pull p) v (_pin p) (_apin p) (_pwm p) (_name p).
Definition set_pin v (p : t) :=
  Build_t (_mode p) (_pull p) (_function p) v (_apin p) (_pwm p) (_name p).
Definition set_apin v (p : t) :=
  Build_t (_mode p) (_pull p) (_function p) (_pin p) v (_pwm p) (_name p).
Definition set_pwm v (p : t) :=
  Build_t (_mode p) (_pull p) (_function p) (_pin p) (_apin p) v (_name p).

Definition _PWMMap : gmap string Z :=
  list_to_map [("GP9", 3); ("GP10", 3); ("GP11", 3); ("GP24", 5); ("GP25", 9)]%string.

Definition _TimerMap : gmap string (Z * timer_ch) :=
  list_to_map [("GP9", (3, TimerB)); ("GP10", (4, TimerA)); ("GP11", (4, TimerB));
               ("GP24", (1, TimerA)); ("GP25", (2, TimerA))]%string.
End HwPin.

(** A virtual pin: which of its two callbacks are set. *)
Record VrPin := { read : bool; write : bool }.

Record Blynk := {
  _token : bytes;
  _do_connect : bool;
  _wdt : bool;
  _vr_pins : gmap Z VrPin;
  state : conn_state;
  _hw_pins : gmap Z HwPin.t;
  _rx_data : bytes;
  _msg_id : Z;
  _pins_configured : bool;
  _timeout : option Z;
  _tx_count : Z;
  _m_time : Z;
  _hb_time : Z;
  _last_hb_id : Z
}.

Definition set_state v (b : Blynk) :=
  Build_Blynk (_token b) (_do_connect b) (_wdt b) (_vr_pins b) v
    (_hw_pins b) (_rx_data b) (_msg_id b) (_pins_configured b) (_timeout b)
    (_tx_count b) (_m_time b) (_hb_time b) (_last_hb_id b).
Definition set_hw_pins v (b : Blynk) :=
  Build_Blynk (_token b) (_do_connect b) (_wdt b) (_vr_pins b) (state b)
    v (_rx_data b) (_msg_id b) (_pins_configured b) (_timeout b)
    (_tx_count b) (_m_time b) (_hb_time b) (_last_hb_id b).
Definition set_rx_data v (b : Blynk) :=
  Build_Blynk (_token b) (_do_connect b) (_wdt b) (_vr_pins b) (state b)
    (_hw_pins b) v (_msg_id b) (_pins_configured b) (_timeout b)
    (_tx_count b) (_m_time b) (_hb_time b) (_last_hb_id b).
Definition set_msg_id v (b : Blynk) :=
  Build_Blynk (_token b) (_do_connect b) (_wdt b) (_vr_pins b) (state b)
    (_hw_pins b) (_rx_data b) v (_pins_configured b) (_timeout b)
    (_tx_count b) (_m_time b) (_hb_time b) (_last_hb_id b).
Definition set_pins_configured v (b : Blynk) :=
  Build_Blynk (_token b) (_do_connect b) (_wdt b) (_vr_pins b) (state b)
    (_hw_pins b) (_rx_data b) (_msg_id b) v (_timeout b)
    (_tx_count b) (_m_time b) (_hb_time b) (_last_hb_id b).
Definition set_timeout v (b : Blynk) :=
  Build_Blynk (_token b) (_do_connect b) (_wdt b) (_vr_pins b) (state b)
    (_hw_pins b) (_rx_data b) (_msg_id b) (_pins_configured b) v
    (_tx_count b) (_m_time b) (_hb_time b) (_last_hb_id b).
Definition set_tx_count v (b : Blynk) :=
  Build_Blynk (_token b) (_do_connect b) (_wdt b) (_vr_pins b) (state b)
    (_hw_pins b) (_rx_data b) (_msg_id b) (_pins_configured b) (_timeout b)
    v (_m_time b) (_hb_time b) (_last_hb_id b).
Definition set_m_time v (b : Blynk) :=
  Build_Blynk (_token b) (_do_connect b) (_wdt b) (_vr_pins b) (state b)
    (_hw_pins b) (_rx_data b) (_msg_id b) (_pins_configured b) (_timeout b)
    (_tx_count b) v (_hb_time b) (_last_hb_id b).
Definition set_hb_time v (b : Blynk) :=
  Build_Blynk (_token b) (_do_connect b) (_wdt b) (_vr_pins b) (state b)
    (_hw_pins b) (_rx_data b) (_msg_id b) (_pins_configured b) (_timeout b)
    (_tx_count b) (_m_time b) v (_last_hb_id b).
Definition set_last_hb_id v (b : Blynk) :=
  Build_Blynk (_token b) (_do_connect b) (_wdt b) (_vr_pins b) (state b)
    (_hw_pins b) (_rx_data b) (_msg_id b) (_pins_configured b) (_timeout b)
    (_tx_count b) (_m_time b) (_hb_time b) v.

(** ** A state and exception monad

    Every method runs on the client object and the world.  A Python
    exception ends the computation with [Raise]; what had been changed
    before it stays changed. *)

Inductive exn :=
| ValueError | KeyError | IndexError | UnicodeError | StructError
| AttributeError | TypeError
| OSError (errno : Z).

Record Sys := { self : Blynk; world : World }.

Inductive Res (A : Type) :=
| Ok (a : A) (s : Sys)
| Raise (e : exn) (s : Sys).
Arguments Ok {A} a s.
Arguments Raise {A} e s.

Definition M (A : Type) : Type := Sys -> Res A.

#[global] Instance M_ret : MRet M := λ A a s, Ok a s.
#[global] Instance M_bind : MBind M := λ A B f m s,
  match m s with
  | Ok a s' => f a s'
  | Raise e s' => Raise e s'
  end.

Definition raise {A} (e : exn) : M A := λ s, Raise e s.

Definition self_get {A} (f : Blynk -> A) : M A := λ s, Ok (f (self s)) s.
Definition self_upd (f : Blynk -> Blynk) : M unit :=
  λ s, Ok tt {| self := f (self s); world := world s |}.
Definition world_get {A} (f : World -> A) : M A := λ s, Ok (f (world s)) s.
Definition world_upd (f : World -> World) : M unit :=
  λ s, Ok tt {| self := self s; world := f (world s) |}.

(** An [option] whose [None] is the given exception. *)
Definition or_raise {A} (e : exn) (o : option A) : M A :=
  match o with
  | Some a => mret a
  | None => raise e
  end.

(** The final state of a computation, however it ended. *)
Definition final {A} (r : Res A) : Sys :=
  match r with
  | Ok _ s => s
  | Raise _ s => s
  end.

Definition log_hw (e : hw_event) : M unit :=
  world_upd (λ w, set_hw_log (hw_log w ++ [e]) w).

(** ** The socket *)

(** [conn.recv(length)]: at most [length] of the waiting bytes; the rest
    stays in the socket for the next call.  With nothing scripted, nothing
    arrives before the timeout. *)
Definition conn_recv (length : Z) : M rx_event :=
  script ← world_get rx_script;
  match script with
  | [] => mret RxTimeout
  | RxData chunk :: script' =>
      let n := Z.to_nat length in
      world_upd (set_rx_script
        (match drop n chunk with
         | [] => script'
         | rest => RxData rest :: script'
         end));;
      mret (RxData (take n chunk))
  | ev :: script' =>
      world_upd (set_rx_script script');;
      mret ev
  end.

(** [conn.send(data)]. *)
Definition conn_send (data : bytes) : M tx_event :=
  script ← world_get tx_script;
  match script with
  | TxError errno :: script' =>
      world_upd (set_tx_script script');;
      mret (TxError errno)
  | _ =>
      world_upd (λ w, set_wire (wire w ++ [data]) (set_tx_script (tail script) w));;
      mret TxOk
  end.

(** [socket.socket()] and [conn.connect(...)], from the script. *)
Definition conn_connect : M bool :=
  script ← world_get connect_script;
  world_upd (set_connect_script (tail script));;
  mret (default false (head script)).

(** ** Methods of [Blynk] *)

Definition _new_msg_id : M Z :=
  self_upd (λ b, set_msg_id (_msg_id b + 1) b);;
  id ← self_get _msg_id;
  (if 0xFFFF <? id then self_upd (set_msg_id 1) else mret tt);;
  self_get _msg_id.

Definition pack_header (msg_type msg_id len : Z) : M bytes :=
  or_raise StructError (struct_pack msg_type msg_id len).

Definition _format_msg (msg_type : Z) (args : list py_value) : M bytes :=
  data ← or_raise UnicodeError (encode_ascii (join_nul (py_str <$> args)));
  id ← _new_msg_id;
  hdr ← pack_header msg_type id (Z.of_nat (length data));
  mret (hdr ++ data).

Definition _settimeout (timeout : Z) : M unit :=
  cur ← self_get _timeout;
  if decide (Some timeout ≠ cur) then
    self_upd (set_timeout (Some timeout));;
    world_upd (set_sock_timeout (Some timeout))
  else mret tt.

Definition _recv (length : Z) (timeout : Z) : M bytes :=
  _settimeout timeout;;
  ev ← conn_recv length;
  match ev with
  | RxTimeout => mret []
  | RxError errno => if errno =? EAGAIN then mret [] else raise (OSError errno)
  | RxData chunk =>
      self_upd (λ b, set_rx_data (_rx_data b ++ chunk) b);;
      buf ← self_get _rx_data;
      if length <=? Z.of_nat (List.length buf) then
        self_upd (set_rx_data (drop (Z.to_nat length) buf));;
        mret (take (Z.to_nat length) buf)
      else mret []
  end.

(** The retry loop of [_send]: [while retries <= MAX_TX_RETRIES], written
    on the number of attempts that are left. *)
Fixpoint send_attempts (left : nat) (data : bytes) : M unit :=
  match left with
  | O => mret tt
  | S left' =>
      r ← conn_send data;
      match r with
      | TxOk => self_upd (λ b, set_tx_count (_tx_count b + 1) b)
      | TxError errno =>
          if errno =? EAGAIN then send_attempts left' data      (* sleep, retries += 1 *)
          else raise (OSError errno)
      end
  end.

Definition _send (data : bytes) (send_anyway : bool) : M unit :=
  n ← self_get _tx_count;
  if (n <? MAX_MSG_PER_SEC) || send_anyway then
    send_attempts (Z.to_nat (MAX_TX_RETRIES + 1)) data
  else mret tt.

Definition _close : M unit :=
  world_upd (λ w, set_closes (S (closes w)) w);;
  self_upd (set_state DISCONNECTED).

Definition wdt_feed : M unit :=
  wdt ← self_get _wdt;
  if (wdt : bool) then log_hw WdtFeed else mret tt.

(** [c_time] is what [int(time.time())] returns at this call. *)
Definition _server_alive (c_time : Z) : M bool :=
  m_time ← self_get _m_time;
  if decide (m_time ≠ c_time) then
    self_upd (set_m_time c_time);;
    self_upd (set_tx_count 0);;
    wdt_feed;;
    last ← self_get _last_hb_id;
    hb ← self_get _hb_time;
    if bool_decide (last ≠ 0) && (MAX_SOCK_TO <=? c_time - hb) then mret false
    else
      st ← self_get state;
      (if (HB_PERIOD <=? c_time - hb) && bool_decide (st = AUTHENTICATED) then
         self_upd (set_hb_time c_time);;
         id ← _new_msg_id;
         self_upd (set_last_hb_id id);;
         hdr ← pack_header MSG_PING id 0;
         _send hdr true
       else mret tt);;
      mret true
  else mret true.

(** ** Methods of [HwPin]

    The pin objects live in [_hw_pins] and are changed in place, so a
    method is given the key of its object. *)

Definition hw_pin (pin : Z) : M HwPin.t :=
  pins ← self_get _hw_pins;
  or_raise KeyError (pins !! pin).

Definition hw_pin_upd (pin : Z) (f : HwPin.t -> HwPin.t) : M unit :=
  self_upd (λ b, set_hw_pins (alter f pin (_hw_pins b)) b).

(** [HwPin(pin_num, mode, pull)]. *)
Definition HwPin_init (pin_num : Z) (mode pull : string) : M HwPin.t :=
  hb ← world_get HBPin;
  (if decide (pin_num = hb) then log_hw HeartbeatOff else mret tt);;
  mret {| HwPin._mode := mode; HwPin._pull := pull; HwPin._function := EmptyString;
          HwPin._pin := false; HwPin._apin := false; HwPin._pwm := false;
          HwPin._name := "GP" +:+ pretty pin_num |}.

Definition HwPin_config (pin : Z) (duty_cycle : Z) : M unit :=
  p ← hw_pin pin;
  let name := HwPin._name p in
  if decide (HwPin._function p = "dig") then
    let out := bool_decide (HwPin._mode p = "out") in
    let pull :=
      if decide (HwPin._pull p = "pu") then Some PULL_UP
      else if decide (HwPin._pull p = "pd") then Some PULL_DOWN
      else None in
    log_hw (PinInit name out pull);;
    hw_pin_upd pin (HwPin.set_pin true)
  else if decide (HwPin._function p = "ana") then
    log_hw (AdcInit name);;
    hw_pin_upd pin (HwPin.set_apin true)
  else
    alt ← or_raise KeyError (HwPin._PWMMap !! name);
    tm ← or_raise KeyError (HwPin._TimerMap !! name);
    log_hw (PwmInit name alt tm.1 tm.2 duty_cycle);;
    hw_pin_upd pin (HwPin.set_pwm true).

Definition digital_read (pin : Z) : M Z :=
  p ← hw_pin pin;
  (if decide (HwPin._function p ≠ "dig") then
     hw_pin_upd pin (HwPin.set_function "dig");;
     HwPin_config pin 0
   else mret tt);;
  p ← hw_pin pin;
  if HwPin._pin p then
    log_hw (PinRead (HwPin._name p));;
    level ← world_get pin_level;
    mret (level (HwPin._name p))
  else raise TypeError.

Definition digital_write (pin : Z) (value : Z) : M unit :=
  p ← hw_pin pin;
  (if decide (HwPin._function p ≠ "dig") then
     hw_pin_upd pin (HwPin.set_function "dig");;
     HwPin_config pin 0
   else mret tt);;
  p ← hw_pin pin;
  if HwPin._pin p then log_hw (PinWrite (HwPin._name p) value)
  else raise TypeError.

Definition analog_read (pin : Z) : M Z :=
  p ← hw_pin pin;
  (if decide (HwPin._function p ≠ "ana") then
     hw_pin_upd pin (HwPin.set_function "ana");;
     HwPin_config pin 0
   else mret tt);;
  p ← hw_pin pin;
  if HwPin._apin p then
    log_hw (AdcRead (HwPin._name p));;
    level ← world_get adc_level;
    mret (level (HwPin._name p))
  else raise TypeError.

Definition analog_write (pin : Z) (value : Z) : M unit :=
  p ← hw_pin pin;
  if decide (HwPin._function p ≠ "pwm") then
    hw_pin_upd pin (HwPin.set_function "pwm");;
    HwPin_config pin value
  else if HwPin._pwm p then log_hw (PwmDuty (HwPin._name p) value)
  else raise AttributeError.

(** ** The inbound dispatcher *)

(** [zip(params[0::2], params[1::2])]. *)
Fixpoint pairs (params : list string) : list (string * string) :=
  match params with
  | pin :: mode :: rest => (pin, mode) :: pairs rest
  | _ => []
  end.

Definition valid_mode (mode : string) : bool :=
  bool_decide (mode = "in") || bool_decide (mode = "out")
  || bool_decide (mode = "pu") || bool_decide (mode = "pd").

(** The body of the [for (pin, mode) in pairs] loop of the [pm] branch. *)
Fixpoint pm_pairs (ps : list (string * string)) : M unit :=
  match ps with
  | [] => mret tt
  | (pin, mode) :: rest =>
      pin ← or_raise ValueError (py_int pin);
      (if valid_mode mode then mret tt else raise ValueError);;
      p ← HwPin_init pin mode mode;
      self_upd (λ b, set_hw_pins (<[pin := p]> (_hw_pins b)) b);;
      pm_pairs rest
  end.

(** [int(params.pop(0))]: the value and what is left of [params]. *)
Definition pop_int (params : list string) : M (Z * list string) :=
  match params with
  | [] => raise IndexError
  | x :: rest => v ← or_raise ValueError (py_int x); mret (v, rest)
  end.

Fixpoint vr_write_each (pin : Z) (params : list string) : M unit :=
  match params with
  | [] => mret tt
  | param :: rest => log_hw (VrWrite pin param);; vr_write_each pin rest
  end.

(** [list(map(lambda x: x.decode('ascii'), data.split(b'\0')))]. *)
Definition decode_params (data : bytes) : M (list string) :=
  or_raise UnicodeError (mapM decode_ascii (split_nul data)).

Definition _handle_hw (data : bytes) : M unit :=
  params ← decode_params data;
  match params with
  | [] => raise IndexError
  | cmd :: params =>
      if decide (cmd = "info") then mret tt
      else if decide (cmd = "pm") then
        pm_pairs (pairs params);;
        self_upd (set_pins_configured true)
      else if decide (cmd = "vw") then
        '(pin, params) ← pop_int params;
        vr ← self_get _vr_pins;
        match vr !! pin with
        | Some v => if write v then vr_write_each pin params else mret tt
        | None => mret tt
        end
      else if decide (cmd = "vr") then
        '(pin, params) ← pop_int params;
        vr ← self_get _vr_pins;
        match vr !! pin with
        | Some v => if read v then log_hw (VrRead pin) else mret tt
        | None => mret tt
        end
      else
        configured ← self_get _pins_configured;
        if (configured : bool) then
          if decide (cmd = "dw") then
            '(pin, params) ← pop_int params;
            '(val, params) ← pop_int params;
            hw_pin pin;;
            digital_write pin val
          else if decide (cmd = "aw") then
            '(pin, params) ← pop_int params;
            '(val, params) ← pop_int params;
            hw_pin pin;;
            analog_write pin val
          else if decide (cmd = "dr") then
            '(pin, params) ← pop_int params;
            hw_pin pin;;
            val ← digital_read pin;
            msg ← _format_msg MSG_HW [PyStr "dw"; PyInt pin; PyInt val];
            _send msg false
          else if decide (cmd = "ar") then
            '(pin, params) ← pop_int params;
            hw_pin pin;;
            val ← analog_read pin;
            msg ← _format_msg MSG_HW [PyStr "aw"; PyInt pin; PyInt val];
            _send msg false
          else mret tt
        else mret tt
  end.

(** ** The application's calls *)

Definition notify (msg : py_value) : M unit :=
  st ← self_get state;
  if decide (st = AUTHENTICATED) then
    frame ← _format_msg MSG_NOTIFY [msg];
    _send frame false
  else mret tt.

Definition email (to subject body : py_value) : M unit :=
  st ← self_get state;
  if decide (st = AUTHENTICATED) then
    frame ← _format_msg MSG_EMAIL [to; subject; body];
    _send frame false
  else mret tt.

Definition virtual_write (pin val : py_value) : M unit :=
  st ← self_get state;
  if decide (st = AUTHENTICATED) then
    frame ← _format_msg MSG_HW [PyStr "vw"; pin; val];
    _send frame false
  else mret tt.

(** ** The scheduler loop

    The client is modelled with no user task registered ([_task] is [None],
    as the constructor leaves it), so [_run_task] finds nothing to run; the
    idle sleeps change nothing but the time, which the clock readings
    given to the loop stand for. *)

Definition _run_task : M unit := mret tt.

(** What a loop body asks for: go round again, or [break]. *)
Inductive ctl := Continue | Break.

(** The assignments that open [run()].  The watchdog it then starts when
    [_wdt] is set is the [_wdt] flag itself: feeding it is logged. *)
Definition run_init : M unit :=
  self_upd (set_hw_pins ∅);;
  self_upd (set_rx_data []);;
  self_upd (set_msg_id 1);;
  self_upd (set_pins_configured false);;
  self_upd (set_timeout None);;
  self_upd (set_tx_count 0);;
  self_upd (set_m_time 0);;
  self_upd (set_state DISCONNECTED).

(** One iteration of [while self.state != AUTHENTICATED]. *)
Definition login_iter : M unit :=
  _run_task;;
  wdt_feed;;
  do_connect ← self_get _do_connect;
  if (do_connect : bool) then
    self_upd (set_state CONNECTING);;
    connected ← conn_connect;
    if (connected : bool) then
      self_upd (set_state AUTHENTICATING);;
      token ← self_get _token;
      id ← _new_msg_id;
      hdr ← pack_header MSG_LOGIN id (Z.of_nat (length token));
      _send (hdr ++ token) true;;
      data ← _recv HDR_LEN MAX_SOCK_TO;
      match data with
      | [] => _close
      | _ =>
          '(msg_type, msg_id, status) ← or_raise StructError (struct_unpack data);
          if bool_decide (status ≠ STA_SUCCESS) || bool_decide (msg_id = 0) then _close
          else self_upd (set_state AUTHENTICATED)
      end
    else _close
  else mret tt.

(** [while self.state != AUTHENTICATED], for at most [fuel] iterations:
    [true] when the loop has ended, [false] when the fuel ran out first. *)
Fixpoint login_loop (fuel : nat) : M bool :=
  st ← self_get state;
  if decide (st = AUTHENTICATED) then mret true
  else match fuel with
       | O => mret false
       | S fuel' => login_iter;; login_loop fuel'
       end.

(** One iteration of [while self._do_connect], at clock reading [c_time]. *)
Definition session_iter (c_time : Z) : M ctl :=
  data ← _recv HDR_LEN NON_BLK_SOCK;
  c ← match data with
      | [] => mret Continue                                   (* idle sleep *)
      | _ =>
          '(msg_type, msg_id, msg_len) ← or_raise StructError (struct_unpack data);
          if decide (msg_id = 0) then _close;; mret Break
          else if decide (msg_type = MSG_RSP) then
            last ← self_get _last_hb_id;
            (if decide (msg_id = last) then self_upd (set_last_hb_id 0) else mret tt);;
            mret Continue
          else if decide (msg_type = MSG_PING) then
            hdr ← pack_header MSG_RSP msg_id STA_SUCCESS;
            _send hdr true;;
            mret Continue
          else if decide (msg_type = MSG_HW ∨ msg_type = MSG_BRIDGE) then
            data ← _recv msg_len MIN_SOCK_TO;
            match data with
            | [] => mret Continue
            | _ => _handle_hw data;; mret Continue
            end
          else _close;; mret Break
      end;
  match c with
  | Break => mret Break
  | Continue =>
      alive ← _server_alive c_time;
      if (alive : bool) then _run_task;; mret Continue
      else _close;; mret Break
  end.

(** [while self._do_connect], one iteration for each clock reading:
    [true] when the loop has ended, [false] when it is still running after
    the last reading. *)
Fixpoint session_loop (ticks : list Z) : M bool :=
  do_connect ← self_get _do_connect;
  if (do_connect : bool) then
    match ticks with
    | [] => mret false
    | c_time :: ticks' =>
        c ← session_iter c_time;
        match c with
        | Break => mret true
        | Continue => session_loop ticks'
        end
    end
  else mret true.

(** One round of the outer [while True]: log in, run the session, and
    close if the session ended because the connection is no longer
    wanted.  [true] when the round is complete. *)
Definition run_round (fuel : nat) (ticks : list Z) : M bool :=
  authenticated ← login_loop fuel;
  if (authenticated : bool) then
    self_upd (set_hb_time 0);;
    self_upd (set_last_hb_id 0);;
    self_upd (set_tx_count 0);;
    ended ← session_loop ticks;
    if (ended : bool) then
      do_connect ← self_get _do_connect;
      (if (do_connect : bool) then mret tt else _close);;
      mret true
    else mret false
  else mret false.

Fixpoint run_rounds (fuel : nat) (sessions : list (list Z)) : M bool :=
  match sessions with
  | [] => mret true
  | ticks :: rest =>
      complete ← run_round fuel ticks;
      if (complete : bool) then run_rounds fuel rest else mret false
  end.

(** [run()]: each element of [sessions] holds the clock readings of one
    authenticated session; every login phase has [fuel] iterations. *)
Definition run (fuel : nat) (sessions : list (list Z)) : M bool :=
  run_init;;
  run_rounds fuel sessions.

(** ** States to run the methods on *)

(** [Blynk(token, connect=..., wdt=...)]: the object the constructor
    leaves.  The fields that only [run()] creates hold the values it
    first gives them. *)
Definition Blynk_init (token : bytes) (connect wdt : bool) : Blynk :=
  {| _token := token; _do_connect := connect; _wdt := wdt; _vr_pins := ∅;
     state := DISCONNECTED; _hw_pins := ∅; _rx_data := []; _msg_id := 1;
     _pins_configured := false; _timeout := None; _tx_count := 0;
     _m_time := 0; _hb_time := 0; _last_hb_id := 0 |}.

(** A quiet world: nothing to receive, every send accepted. *)
Definition quiet_world : World :=
  {| rx_script := []; tx_script := []; connect_script := []; wire := [];
     closes := 0; sock_timeout := None; hw_log := [];
     pin_level := λ _, 0; adc_level := λ _, 0; HBPin := 25 |}.

(** ** The rest of the application's interface *)

Definition set_do_connect v (b : Blynk) :=
  Build_Blynk (_token b) v (_wdt b) (_vr_pins b) (state b)
    (_hw_pins b) (_rx_data b) (_msg_id b) (_pins_configured b) (_timeout b)
    (_tx_count b) (_m_time b) (_hb_time b) (_last_hb_id b).
Definition set_vr_pins v (b : Blynk) :=
  Build_Blynk (_token b) (_do_connect b) (_wdt b) v (state b)
    (_hw_pins b) (_rx_data b) (_msg_id b) (_pins_configured b) (_timeout b)
    (_tx_count b) (_m_time b) (_hb_time b) (_last_hb_id b).

(** [add_virtual_pin(pin, read, write)]; [rd] and [wr] say which of the
    two callbacks are given.  A [pin] that is not an [int] fails the
    [isinstance] test. *)
Definition add_virtual_pin (pin : py_value) (rd wr : bool) : M unit :=
  match pin with
  | PyInt p =>
      if (0 <=? p) && (p <? MAX_VIRTUAL_PINS) then
        self_upd (λ b, set_vr_pins (<[p := Build_VrPin rd wr]> (_vr_pins b)) b)
      else raise ValueError
  | PyStr _ => raise ValueError
  end.

(** [repl(pin)]: the terminal's two callbacks are registered on [pin]. *)
Definition repl (pin : py_value) : M unit := add_virtual_pin pin true true.

Definition connect : M unit := self_upd (set_do_connect true).
Definition disconnect : M unit := self_upd (set_do_connect false).

(** The statements that end a round of [run()], after the session loop:
    [if not self._do_connect: self._close()], as at the end of
    [run_round]. *)
Definition round_end : M unit :=
  do_connect ← self_get _do_connect;
  if (do_connect : bool) then mret tt else _close.

(** ** The user task

    The three fields of the client that schedule the user task, and the
    two methods that use them, on their own: [_task] says whether a task
    is set, [c_millis] is what [time.ticks_ms()] returns in [_run_task]. *)

Definition TASK_PERIOD_RES : Z := 50.

Module UserTask.
Record t := {
  _task : bool;
  _task_period : Z;
  _task_millis : Z
}.

(** [set_user_task(task, ms_period)]; [None] stands for the ValueError. *)
Definition set_user_task (task : bool) (ms_period : Z) (u : t) : option t :=
  if decide (ms_period mod TASK_PERIOD_RES ≠ 0) then None
  else Some {| _task := task; _task_period := ms_period; _task_millis := _task_millis u |}.

(** [_run_task()]: the fields afterwards, and whether the task was called. *)
Definition _run_task (c_millis : Z) (u : t) : t * bool :=
  if _task u then
    if _task_period u <=? c_millis - _task_millis u then
      ({| _task := _task u; _task_period := _task_period u;
          _task_millis := _task_millis u + _task_period u |}, true)
    else (u, false)
  else (u, false).

(** [_run_task()] once for each clock reading: the fields at the end and
    how many times the task was called. *)
Fixpoint run_tasks (readings : list Z) (u : t) : t * nat :=
  match readings with
  | [] => (u, O)
  | c :: rest =>
      let '(u1, fired) := _run_task c u in
      let '(u2, n) := run_tasks rest u1 in
      (u2, if fired then S n else n)
  end.
End UserTask.

(** * The demo application, [src/iotdemo.py]

    The classes of the application that only compute on their own fields
    are embedded on their own; what they read from the hardware is an
    argument of the method. *)

(** [l[i] = v] on a Python list or bytearray: an index from [-len] to
    [len - 1], counted from the end when negative; [None] stands for the
    IndexError. *)
Definition py_setitem {A} (l : list A) (i : Z) (v : A) : option (list A) :=
  let n := Z.of_nat (length l) in
  if (0 <=? i) && (i <? n) then Some (<[Z.to_nat i := v]> l)
  else if (- n <=? i) && (i <? 0) then Some (<[Z.to_nat (n + i) := v]> l)
  else None.

(** [sum(l)]. *)
Definition py_sum (l : list Z) : Z := foldr Z.add 0 l.

Module BatteryMonitor.
Definition levels : list (Z * Z) :=
  [(4115, 100); (4050, 95); (3990, 90); (3935, 85);
   (3875, 75); (3825, 70); (3785, 60); (3750, 50);
   (3700, 40); (3675, 30); (3650, 25); (3600, 20);
   (3500, 10); (3490, 5); (3400, 3); (3300, 1); (0, 0)].

Record t := {
  values : list Z;
  volt : Z;
  chrg : Z;
  idx : Z
}.

(** [BatteryMonitor(pin)]. *)
Definition init : t :=
  {| values := replicate 5 0; volt := 4200; chrg := 100; idx := 0 |}.

(** The loop of [_charge]: the percentage of the first level that the
    voltage reaches, if there is one. *)
Fixpoint first_level (volt : Z) (ls : list (Z * Z)) : option Z :=
  match ls with
  | [] => None
  | (mv, pct) :: rest => if mv <=? volt then Some pct else first_level volt rest
  end.

(** [_charge()]: the monitor afterwards and the value returned. *)
Definition _charge (b : t) : t * Z :=
  let b' :=
    match first_level (volt b) levels with
    | Some c =>
        if c <? chrg b
        then {| values := values b; volt := volt b; chrg := c; idx := idx b |}
        else b
    | None => b
    end in
  (b', chrg b').

(** [read()], where [sample] is what [self.apin()] returns: [None] stands
    for an exception (IndexError of the list assignment, ZeroDivisionError
    on an empty list); the value returned is [None] or a charge. *)
Definition read (sample : Z) (b : t) : option (t * option Z) :=
  vals ← py_setitem (values b) (idx b) ((sample * 117) `div` 100);
  let n := Z.of_nat (length vals) in
  if decide (n = 0) then None
  else
    let idx' := (idx b + 1) `mod` n in
    if decide (idx' = 0) then
      let b1 := {| values := vals; volt := py_sum vals `div` n; chrg := chrg b; idx := idx' |} in
      let '(b2, c) := _charge b1 in
      Some (b2, Some c)
    else
      Some ({| values := vals; volt := volt b; chrg := chrg b; idx := idx' |}, None).

(** [read()] once for each sample: the monitor at the end and what the
    calls returned. *)
Fixpoint reads (samples : list Z) (b : t) : option (t * list (option Z)) :=
  match samples with
  | [] => Some (b, [])
  | sample :: rest =>
      '(b1, r) ← read sample b;
      '(b2, rs) ← reads rest b1;
      Some (b2, r :: rs)
  end.
End BatteryMonitor.

(** ** The hardware switches of the demo

    A switch object keeps its own fields and calls the Blynk client: a
    method takes the switch and the client, and gives back the switch
    next to what the client's call came to. *)

Module HwSw.
Definition SW_MAX_UPDATE_TIME : Z := 1000.

Record t := {
  v_pin : Z;
  value : Z;
  period : Z;
  time : Z
}.

Definition set_value v (h : t) := Build_t (v_pin h) v (period h) (time h).
Definition set_time v (h : t) := Build_t (v_pin h) (value h) (period h) v.

(** [str(not value)], which is what [_format_msg] makes of the argument
    [not self.value]. *)
Definition str_not (value : Z) : string := if value =? 0 then "True" else "False".

(** [update()]. *)
Definition update (h : t) (s : Sys) : t * Res unit :=
  let h' := set_time 0 h in
  (h', virtual_write (PyInt (v_pin h')) (PyStr (str_not (value h'))) s).

(** [check()], where [reading] is what [self.sw()] returns. *)
Definition check (reading : Z) (h : t) (s : Sys) : t * Res bool :=
  if decide (reading ≠ value h) then
    let '(h', r) := update (set_value reading h) s in
    (h', match r with
         | Ok _ s' => Ok (reading =? 0) s'
         | Raise e s' => Raise e s'
         end)
  else
    let h1 := set_time (time h + period h) h in
    if SW_MAX_UPDATE_TIME <? time h1 then
      let '(h', r) := update h1 s in
      (h', match r with
           | Ok _ s' => Ok false s'
           | Raise e s' => Raise e s'
           end)
    else (h1, Ok false s).

(** [check()] once for each reading, up to the first exception: the
    switch at the end, and what the calls returned. *)
Fixpoint checks (readings : list Z) (h : t) (s : Sys) : t * Res (list bool) :=
  match readings with
  | [] => (h, Ok [] s)
  | reading :: rest =>
      match check reading h s with
      | (h1, Ok pressed s1) =>
          match checks rest h1 s1 with
          | (h2, Ok ps s2) => (h2, Ok (pressed :: ps) s2)
          | (h2, Raise e s2) => (h2, Raise e s2)
          end
      | (h1, Raise e s1) => (h1, Raise e s1)
      end
  end.
End HwSw.

(** * The LED driver, [src/ws2812.py]

    The buffer of the driver is a bytearray that the methods change in
    place: a method takes the buffer and gives the buffer back, also when
    it ends in an IndexError. *)

Module WS2812.
(** What a method leaves: its result and the buffer, or the IndexError of
    a store past the end and the buffer as it is then. *)
Inductive outcome (A : Type) :=
| Done (a : A) (buf : list Z)
| IndexErr (buf : list Z).
Arguments Done {A} a buf.
Arguments IndexErr {A} buf.

(** The values to put in the SPI register for a 0 and for a 1. *)
Definition bits : list Z := [0xE0; 0xFC].

(** [WS2812(nleds)]: one byte for each bit (the constructor then calls
    [show([])]). *)
Definition new_buf (nleds : Z) : list Z := replicate (Z.to_nat (nleds * 3 * 8)) 0.

(** [buf[idx] = v]. *)
Definition store (idx v : Z) (buf : list Z) : outcome unit :=
  match py_setitem buf idx v with
  | Some buf' => Done tt buf'
  | None => IndexErr buf
  end.

(** [for bit in range(0, 8): buf[idx + bit] = bits[color >> (7 - bit) & 0x01]]. *)
Fixpoint set_bits (bit_range : list Z) (color idx : Z) (buf : list Z) : outcome unit :=
  match bit_range with
  | [] => Done tt buf
  | bit :: rest =>
      match store (idx + bit) (nth (Z.to_nat (Z.land (Z.shiftr color (7 - bit)) 1)) bits 0) buf
      with
      | Done _ buf' => set_bits rest color idx buf'
      | IndexErr buf' => IndexErr buf'
      end
  end.

(** [colors[c]] on an (R, G, B) tuple. *)
Definition channel (colors : Z * Z * Z) (c : Z) : Z :=
  let '(r, g, b) := colors in
  if c =? 0 then r else if c =? 1 then g else b.

(** [for c in (1, 0, 2)]: the index afterwards. *)
Fixpoint set_channels (cs : list Z) (colors : Z * Z * Z) (idx : Z) (buf : list Z) : outcome Z :=
  match cs with
  | [] => Done idx buf
  | c :: rest =>
      match set_bits (seqZ 0 8) (channel colors c) idx buf with
      | Done _ buf' => set_channels rest colors (idx + 8) buf'
      | IndexErr buf' => IndexErr buf'
      end
  end.

(** [for colors in data]. *)
Fixpoint update_loop (data : list (Z * Z * Z)) (idx : Z) (buf : list Z) : outcome Z :=
  match data with
  | [] => Done idx buf
  | colors :: rest =>
      match set_channels [1; 0; 2] colors idx buf with
      | Done idx' buf' => update_loop rest idx' buf'
      | IndexErr buf' => IndexErr buf'
      end
  end.

(** [update(data, start)]: the index of the first LED that was not
    filled. *)
Definition update (data : list (Z * Z * Z)) (start : Z) (buf : list Z) : outcome Z :=
  match update_loop data (start * 24) buf with
  | Done idx buf' => Done (idx `div` 24) buf'
  | IndexErr buf' => IndexErr buf'
  end.

(** [for idx in range(end * 24, len(self.buf)): buf[idx] = off]. *)
Fixpoint set_off (idx_range : list Z) (buf : list Z) : outcome unit :=
  match idx_range with
  | [] => Done tt buf
  | idx :: rest =>
      match store idx (nth 0 bits 0) buf with
      | Done _ buf' => set_off rest buf'
      | IndexErr buf' => IndexErr buf'
      end
  end.

(** [fill(data)]. *)
Definition fill (data : list (Z * Z * Z)) (buf : list Z) : outcome unit :=
  match update data 0 buf with
  | Done last buf' =>
      set_off (seqZ (last * 24) (Z.of_nat (length buf') - last * 24)) buf'
  | IndexErr buf' => IndexErr buf'
  end.
End WS2812.

(** ** The LED show of the demo, [src/iotdemo.py]

    The show owns its chain of LEDs: the buffer of the driver is a field
    here, and what the driver writes to the SPI bus is logged. *)

Module LedShow.

(** Blue, green, red, white, off. *)
Definition colors : list (Z * Z * Z) :=
  [(0, 0, 48); (0, 48, 0); (48, 0, 0); (16, 16, 16); (0, 0, 0)].

Record t := {
  nleds : Z;
  period : Z;
  delay : Z;
  time : Z;
  idx : Z;
  data : list (Z * Z * Z);
  chain : list Z;            (* self.chain.buf *)
  spi : list (list Z)        (* what self.chain.spi.write has been given *)
}.

Definition set_time v (l : t) :=
  Build_t (nleds l) (period l) (delay l) v (idx l) (data l) (chain l) (spi l).





End LedShow.

(** ** Definitions the statements use *)

(** The counter after one more id has been taken. *)
Definition next_id (id : Z) : Z := if 0xFFFF <? id + 1 then 1 else id + 1.

(** [n] calls of [_new_msg_id] in a row, and the ids they return. *)
Fixpoint msg_ids (n : nat) : M (list Z) :=
  match n with
  | O => mret []
  | S n' => id ← _new_msg_id; ids ← msg_ids n'; mret (id :: ids)
  end.

(** The ids that follow a counter value. *)
Fixpoint ids_from (n : nat) (id : Z) : list Z :=
  match n with
  | O => []
  | S n' => next_id id :: ids_from n' (next_id id)
  end.

(** The transport takes the next send. *)
Definition accepts_next (w : World) : Prop :=
  match tx_script w with
  | TxError _ :: _ => False
  | _ => True
  end.

(** The transport takes every send. *)
Definition accepts_all (w : World) : Prop := Forall (λ e, e = TxOk) (tx_script w).

(** A send request: the frame and its [send_anyway] flag. *)
Definition request : Type := bytes * bool.

Definition regular (data : bytes) : request := (data, false).
Definition priority (data : bytes) : request := (data, true).

(** The requests made in one rate window, one [_send] each. *)
Fixpoint send_all (reqs : list request) : M unit :=
  match reqs with
  | [] => mret tt
  | (data, send_anyway) :: rest => _send data send_anyway;; send_all rest
  end.

(** The requests of a window that get through when the counter stands at
    [n] and the transport takes every send. *)
Fixpoint window_sent (n : Z) (reqs : list request) : list request :=
  match reqs with
  | [] => []
  | (data, send_anyway) :: rest =>
      if (n <? MAX_MSG_PER_SEC) || send_anyway
      then (data, send_anyway) :: window_sent (n + 1) rest
      else window_sent n rest
  end.

Definition is_regular (r : request) : bool := negb r.2.

Definition regular_count (reqs : list request) : Z :=
  Z.of_nat (length (filter (λ r, is_regular r = true) reqs)).

(** The pin object that [HwPin(pin, mode, mode)] makes. *)
Definition fresh_pin (pin : Z) (mode : string) : HwPin.t :=
  {| HwPin._mode := mode; HwPin._pull := mode; HwPin._function := EmptyString;
     HwPin._pin := false; HwPin._apin := false; HwPin._pwm := false;
     HwPin._name := "GP" +:+ pretty pin |}.

(** The [machine.Pin(...)] call that sets a pin up for digital use. *)
Definition dig_init (p : HwPin.t) : hw_event :=
  PinInit (HwPin._name p) (bool_decide (HwPin._mode p = "out"))
    (if decide (HwPin._pull p = "pu") then Some PULL_UP
     else if decide (HwPin._pull p = "pd") then Some PULL_DOWN
     else None).

(** The pins that the pairs of a [pm] command name. *)
Definition pair_pins (ps : list (string * string)) : list Z :=
  omap (λ pr, py_int pr.1) ps.

(** Every pair of a [pm] command has a pin that [int()] reads and one of
    the four modes. *)
Definition pairs_ok (ps : list (string * string)) : Prop :=
  Forall (λ pr, is_Some (py_int pr.1) /\ valid_mode pr.2 = true) ps.

(** The hardware commands behind the pins-configured gate. *)
Definition gated_cmds : list string := ["dw"; "aw"; "dr"; "ar"].

(** The state a [_recv(length, timeout)] leaves when it has taken what the
    socket had: [rx] is what is left of the script and [buf] the new
    receive buffer. *)
Definition after_recv (timeout : Z) (rx : list rx_event) (buf : bytes) (s : Sys) : Sys :=
  {| self := set_rx_data buf (set_timeout (Some timeout) (self s));
     world := set_rx_script rx
                (set_sock_timeout
                   (if decide (Some timeout ≠ _timeout (self s)) then Some timeout
                    else sock_timeout (world s))
                   (world s)) |}.

(** What is left of the loop body once the frame has been dealt with. *)
Definition check_alive (c_time : Z) : M ctl :=
  alive ← _server_alive c_time;
  if (alive : bool) then _run_task;; mret Continue
  else _close;; mret Break.

(** Some pair of a [pm] command has a mode that is none of the four. *)
Definition has_bad_mode (ps : list (string * string)) : Prop :=
  Exists (λ pr, valid_mode pr.2 = false) ps.

(** Between [s] and [s'] the connection was left alone: not closed, same
    state, nothing sent, nothing read. *)
Definition connection_untouched (s s' : Sys) : Prop :=
  state (self s') = state (self s) /\
  closes (world s') = closes (world s) /\
  wire (world s') = wire (world s) /\
  rx_script (world s') = rx_script (world s).

(** The five bytes of a header, for the frames a test server sends. *)
Definition header (msg_type msg_id len : Z) : bytes :=
  default [] (struct_pack msg_type msg_id len).

(** The payload of a hardware command: its tokens joined by NUL. *)
Definition payload (tokens : list string) : bytes := B (join_nul tokens).

(** A client made by [Blynk(token, wdt=False)] in a world where the
    server can be reached and sends what [rx] says. *)
Definition client (token : string) (connects : list bool) (rx : list rx_event) : Sys :=
  {| self := Blynk_init (B token) true false;
     world := set_connect_script connects (set_rx_script rx quiet_world) |}.

(** The same client, already authenticated. *)
Definition session_client (token : string) (rx : list rx_event) : Sys :=
  {| self := set_state AUTHENTICATED (Blynk_init (B token) true false);
     world := set_rx_script rx quiet_world |}.

(** What the server sends while it leaves the heartbeat [last]
    unanswered: nothing at all, or RSP headers that carry another id. *)
Definition other_rsp (last : Z) (ev : rx_event) : Prop :=
  ev = RxTimeout \/
  exists hdr id status,
    ev = RxData hdr /\ struct_unpack hdr = Some (MSG_RSP, id, status) /\
    id ≠ 0 /\ id ≠ last.

Definition unanswered (last : Z) (rx : list rx_event) : Prop := Forall (other_rsp last) rx.

(** A session with the heartbeat [last], sent at second [hb], still
    outstanding, and last checked before its deadline. *)
Definition awaiting (hb last : Z) (s : Sys) : Prop :=
  _do_connect (self s) = true /\
  _rx_data (self s) = [] /\
  _last_hb_id (self s) = last /\
  last ≠ 0 /\
  _hb_time (self s) = hb /\
  _m_time (self s) - hb < MAX_SOCK_TO /\
  unanswered last (rx_script (world s)).

(** Between [s] and [s'] the token, the connection wish, the receive
    buffer, the id counter, the wire and the scripts of the socket are the
    same. *)
Definition same_traffic (s s' : Sys) : Prop :=
  _token (self s') = _token (self s) /\
  _do_connect (self s') = _do_connect (self s) /\
  _rx_data (self s') = _rx_data (self s) /\
  _msg_id (self s') = _msg_id (self s) /\
  wire (world s') = wire (world s) /\
  tx_script (world s') = tx_script (world s) /\
  rx_script (world s') = rx_script (world s).

(** The client as the assignments at the head of [run()] leave it. *)
Definition initialised (s : Sys) : Sys :=
  {| self :=
       {| _token := _token (self s); _do_connect := _do_connect (self s);
          _wdt := _wdt (self s); _vr_pins := _vr_pins (self s);
          state := DISCONNECTED; _hw_pins := ∅; _rx_data := []; _msg_id := 1;
          _pins_configured := false; _timeout := None; _tx_count := 0; _m_time := 0;
          _hb_time := _hb_time (self s); _last_hb_id := _last_hb_id (self s) |};
     world := world s |}.

(** The command tokens that [_handle_hw] acts on. *)
Definition acting_cmds : list string := ["pm"; "vw"; "vr"; "dw"; "aw"; "dr"; "ar"].

(** The commands that address a virtual pin. *)
Definition virtual_cmds : list string := ["vw"; "vr"].

(** The calls of a virtual pin's write callback that a [vw] command with
    the payload tokens [params] makes. *)
Definition vw_calls (vr : gmap Z VrPin) (pin : Z) (params : list string) : list hw_event :=
  match vr !! pin with
  | Some v => if write v then VrWrite pin <$> params else []
  | None => []
  end.

(** The call of a virtual pin's read callback that a [vr] command makes. *)
Definition vr_calls (vr : gmap Z VrPin) (pin : Z) : list hw_event :=
  match vr !! pin with
  | Some v => if read v then [VrRead pin] else []
  | None => []
  end.

(** [s] with more hardware and callback events logged. *)
Definition logged (events : list hw_event) (s : Sys) : Sys :=
  {| self := self s; world := set_hw_log (hw_log (world s) ++ events) (world s) |}.

(** The bytes that the socket still holds, in order. *)
Fixpoint pending (rx : list rx_event) : bytes :=
  match rx with
  | [] => []
  | RxData chunk :: rest => chunk ++ pending rest
  | _ :: rest => pending rest
  end.

(** The received bytes that have not been handed out yet: the receive
    buffer and then what the socket holds. *)
Definition unread (s : Sys) : bytes := _rx_data (self s) ++ pending (rx_script (world s)).

(** The limiter lets a send with this flag through. *)
Definition may_send (send_anyway : bool) (s : Sys) : Prop :=
  (_tx_count (self s) <? MAX_MSG_PER_SEC) || send_anyway = true.

(** The frame types that the session loop knows. *)
Definition known_types : list Z := [MSG_RSP; MSG_PING; MSG_HW; MSG_BRIDGE].

(** The server's next frame is the header [hdr], which reads as type [t],
    id [id] and length field [len], and the receive buffer is empty. *)
Definition next_header (hdr : bytes) (t id len : Z) (rx : list rx_event) (s : Sys) : Prop :=
  _do_connect (self s) = true /\
  _rx_data (self s) = [] /\
  rx_script (world s) = RxData hdr :: rx /\
  struct_unpack hdr = Some (t, id, len).


(** The pins that [_PWMMap] and [_TimerMap] know, by number. *)
Definition pwm_pins : list Z := [9; 10; 11; 24; 25].

(** [s] after a pin object has been changed in place and the hardware has
    seen [events]. *)
Definition with_pin (pin : Z) (f : HwPin.t -> HwPin.t) (events : list hw_event) (s : Sys) : Sys :=
  {| self := set_hw_pins (alter f pin (_hw_pins (self s))) (self s);
     world := set_hw_log (hw_log (world s) ++ events) (world s) |}.

(** A pin object set up for digital use, for analog input, for PWM. *)
Definition as_dig (p : HwPin.t) : HwPin.t := HwPin.set_pin true (HwPin.set_function "dig" p).
Definition as_ana (p : HwPin.t) : HwPin.t := HwPin.set_apin true (HwPin.set_function "ana" p).
Definition as_pwm (p : HwPin.t) : HwPin.t := HwPin.set_pwm true (HwPin.set_function "pwm" p).

(** A token that a payload can carry: ASCII, and without a NUL. *)
Definition plain (t : string) : Prop :=
  forallb is_ascii (B t) = true /\ NUL ∉ B t.

(** A monitor whose list index is where the next sample goes. *)
Definition battery_ok (b : BatteryMonitor.t) : Prop :=
  0 <= BatteryMonitor.idx b < Z.of_nat (length (BatteryMonitor.values b)).

(** What the monitor has reported does not exceed [c]. *)
Definition reports_at_most (c : Z) (rs : list (option Z)) : Prop :=
  Forall (λ r, match r with Some v => v <= c | None => True end) rs.

(** The reports never rise: each is at most the one before it, and the
    first at most [c]. *)
Fixpoint never_rises (c : Z) (rs : list (option Z)) : Prop :=
  match rs with
  | [] => True
  | None :: rest => never_rises c rest
  | Some v :: rest => v <= c /\ never_rises v rest
  end.

(** The last report, or [c] when there was none. *)
Fixpoint last_report (c : Z) (rs : list (option Z)) : Z :=
  match rs with
  | [] => c
  | None :: rest => last_report c rest
  | Some v :: rest => last_report v rest
  end.

(** A sample as the monitor stores it, in millivolts. *)
Definition scaled (sample : Z) : Z := (sample * 117) `div` 100.

(** The eight bytes that stand for a colour value on the wire: the most
    significant bit first, 0xFC for a 1 and 0xE0 for a 0. *)
Definition color_bytes (color : Z) : list Z :=
  (λ k : nat, if Z.testbit color (7 - Z.of_nat k) then 0xFC else 0xE0) <$> seq 0 8.

(** The 24 bytes of one LED: green, then red, then blue. *)
Definition led_bytes (colors : Z * Z * Z) : list Z :=
  let '(r, g, b) := colors in color_bytes g ++ color_bytes r ++ color_bytes b.


(** * Properties *)

(** ** Running the monad in proofs *)

Arguments struct_pack : simpl never.
Arguments struct_unpack : simpl never.

Ltac msimpl1 :=
  unfold mbind, M_bind, mret, M_ret, self_get, self_upd, world_get, world_upd,
    raise, log_hw, after_recv,
    set_state, set_hw_pins, set_rx_data, set_msg_id, set_pins_configured, set_timeout,
    set_tx_count, set_m_time, set_hb_time, set_last_hb_id,
    set_rx_script, set_tx_script, set_connect_script, set_wire, set_closes,
    set_sock_timeout, set_hw_log in *;
  cbn [or_raise final self world
       _token _do_connect _wdt _vr_pins state _hw_pins _rx_data _msg_id
       _pins_configured _timeout _tx_count _m_time _hb_time _last_hb_id
       rx_script tx_script connect_script wire closes sock_timeout hw_log
       pin_level adc_level HBPin] in *.

Ltac msimpl := repeat (progress msimpl1).

(** The same, in the goal only. *)
Ltac mgoal1 :=
  unfold mbind, M_bind, mret, M_ret, self_get, self_upd, world_get, world_upd,
    raise, log_hw, after_recv,
    set_state, set_hw_pins, set_rx_data, set_msg_id, set_pins_configured, set_timeout,
    set_tx_count, set_m_time, set_hb_time, set_last_hb_id,
    set_rx_script, set_tx_script, set_connect_script, set_wire, set_closes,
    set_sock_timeout, set_hw_log;
  cbn [or_raise final self world
       _token _do_connect _wdt _vr_pins state _hw_pins _rx_data _msg_id
       _pins_configured _timeout _tx_count _m_time _hb_time _last_hb_id
       rx_script tx_script connect_script wire closes sock_timeout hw_log
       pin_level adc_level HBPin].

Ltac mgoal := repeat (progress mgoal1).

(** The same, in one hypothesis. *)
Ltac mgoal_in H :=
  repeat (progress (
    unfold mbind, M_bind, mret, M_ret, self_get, self_upd, world_get, world_upd,
      raise, log_hw, after_recv,
      set_state, set_hw_pins, set_rx_data, set_msg_id, set_pins_configured, set_timeout,
      set_tx_count, set_m_time, set_hb_time, set_last_hb_id,
      set_rx_script, set_tx_script, set_connect_script, set_wire, set_closes,
      set_sock_timeout, set_hw_log in H;
    cbn [or_raise final self world
         _token _do_connect _wdt _vr_pins state _hw_pins _rx_data _msg_id
         _pins_configured _timeout _tx_count _m_time _hb_time _last_hb_id
         rx_script tx_script connect_script wire closes sock_timeout hw_log
         pin_level adc_level HBPin] in H)).


Ltac destruct_sys s :=
  destruct s as [[tok dc wdt vr st hw rxd mid pc tmo txc mt hbt lhb]
                 [rxs txs cns wr cl sto hwl pl al hbp]];
  msimpl.

(** A step of a pin method: look the pin up and take its fields. *)
Ltac pin_step Hpin :=
  unfold HwPin_config, hw_pin_upd, hw_pin; mgoal;
  rewrite ?lookup_alter_eq, ?Hpin;
  cbn [fmap option_fmap option_map or_raise];
  mgoal;
  cbn [HwPin.set_function HwPin.set_pin HwPin.set_apin HwPin.set_pwm
       HwPin._function HwPin._name HwPin._mode HwPin._pull HwPin._pin HwPin._apin
       HwPin._pwm].

(** ** The frame codec *)

Lemma byte_val_of (z : Z) : 0 <= z < 256 -> byte_val (byte_of z) = z.
Proof.
  intros Hz. unfold byte_val, byte_of.
  rewrite N_ascii_embedding by lia. lia.
Qed.

Lemma byte_val_range (c : ascii) : 0 <= byte_val c < 256.
Proof.
  unfold byte_val. pose proof (N_ascii_bounded c). lia.
Qed.

Lemma struct_pack_length t i l hdr :
  struct_pack t i l = Some hdr -> length hdr = 5%nat.
Proof.
  unfold struct_pack. case_match; [|done]. by intros [= <-].
Qed.

Lemma struct_pack_in_range t i l :
  0 <= t <= 0xFF -> 0 <= i <= 0xFFFF -> 0 <= l <= 0xFFFF ->
  struct_pack t i l =
    Some [ byte_of t; byte_of (i / 256); byte_of (i mod 256);
           byte_of (l / 256); byte_of (l mod 256) ].
Proof.
  intros Ht Hi Hl. unfold struct_pack.
  replace (0 <=? t) with true by (symmetry; apply Z.leb_le; lia).
  replace (t <=? 0xFF) with true by (symmetry; apply Z.leb_le; lia).
  replace (0 <=? i) with true by (symmetry; apply Z.leb_le; lia).
  replace (i <=? 0xFFFF) with true by (symmetry; apply Z.leb_le; lia).
  replace (0 <=? l) with true by (symmetry; apply Z.leb_le; lia).
  replace (l <=? 0xFFFF) with true by (symmetry; apply Z.leb_le; lia).
  reflexivity.
Qed.

Lemma u16_bytes (v : Z) :
  0 <= v <= 0xFFFF ->
  byte_val (byte_of (v / 256)) * 256 + byte_val (byte_of (v mod 256)) = v.
Proof.
  intros Hv.
  assert (0 <= v / 256 < 256) by (split; [apply Z.div_pos | apply Z.div_lt_upper_bound]; lia).
  assert (0 <= v mod 256 < 256) by (apply Z.mod_pos_bound; lia).
  rewrite !byte_val_of by assumption.
  pose proof (Z.div_mod v 256). lia.
Qed.

Lemma struct_unpack_pack (t i l : Z) (hdr : bytes) :
  struct_pack t i l = Some hdr -> struct_unpack hdr = Some (t, i, l).
Proof.
  unfold struct_pack. intros H. case_match eqn:Hr; [|done]. injection H as <-.
  repeat (apply andb_prop in Hr as [Hr ?]).
  unfold struct_unpack. rewrite byte_val_of by lia. by rewrite !u16_bytes by lia.
Qed.

(** C9 -- Header round trip: a type in 0..255, an id in 0..65535 and a
    length in 0..65535 pack into five bytes, and unpacking those five
    bytes gives back the same type, id and length. *)
Theorem header_roundtrip (msg_type msg_id len : Z) :
  0 <= msg_type <= 255 -> 0 <= msg_id <= 65535 -> 0 <= len <= 65535 ->
  exists hdr,
    struct_pack msg_type msg_id len = Some hdr /\
    Z.of_nat (length hdr) = HDR_LEN /\
    struct_unpack hdr = Some (msg_type, msg_id, len).
Proof.
  intros Ht Hi Hl. eexists. split; [by apply struct_pack_in_range|].
  split; [reflexivity|].
  apply struct_unpack_pack. by apply struct_pack_in_range.
Qed.

Lemma header_roundtrip_witness :
  exists hdr,
    struct_pack MSG_HW 0x1234 300 = Some hdr /\
    Z.of_nat (length hdr) = HDR_LEN /\
    struct_unpack hdr = Some (MSG_HW, 0x1234, 300).
Proof. apply (header_roundtrip MSG_HW 0x1234 300); unfold MSG_HW; lia. Defined.

(** ** The message-id counter *)


Lemma new_msg_id_run (s : Sys) :
  _new_msg_id s =
    Ok (next_id (_msg_id (self s)))
       {| self := set_msg_id (next_id (_msg_id (self s))) (self s); world := world s |}.
Proof.
  unfold _new_msg_id, next_id, mbind, M_bind, self_upd, self_get; simpl.
  destruct (0xFFFF <? _msg_id (self s) + 1); reflexivity.
Qed.

Lemma next_id_range (id : Z) : 0 <= id -> 1 <= next_id id <= 0xFFFF.
Proof.
  intros H. unfold next_id. destruct (Z.ltb_spec 0xFFFF (id + 1)); lia.
Qed.

Lemma next_id_wraps : next_id 0xFFFF = 1.
Proof. reflexivity. Qed.



Lemma msg_ids_run (n : nat) (s : Sys) :
  exists s', msg_ids n s = Ok (ids_from n (_msg_id (self s))) s'.
Proof.
  revert s. induction n as [|n IH]; intros s; simpl.
  - by eexists.
  - unfold mbind, M_bind. rewrite new_msg_id_run.
    destruct (IH {| self := set_msg_id (next_id (_msg_id (self s))) (self s);
                    world := world s |}) as [s' ->].
    by eexists.
Qed.

Lemma ids_from_length n id : length (ids_from n id) = n.
Proof. revert id. induction n; intros; simpl; auto. Qed.

Lemma ids_from_nonzero n id : 0 <= id -> Forall (λ i, i ≠ 0) (ids_from n id).
Proof.
  revert id. induction n as [|n IH]; intros id Hid; simpl; constructor.
  - pose proof (next_id_range id Hid). lia.
  - apply IH. pose proof (next_id_range id Hid). lia.
Qed.

Lemma ids_from_after_max n id k :
  ids_from n id !! k = Some 0xFFFF ->
  (S k < n)%nat ->
  ids_from n id !! S k = Some 1.
Proof.
  revert id k. induction n as [|n IH]; intros id k Hk Hlt; [lia|].
  destruct k as [|k]; simpl in *.
  - destruct n; [lia|]. simpl. injection Hk as ->. reflexivity.
  - apply IH; [assumption | lia].
Qed.

Lemma run_init_run (s : Sys) : run_init s = Ok tt (initialised s).
Proof. destruct s as [[] w]. reflexivity. Qed.

Lemma run_unfold (fuel : nat) (sessions : list (list Z)) (s : Sys) :
  run fuel sessions s = run_rounds fuel sessions (initialised s).
Proof. unfold run, mbind, M_bind. by rewrite run_init_run. Qed.

Lemma next_id_mod (id : Z) : 1 <= id <= 0xFFFF -> next_id id = id `mod` 0xFFFF + 1.
Proof.
  intros Hid. unfold next_id. destruct (Z.ltb_spec 0xFFFF (id + 1)).
  - assert (id = 0xFFFF) as -> by lia. reflexivity.
  - rewrite Z.mod_small by lia. reflexivity.
Qed.

(** The ids in closed form: counting from 0, the [k]-th id after the
    counter value [id] is [(id + k) mod 0xFFFF + 1]. *)
Lemma ids_from_lookup (n : nat) (id : Z) (k : nat) :
  1 <= id <= 0xFFFF ->
  (k < n)%nat ->
  ids_from n id !! k = Some ((id + Z.of_nat k) `mod` 0xFFFF + 1).
Proof.
  revert id k. induction n as [|n IH]; intros id k Hid Hk; [lia|].
  pose proof (next_id_range id ltac:(lia)) as Hnext.
  destruct k as [|k]; cbn [ids_from lookup list_lookup].
  - rewrite Z.add_0_r. by rewrite next_id_mod.
  - change (ids_from n (next_id id) !! k = Some ((id + Z.of_nat (S k)) `mod` 0xFFFF + 1)).
    rewrite IH by lia. rewrite next_id_mod by done. do 2 f_equal.
    rewrite Nat2Z.inj_succ.
    replace (id `mod` 0xFFFF + 1 + Z.of_nat k) with (id `mod` 0xFFFF + (1 + Z.of_nat k)) by lia.
    rewrite Z.add_mod_idemp_l by done. f_equal. lia.
Qed.

(** C1 -- Message ids: on a client that [run()] has just initialised
    (counter 1), any number of calls of the id generator succeed, and
    counting from 0 the [k]-th id is [(k + 1) mod 0xFFFF + 1]: the ids run
    2, 3, ..., 0xFFFF, 1, 2, ...  So none of the ids is 0, the id that
    follows 0xFFFF is 1, and 0xFFFF is reached: it is the 65534th id, and
    the 65535th is 1. *)
Theorem msg_id_sequence (s : Sys) (n : nat) :
  exists ids s',
    (run_init;; msg_ids n) s = Ok ids s' /\
    length ids = n /\
    (forall k, (k < n)%nat -> ids !! k = Some ((Z.of_nat k + 1) `mod` 0xFFFF + 1)) /\
    Forall (λ id, id ≠ 0) ids /\
    (forall k, ids !! k = Some 0xFFFF -> (S k < n)%nat -> ids !! S k = Some 1) /\
    ((65534 < n)%nat -> ids !! 65533%nat = Some 0xFFFF /\ ids !! 65534%nat = Some 1).
Proof.
  destruct (msg_ids_run n (initialised s)) as [s' Hrun].
  assert (Hlookup : forall k, (k < n)%nat ->
            ids_from n 1 !! k = Some ((Z.of_nat k + 1) `mod` 0xFFFF + 1)).
  { intros k Hk. rewrite ids_from_lookup by (done || lia).
    by replace (1 + Z.of_nat k) with (Z.of_nat k + 1) by lia. }
  exists (ids_from n 1), s'. split.
  - unfold mbind, M_bind. by rewrite run_init_run, Hrun.
  - split; [apply ids_from_length|].
    split; [exact Hlookup|].
    split; [apply ids_from_nonzero; lia|].
    split; [intros k; apply ids_from_after_max|].
    intros Hn.
    assert (Hbelow : (65533 < n)%nat).
    { eapply Nat.lt_trans; [|exact Hn]. apply Nat.ltb_lt. by vm_compute. }
    split; rewrite Hlookup by done; by vm_compute.
Qed.

(** The counter does reach 0xFFFF: it is the 65534th id after [run()]
    starts, and the next one is 1. *)
Example msg_id_wrap_reached :
  ids_from 65535 1 !! 65533%nat = Some 0xFFFF /\ ids_from 65535 1 !! 65534%nat = Some 1.
Proof. by vm_compute. Qed.

(** ** The rate limiter and the send pipeline *)

Lemma accepts_all_next w : accepts_all w -> accepts_next w.
Proof.
  unfold accepts_all, accepts_next. intros H.
  destruct (tx_script w) as [|[] ?]; [done..|].
  by apply Forall_cons in H as [? _].
Qed.

(** A send the limiter lets through and the transport takes: the frame
    goes on the wire and the counter goes up by one, whatever the flag. *)
Lemma send_accepted (data : bytes) (send_anyway : bool) (s : Sys) :
  accepts_next (world s) ->
  (_tx_count (self s) <? MAX_MSG_PER_SEC) || send_anyway = true ->
  _send data send_anyway s =
    Ok tt {| self := set_tx_count (_tx_count (self s) + 1) (self s);
             world := set_wire (wire (world s) ++ [data])
                        (set_tx_script (tail (tx_script (world s))) (world s)) |}.
Proof.
  intros Hacc Hgo. destruct_sys s. unfold accepts_next in Hacc. msimpl.
  unfold _send. msimpl. rewrite Hgo.
  change (Z.to_nat (MAX_TX_RETRIES + 1)) with 4%nat.
  cbn [send_attempts]. msimpl. unfold conn_send. msimpl.
  destruct txs as [|[] ?]; done.
Qed.

(** A regular send with the budget used up: nothing happens at all. *)
Lemma send_dropped (data : bytes) (s : Sys) :
  MAX_MSG_PER_SEC <= _tx_count (self s) ->
  _send data false s = Ok tt s.
Proof.
  intros Hfull. unfold _send. msimpl.
  destruct (Z.ltb_spec (_tx_count (self s)) MAX_MSG_PER_SEC); [lia|]. reflexivity.
Qed.

(** The limiter never stands in the way of a priority send. *)
Lemma send_anyway_attempts (data : bytes) (s : Sys) :
  _send data true s = send_attempts (Z.to_nat (MAX_TX_RETRIES + 1)) data s.
Proof.
  unfold _send. msimpl. by rewrite orb_true_r.
Qed.

Lemma drop_S_tail {A} (n : nat) (l : list A) : drop (S n) l = drop n (tail l).
Proof. destruct l; simpl; by rewrite ?drop_nil. Qed.

Lemma send_all_run (reqs : list request) (s : Sys) :
  accepts_all (world s) ->
  let sent := window_sent (_tx_count (self s)) reqs in
  send_all reqs s =
    Ok tt {| self := set_tx_count (_tx_count (self s) + Z.of_nat (length sent)) (self s);
             world := set_wire (wire (world s) ++ sent.*1)
                        (set_tx_script (drop (length sent) (tx_script (world s)))
                           (world s)) |}.
Proof.
  revert s. induction reqs as [|[data flag] reqs IH]; intros s Hacc; cbn [send_all window_sent].
  - destruct_sys s. cbn. by rewrite Z.add_0_r, app_nil_r.
  - msimpl. destruct ((_tx_count (self s) <? MAX_MSG_PER_SEC) || flag) eqn:Hgo.
    + rewrite send_accepted by (auto using accepts_all_next).
      rewrite IH.
      * destruct_sys s. cbn [length fmap list_fmap fst drop].
        rewrite drop_S_tail, <- app_assoc.
        by replace (txc + Z.of_nat (S (length (window_sent (txc + 1) reqs))))
          with (txc + 1 + Z.of_nat (length (window_sent (txc + 1) reqs))) by lia.
      * destruct_sys s. unfold accepts_all in *. msimpl.
        destruct txs; [done|]. by apply Forall_cons in Hacc as [_ ?].
    + apply orb_false_iff in Hgo as [Hn ->].
      rewrite send_dropped by (apply Z.ltb_ge in Hn; lia).
      by rewrite IH.
Qed.

Lemma window_sent_regular (n : Z) (msgs : list bytes) :
  0 <= n <= MAX_MSG_PER_SEC ->
  window_sent n (regular <$> msgs) = regular <$> take (Z.to_nat (MAX_MSG_PER_SEC - n)) msgs.
Proof.
  revert n. induction msgs as [|m msgs IH]; intros n Hn; cbn [fmap list_fmap window_sent regular].
  - by rewrite take_nil.
  - rewrite orb_false_r. destruct (Z.ltb_spec n MAX_MSG_PER_SEC).
    + replace (Z.to_nat (MAX_MSG_PER_SEC - n)) with (S (Z.to_nat (MAX_MSG_PER_SEC - (n + 1)))) by lia.
      cbn [take fmap list_fmap]. f_equal. apply IH. lia.
    + replace (Z.to_nat (MAX_MSG_PER_SEC - n)) with 0%nat by lia.
      rewrite IH by lia. by replace (Z.to_nat (MAX_MSG_PER_SEC - n)) with 0%nat by lia.
Qed.

Lemma window_sent_priority (n : Z) (pre post : list request) :
  Forall (λ r, r.2 = true) pre ->
  window_sent n (pre ++ post) = pre ++ window_sent (n + Z.of_nat (length pre)) post.
Proof.
  revert n. induction pre as [|[data flag] pre IH]; intros n Hpre; cbn [app length window_sent].
  - by rewrite Z.add_0_r.
  - apply Forall_cons in Hpre as [Hflag Hpre]. cbn in Hflag. subst flag.
    rewrite orb_true_r, IH by done.
    by replace (n + 1 + Z.of_nat (length pre)) with (n + Z.of_nat (S (length pre))) by lia.
Qed.

Lemma regular_count_cons (r : request) (reqs : list request) :
  regular_count (r :: reqs) = (if is_regular r then 1 else 0) + regular_count reqs.
Proof.
  unfold regular_count. rewrite filter_cons.
  destruct (is_regular r); case_decide; try done; cbn [length]; lia.
Qed.

Lemma regular_count_app (l1 l2 : list request) :
  regular_count (l1 ++ l2) = regular_count l1 + regular_count l2.
Proof.
  unfold regular_count. rewrite filter_app, length_app. lia.
Qed.

Lemma regular_count_priority (pre : list request) :
  Forall (λ r, r.2 = true) pre -> regular_count pre = 0.
Proof.
  induction 1 as [|[data flag] pre Hflag _ IH]; [done|].
  rewrite regular_count_cons, IH. cbn in Hflag. by subst flag.
Qed.

(** Counting from [n], the regular sends that get through are at most
    what is left of the budget. *)
Lemma regular_count_window (n : Z) (reqs : list request) :
  regular_count (window_sent n reqs) <= Z.max 0 (MAX_MSG_PER_SEC - n).
Proof.
  revert n. induction reqs as [|[data flag] reqs IH]; intros n; cbn [window_sent].
  - unfold regular_count. cbn. lia.
  - destruct (Z.ltb_spec n MAX_MSG_PER_SEC); destruct flag; cbn [orb].
    + rewrite regular_count_cons. cbn. specialize (IH (n + 1)). lia.
    + rewrite regular_count_cons. cbn. specialize (IH (n + 1)). lia.
    + rewrite regular_count_cons. cbn. specialize (IH (n + 1)). lia.
    + apply IH.
Qed.

(** C3 -- Rate limiting: in a rate window (counter 0) with a transport
    that takes every send, of MAX_MSG_PER_SEC + 1 regular messages the
    first MAX_MSG_PER_SEC go on the wire and the last one is dropped
    without an error and without a trace; a priority send always goes to
    the transport, whatever the counter, and is on the wire when the
    transport takes it. *)
Theorem rate_limit_budget (s : Sys) (msgs : list bytes) (extra : bytes) :
  _tx_count (self s) = 0 ->
  accepts_all (world s) ->
  Z.of_nat (length msgs) = MAX_MSG_PER_SEC ->
  (exists s',
     send_all (regular <$> (msgs ++ [extra])) s = Ok tt s' /\
     send_all (regular <$> msgs) s = Ok tt s' /\
     wire (world s') = wire (world s) ++ msgs /\
     _tx_count (self s') = MAX_MSG_PER_SEC) /\
  (forall (s0 : Sys) (data : bytes),
     _send data true s0 = send_attempts (Z.to_nat (MAX_TX_RETRIES + 1)) data s0 /\
     (accepts_next (world s0) ->
      exists s1, _send data true s0 = Ok tt s1 /\
                 wire (world s1) = wire (world s0) ++ [data])).
Proof.
  intros Hzero Hacc Hlen. split.
  - eexists. rewrite !send_all_run by done. rewrite Hzero.
    rewrite !window_sent_regular by (unfold MAX_MSG_PER_SEC; lia).
    rewrite Z.sub_0_r, take_app_length' by lia.
    rewrite firstn_all2 by lia.
    split; [reflexivity|]. split; [reflexivity|]. msimpl.
    rewrite length_fmap, <- list_fmap_compose.
    split; [by rewrite list_fmap_id | lia].
  - intros s0 data. split; [apply send_anyway_attempts|].
    intros Hnext. eexists. rewrite send_accepted by (by rewrite ?orb_true_r).
    split; [reflexivity|]. reflexivity.
Qed.

Lemma rate_limit_budget_witness :
  let s := {| self := set_state AUTHENTICATED (Blynk_init (B "token") true false);
              world := quiet_world |} in
  let msgs := replicate 20 (B "m") in
  (exists s',
     send_all (regular <$> (msgs ++ [B "x"])) s = Ok tt s' /\
     send_all (regular <$> msgs) s = Ok tt s' /\
     wire (world s') = wire (world s) ++ msgs /\
     _tx_count (self s') = MAX_MSG_PER_SEC) /\
  (forall (s0 : Sys) (data : bytes),
     _send data true s0 = send_attempts (Z.to_nat (MAX_TX_RETRIES + 1)) data s0 /\
     (accepts_next (world s0) ->
      exists s1, _send data true s0 = Ok tt s1 /\
                 wire (world s1) = wire (world s0) ++ [data])).
Proof.
  apply rate_limit_budget; [reflexivity | constructor | reflexivity].
Defined.

(** C10 -- Priority sends use the budget too: in a rate window (counter
    0) with a transport that takes every send, every request that gets
    through is counted, priority ones included; so after [P] priority
    sends at the head of the window at most max(0, MAX_MSG_PER_SEC - P)
    of the regular sends that follow are put on the wire. *)
Theorem priority_sends_use_budget (s : Sys) (pre post : list request) :
  _tx_count (self s) = 0 ->
  accepts_all (world s) ->
  Forall (λ r, r.2 = true) pre ->
  exists s',
    send_all (pre ++ post) s = Ok tt s' /\
    let sent := window_sent 0 (pre ++ post) in
    wire (world s') = wire (world s) ++ sent.*1 /\
    _tx_count (self s') = Z.of_nat (length sent) /\
    sent = pre ++ window_sent (Z.of_nat (length pre)) post /\
    regular_count sent <= Z.max 0 (MAX_MSG_PER_SEC - Z.of_nat (length pre)).
Proof.
  intros Hzero Hacc Hpre. eexists. rewrite send_all_run by done. rewrite Hzero.
  split; [reflexivity|]. cbn zeta. msimpl.
  split; [reflexivity|]. split; [lia|].
  rewrite window_sent_priority by done. split; [reflexivity|].
  rewrite regular_count_app, regular_count_priority by done.
  apply regular_count_window.
Qed.

Lemma priority_sends_use_budget_witness :
  let s := {| self := set_state AUTHENTICATED (Blynk_init (B "token") true false);
              world := quiet_world |} in
  let pre := [priority (B "ping"); priority (B "pong")] in
  let post := regular <$> replicate 20 (B "m") in
  exists s',
    send_all (pre ++ post) s = Ok tt s' /\
    let sent := window_sent 0 (pre ++ post) in
    wire (world s') = wire (world s) ++ sent.*1 /\
    _tx_count (self s') = Z.of_nat (length sent) /\
    sent = pre ++ window_sent (Z.of_nat (length pre)) post /\
    regular_count sent <= Z.max 0 (MAX_MSG_PER_SEC - Z.of_nat (length pre)).
Proof.
  apply priority_sends_use_budget; [reflexivity | constructor | repeat constructor].
Defined.

(** C10, as first stated, fails: twenty regular sends and then one
    priority send in the same window all go on the wire, so with P = 1
    priority send the regular sends are 20, not at most
    MAX_MSG_PER_SEC - 1 = 19. *)
Lemma priority_after_regular_full_budget :
  let s := {| self := set_state AUTHENTICATED (Blynk_init (B "token") true false);
              world := quiet_world |} in
  let reqs := (regular <$> replicate 20 (B "m")) ++ [priority (B "p")] in
  exists s',
    send_all reqs s = Ok tt s' /\
    wire (world s') = replicate 20 (B "m") ++ [B "p"] /\
    _tx_count (self s') = 21 /\
    ~ (Z.of_nat (length (replicate 20 (B "m"))) <= MAX_MSG_PER_SEC - 1).
Proof.
  eexists. split; [vm_compute; reflexivity|].
  split; [reflexivity|]. split; [reflexivity|].
  vm_compute. intros H. apply H. reflexivity.
Qed.

(** ** The application's calls *)

Lemma format_msg_run (msg_type : Z) (args : list py_value) (data : bytes) (s : Sys) :
  encode_ascii (join_nul (py_str <$> args)) = Some data ->
  0 <= msg_type <= 0xFF ->
  0 <= _msg_id (self s) ->
  Z.of_nat (length data) <= 0xFFFF ->
  exists hdr,
    struct_pack msg_type (next_id (_msg_id (self s))) (Z.of_nat (length data)) = Some hdr /\
    _format_msg msg_type args s =
      Ok (hdr ++ data)
         {| self := set_msg_id (next_id (_msg_id (self s))) (self s); world := world s |}.
Proof.
  intros Henc Ht Hid Hlen.
  pose proof (next_id_range _ Hid) as Hnext.
  eexists. split; [apply struct_pack_in_range; lia|].
  unfold _format_msg. rewrite Henc. msimpl.
  rewrite new_msg_id_run. unfold pack_header.
  rewrite struct_pack_in_range by lia. reflexivity.
Qed.

(** C8 -- Application sends are gated on the state: outside
    Authenticated, [notify], [email] and [virtual_write] return with the
    client and the world exactly as they were; in Authenticated each of
    them formats its frame (taking a message id) and hands it to [_send]
    as a regular send, so that with budget left and a transport that takes
    it the frame is the next thing on the wire. *)
Theorem app_calls_gated (s : Sys) (msg to subject body pin val : py_value) :
  (state (self s) ≠ AUTHENTICATED ->
     notify msg s = Ok tt s /\
     email to subject body s = Ok tt s /\
     virtual_write pin val s = Ok tt s) /\
  (state (self s) = AUTHENTICATED ->
     notify msg s =
       (frame ← _format_msg MSG_NOTIFY [msg]; _send frame false) s /\
     email to subject body s =
       (frame ← _format_msg MSG_EMAIL [to; subject; body]; _send frame false) s /\
     virtual_write pin val s =
       (frame ← _format_msg MSG_HW [PyStr "vw"; pin; val]; _send frame false) s) /\
  (state (self s) = AUTHENTICATED ->
   forall data,
     encode_ascii (py_str msg) = Some data ->
     Z.of_nat (length data) <= 0xFFFF ->
     0 <= _msg_id (self s) ->
     _tx_count (self s) < MAX_MSG_PER_SEC ->
     accepts_next (world s) ->
     exists hdr s',
       notify msg s = Ok tt s' /\
       struct_unpack hdr =
         Some (MSG_NOTIFY, next_id (_msg_id (self s)), Z.of_nat (length data)) /\
       wire (world s') = wire (world s) ++ [hdr ++ data]).
Proof.
  split; [|split].
  - intros Hst. unfold notify, email, virtual_write. msimpl.
    destruct (decide (state (self s) = AUTHENTICATED)); done.
  - intros Hst. unfold notify, email, virtual_write. msimpl.
    destruct (decide (state (self s) = AUTHENTICATED)); done.
  - intros Hst data Henc Hlen Hid Htx Hacc.
    destruct (format_msg_run MSG_NOTIFY [msg] data s) as (hdr & Hpack & Hfmt);
      [done | unfold MSG_NOTIFY; lia | done | done |].
    assert (Hgo : (_tx_count (self s) <? MAX_MSG_PER_SEC) || false = true)
      by (apply orb_true_iff; left; by apply Z.ltb_lt).
    exists hdr. unfold notify. msimpl.
    destruct (decide (state (self s) = AUTHENTICATED)); [|done].
    rewrite Hfmt, send_accepted by done.
    eexists. split; [reflexivity|].
    split; [by apply struct_unpack_pack | reflexivity].
Qed.

(** ** The inbound dispatcher *)

(** With the gate closed, a hardware read or write command is dropped:
    the client and the world stay as they are. *)
Lemma handle_hw_gate_closed (data : bytes) (cmd : string) (params : list string) (s : Sys) :
  mapM decode_ascii (split_nul data) = Some (cmd :: params) ->
  cmd ∈ gated_cmds ->
  _pins_configured (self s) = false ->
  _handle_hw data s = Ok tt s.
Proof.
  intros Hdec Hcmd Hgate. unfold _handle_hw, decode_params. rewrite Hdec. msimpl.
  unfold gated_cmds in Hcmd. rewrite !elem_of_cons, elem_of_nil in Hcmd.
  destruct Hcmd as [->|[->|[->|[->|[]]]]];
    repeat (case_decide; [done|]); msimpl; by rewrite Hgate.
Qed.

Lemma HwPin_init_run (pin : Z) (mode : string) (s : Sys) :
  exists log,
    HwPin_init pin mode mode s =
      Ok (fresh_pin pin mode) {| self := self s; world := set_hw_log log (world s) |}.
Proof.
  destruct_sys s. unfold HwPin_init. msimpl. case_decide; msimpl; by eexists.
Qed.

Lemma pm_pairs_run (ps : list (string * string)) (s : Sys) :
  pairs_ok ps ->
  exists s',
    pm_pairs ps s = Ok tt s' /\
    _pins_configured (self s') = _pins_configured (self s) /\
    forall p : Z,
      (p ∈ pair_pins ps ->
       exists mode, _hw_pins (self s') !! p = Some (fresh_pin p mode) /\ valid_mode mode = true) /\
      (p ∉ pair_pins ps -> _hw_pins (self s') !! p = _hw_pins (self s) !! p).
Proof.
  revert s. induction ps as [|[tp mode] ps IH]; intros s Hok.
  - exists s. split; [done|]. split; [done|]. intros p. split; [|done].
    unfold pair_pins. cbn. by rewrite elem_of_nil.
  - apply Forall_cons in Hok as [[[q Hq] Hmode] Hok]. cbn in Hq, Hmode.
    cbn [pm_pairs]. rewrite Hq. msimpl. rewrite Hmode. msimpl.
    destruct (HwPin_init_run q mode s) as [log ->]. msimpl.
    match goal with
    | |- context [pm_pairs ps ?s0] => destruct (IH s0 Hok) as (s' & -> & Hgate & Hpins)
    end.
    exists s'. split; [done|]. split; [done|].
    intros p. unfold pair_pins. cbn [omap list_omap fst]. rewrite Hq.
    fold (pair_pins ps). destruct (Hpins p) as [Hin Hout]. msimpl. split.
    + intros Hp. destruct (decide (p ∈ pair_pins ps)) as [|Hnot]; [by apply Hin|].
      apply elem_of_cons in Hp as [->|]; [|done].
      rewrite (proj2 (Hpins q)) by done. rewrite lookup_insert_eq. by exists mode.
    + intros Hp. apply not_elem_of_cons in Hp as [Hne Hp].
      rewrite Hout by done. by rewrite lookup_insert_ne.
Qed.

Lemma handle_hw_pm (data : bytes) (params : list string) (s : Sys) :
  mapM decode_ascii (split_nul data) = Some ("pm" :: params)%string ->
  pairs_ok (pairs params) ->
  exists s',
    _handle_hw data s = Ok tt s' /\
    _pins_configured (self s') = true /\
    forall p : Z, p ∈ pair_pins (pairs params) ->
      exists mode, _hw_pins (self s') !! p = Some (fresh_pin p mode) /\ valid_mode mode = true.
Proof.
  intros Hdec Hok. unfold _handle_hw, decode_params. rewrite Hdec. msimpl.
  repeat case_decide; try done.
  destruct (pm_pairs_run (pairs params) s Hok) as (s' & -> & _ & Hpins).
  eexists. split; [reflexivity|]. split; [reflexivity|].
  intros p Hp. msimpl. by apply Hpins.
Qed.

(** A digital write on a registered pin: the pin is set up for digital
    use if it was not yet, and the value is written. *)
Lemma digital_write_run (pin value : Z) (hp : HwPin.t) (s : Sys) :
  _hw_pins (self s) !! pin = Some hp ->
  (HwPin._function hp = "dig" -> HwPin._pin hp = true) ->
  exists s',
    digital_write pin value s = Ok tt s' /\
    hw_log (world s') =
      hw_log (world s)
      ++ (if decide (HwPin._function hp = "dig") then [] else [dig_init hp])
      ++ [PinWrite (HwPin._name hp) value] /\
    wire (world s') = wire (world s) /\
    closes (world s') = closes (world s).
Proof.
  intros Hpin Hready. destruct_sys s.
  unfold digital_write, hw_pin. msimpl. rewrite Hpin. msimpl.
  destruct (decide (HwPin._function hp = "dig")) as [Hdig|Hdig].
  - rewrite decide_False by (by intros []). msimpl. rewrite Hpin. msimpl.
    rewrite (Hready Hdig). msimpl. eexists. split; [reflexivity|]. done.
  - rewrite decide_True by done. unfold HwPin_config, hw_pin_upd, hw_pin. msimpl.
    rewrite lookup_alter_eq, Hpin. cbn [fmap option_fmap option_map or_raise].
    msimpl. cbn [HwPin.set_function HwPin._function HwPin._name HwPin._mode HwPin._pull].
    rewrite decide_True by done. msimpl.
    rewrite !lookup_alter_eq, Hpin. cbn. eexists. split; [reflexivity|]. cbn.
    by rewrite <- app_assoc.
Qed.

Lemma handle_hw_dw (data : bytes) (tp tv : string) (rest : list string) (pin value : Z)
    (hp : HwPin.t) (s : Sys) :
  mapM decode_ascii (split_nul data) = Some ("dw" :: tp :: tv :: rest)%string ->
  py_int tp = Some pin ->
  py_int tv = Some value ->
  _pins_configured (self s) = true ->
  _hw_pins (self s) !! pin = Some hp ->
  _handle_hw data s = digital_write pin value s.
Proof.
  intros Hdec Hp Hv Hgate Hpin. unfold _handle_hw, decode_params. rewrite Hdec. msimpl.
  repeat (case_decide; [done|]). msimpl. rewrite Hgate.
  rewrite decide_True by done. unfold pop_int. rewrite Hp. msimpl. rewrite Hv. msimpl.
  unfold hw_pin at 1. msimpl. by rewrite Hpin.
Qed.

(** C5 -- Dispatcher gating: while no [pm] command has been handled (the
    gate is closed), a [dw], [aw], [dr] or [ar] command leaves the client
    and the world exactly as they were: no pin is made or touched, nothing
    is sent, no error; a [pm] command with well-formed pairs registers its
    pins and opens the gate, and a [dw] for one of those pins then sets
    the pin up and writes the value. *)
Theorem dispatcher_gating (s : Sys) (early pm dw : bytes)
    (cmd : string) (params pm_params rest : list string) (tp tv : string) (pin value : Z) :
  _pins_configured (self s) = false ->
  mapM decode_ascii (split_nul early) = Some (cmd :: params) ->
  cmd ∈ gated_cmds ->
  mapM decode_ascii (split_nul pm) = Some ("pm" :: pm_params)%string ->
  pairs_ok (pairs pm_params) ->
  pin ∈ pair_pins (pairs pm_params) ->
  mapM decode_ascii (split_nul dw) = Some ("dw" :: tp :: tv :: rest)%string ->
  py_int tp = Some pin ->
  py_int tv = Some value ->
  _handle_hw early s = Ok tt s /\
  exists s1 s2 mode,
    _handle_hw pm s = Ok tt s1 /\
    _pins_configured (self s1) = true /\
    _hw_pins (self s1) !! pin = Some (fresh_pin pin mode) /\
    _handle_hw dw s1 = Ok tt s2 /\
    hw_log (world s2) =
      hw_log (world s1)
      ++ [dig_init (fresh_pin pin mode); PinWrite ("GP" +:+ pretty pin) value] /\
    wire (world s2) = wire (world s1).
Proof.
  intros Hgate Hearly Hcmd Hpm Hok Hin Hdw Hp Hv.
  split; [by eapply handle_hw_gate_closed|].
  destruct (handle_hw_pm pm pm_params s Hpm Hok) as (s1 & Hrun1 & Hopen & Hpins).
  destruct (Hpins pin Hin) as (mode & Hlook & _).
  destruct (digital_write_run pin value (fresh_pin pin mode) s1 Hlook)
    as (s2 & Hrun2 & Hlog & Hwire & _); [done|].
  exists s1, s2, mode.
  rewrite (handle_hw_dw dw tp tv rest pin value _ s1) by done.
  done.
Qed.

Lemma dispatcher_gating_witness :
  let s := {| self := set_state AUTHENTICATED (Blynk_init (B "token") true false);
              world := quiet_world |} in
  let early := B "dw" ++ [NUL] ++ B "4" ++ [NUL] ++ B "1" in
  let pm := B "pm" ++ [NUL] ++ B "4" ++ [NUL] ++ B "out" in
  let dw := B "dw" ++ [NUL] ++ B "4" ++ [NUL] ++ B "1" in
  _handle_hw early s = Ok tt s /\
  exists s1 s2 mode,
    _handle_hw pm s = Ok tt s1 /\
    _pins_configured (self s1) = true /\
    _hw_pins (self s1) !! 4 = Some (fresh_pin 4 mode) /\
    _handle_hw dw s1 = Ok tt s2 /\
    hw_log (world s2) =
      hw_log (world s1) ++ [dig_init (fresh_pin 4 mode); PinWrite ("GP" +:+ pretty 4) 1] /\
    wire (world s2) = wire (world s1).
Proof.
  apply (dispatcher_gating _ _ _ _ "dw" ["4"; "1"] ["4"; "out"] [] "4" "1" 4 1)%string.
  - reflexivity.
  - reflexivity.
  - unfold gated_cmds. apply elem_of_cons. by left.
  - reflexivity.
  - repeat constructor. by exists 4.
  - vm_compute. apply elem_of_cons. by left.
  - reflexivity.
  - reflexivity.
  - reflexivity.
Defined.

(** ** The receive buffer *)

Lemma struct_unpack_length (data : bytes) (v : Z * Z * Z) :
  struct_unpack data = Some v -> length data = 5%nat.
Proof. unfold struct_unpack. do 6 (destruct data as [|? data]; try done). Qed.

(** [_recv] when the socket hands over one chunk that fits the request:
    the chunk joins the buffer; with enough bytes there, the first
    [length] of them are returned and taken off, otherwise nothing is
    returned and the buffer keeps them. *)
Lemma recv_data (len timeout : Z) (chunk : bytes) (rx : list rx_event) (s : Sys) :
  rx_script (world s) = RxData chunk :: rx ->
  (length chunk <= Z.to_nat len)%nat ->
  let buf := _rx_data (self s) ++ chunk in
  _recv len timeout s =
    if len <=? Z.of_nat (length buf)
    then Ok (take (Z.to_nat len) buf) (after_recv timeout rx (drop (Z.to_nat len) buf) s)
    else Ok [] (after_recv timeout rx buf s).
Proof.
  intros Hrx Hfit buf. subst buf. destruct_sys s. subst rxs.
  unfold _recv, _settimeout, conn_recv. msimpl.
  destruct (decide (Some timeout ≠ tmo)) as [Hne|Heq]; msimpl;
    rewrite (take_ge chunk), (drop_ge chunk) by done; msimpl.
  - by destruct (len <=? Z.of_nat (length (rxd ++ chunk))).
  - apply dec_stable in Heq. subst tmo.
    by destruct (len <=? Z.of_nat (length (rxd ++ chunk))).
Qed.

(** [_recv] when nothing arrives: nothing is returned, the buffer stays. *)
Lemma recv_nothing (len timeout : Z) (s : Sys) :
  rx_script (world s) = [] ->
  _recv len timeout s = Ok [] (after_recv timeout [] (_rx_data (self s)) s).
Proof.
  intros Hrx. destruct_sys s. subst rxs.
  unfold _recv, _settimeout, conn_recv. msimpl.
  destruct (decide (Some timeout ≠ tmo)) as [Hne|Heq]; msimpl; [done|].
  apply dec_stable in Heq. by subst tmo.
Qed.

(** ** One iteration of the session loop *)

(** A HW or BRIDGE frame whose header and whole payload are there: the
    header is read, then exactly the payload, and the payload is handed to
    [_handle_hw]. *)
Lemma session_iter_hw (c_time t id len : Z) (hdr payload : bytes) (rx : list rx_event)
    (s : Sys) :
  _rx_data (self s) = [] ->
  rx_script (world s) = RxData hdr :: RxData payload :: rx ->
  struct_unpack hdr = Some (t, id, len) ->
  t = MSG_HW \/ t = MSG_BRIDGE ->
  id ≠ 0 ->
  Z.of_nat (length payload) = len ->
  payload ≠ [] ->
  session_iter c_time s =
    (_handle_hw payload;; check_alive c_time)
      (after_recv MIN_SOCK_TO rx []
         (after_recv NON_BLK_SOCK (RxData payload :: rx) [] s)).
Proof.
  intros Hbuf Hrx Hun Ht Hid Hlen Hpay.
  pose proof (struct_unpack_length _ _ Hun) as Hlen5.
  unfold session_iter, check_alive. msimpl.
  rewrite (recv_data HDR_LEN NON_BLK_SOCK hdr (RxData payload :: rx) s)
    by (done || (rewrite Hlen5; done)).
  rewrite Hbuf. cbn [app].
  do 6 (destruct hdr as [|? hdr]; try done).
  cbn [length]. change (HDR_LEN <=? Z.of_nat 5) with true.
  change (Z.to_nat HDR_LEN) with 5%nat. cbn [take drop]. rewrite Hun. msimpl.
  rewrite decide_False by done.
  assert (Hnr : t ≠ MSG_RSP) by (destruct Ht; subst t; done).
  assert (Hnp : t ≠ MSG_PING) by (destruct Ht; subst t; done).
  rewrite (decide_False (P := t = MSG_RSP)) by done.
  rewrite (decide_False (P := t = MSG_PING)) by done.
  rewrite (decide_True (P := t = MSG_HW \/ t = MSG_BRIDGE)) by done.
  msimpl.
  match goal with
  | |- context [_recv len MIN_SOCK_TO ?s0] =>
      rewrite (recv_data len MIN_SOCK_TO payload rx s0) by (done || (subst len; lia))
  end.
  msimpl. subst len. rewrite Nat2Z.id.
  rewrite (proj2 (Z.leb_le _ _)) by (cbn; lia). cbn [app].
  rewrite take_ge, drop_ge by done.
  destruct payload as [|b payload]; [done|]. msimpl.
  match goal with
  | |- context [_handle_hw ?d ?s0] => destruct (_handle_hw d s0)
  end; reflexivity.
Qed.

(** ** A [pm] command with a bad mode *)

Lemma pm_pairs_bad_mode (ps : list (string * string)) (s : Sys) :
  has_bad_mode ps ->
  exists s',
    pm_pairs ps s = Raise ValueError s' /\
    connection_untouched s s' /\
    _pins_configured (self s') = _pins_configured (self s).
Proof.
  unfold has_bad_mode. intros Hbad. revert s.
  induction ps as [|[tp mode] ps IH]; intros s; [by apply Exists_nil in Hbad|].
  cbn [pm_pairs]. destruct (py_int tp) as [q|]; msimpl; [|by exists s].
  destruct (valid_mode mode) eqn:Hmode; msimpl; [|by exists s].
  apply Exists_cons in Hbad as [Hhere|Hlater]; [cbn in Hhere; congruence|].
  destruct (HwPin_init_run q mode s) as [log ->]. msimpl.
  match goal with
  | |- context [pm_pairs ps ?s0] => destruct (IH Hlater s0) as (s' & -> & Hconn & Hgate)
  end.
  exists s'. split; [done|]. revert Hconn Hgate.
  unfold connection_untouched. msimpl. done.
Qed.

Lemma handle_hw_pm_bad_mode (data : bytes) (params : list string) (s : Sys) :
  mapM decode_ascii (split_nul data) = Some ("pm" :: params)%string ->
  has_bad_mode (pairs params) ->
  exists s',
    _handle_hw data s = Raise ValueError s' /\
    connection_untouched s s' /\
    _pins_configured (self s') = _pins_configured (self s).
Proof.
  intros Hdec Hbad. unfold _handle_hw, decode_params. rewrite Hdec. msimpl.
  repeat case_decide; try done.
  destruct (pm_pairs_bad_mode (pairs params) s Hbad) as (s' & -> & Hconn & Hgate).
  by exists s'.
Qed.

(** C4, as the code has it -- A [pm] command with a mode outside in, out,
    pu, pd makes [_handle_hw] raise ValueError.  Nothing in the client
    catches it: the session loop, and with it [run()], ends there with
    that exception.  The client does not close the connection (no
    [conn.close], the state stays as it was, nothing is sent) and the gate
    is not opened; the frames that follow stay unread. *)
Theorem bad_pin_mode_ends_run (s : Sys) (c_time : Z) (ticks : list Z) (t id : Z)
    (hdr data : bytes) (params : list string) (rx : list rx_event) :
  _do_connect (self s) = true ->
  _rx_data (self s) = [] ->
  rx_script (world s) = RxData hdr :: RxData data :: rx ->
  struct_unpack hdr = Some (t, id, Z.of_nat (length data)) ->
  t = MSG_HW \/ t = MSG_BRIDGE ->
  id ≠ 0 ->
  mapM decode_ascii (split_nul data) = Some ("pm" :: params)%string ->
  has_bad_mode (pairs params) ->
  exists s',
    session_loop (c_time :: ticks) s = Raise ValueError s' /\
    state (self s') = state (self s) /\
    closes (world s') = closes (world s) /\
    wire (world s') = wire (world s) /\
    _pins_configured (self s') = _pins_configured (self s) /\
    rx_script (world s') = rx.
Proof.
  intros Hdc Hbuf Hrx Hun Ht Hid Hdec Hbad.
  assert (Hne : data ≠ []) by (intros ->; cbn in Hdec; discriminate Hdec).
  cbn [session_loop]. msimpl. rewrite Hdc.
  rewrite (session_iter_hw c_time t id _ hdr data rx s) by done. msimpl.
  match goal with
  | |- context [_handle_hw data ?s0] =>
      destruct (handle_hw_pm_bad_mode data params s0 Hdec Hbad)
        as (s' & -> & (Hst & Hcl & Hwire & Hscript) & Hgate)
  end.
  exists s'. msimpl. done.
Qed.

Lemma bad_pin_mode_ends_run_witness :
  let bad := payload ["pm"; "1"; "bad"] in
  let rx := [RxData (header MSG_PING 2 0)] in
  let s := session_client "abc" (RxData (header MSG_HW 1 8) :: RxData bad :: rx) in
  exists s',
    session_loop [100; 101; 102] s = Raise ValueError s' /\
    state (self s') = state (self s) /\
    closes (world s') = closes (world s) /\
    wire (world s') = wire (world s) /\
    _pins_configured (self s') = _pins_configured (self s) /\
    rx_script (world s') = rx.
Proof.
  apply (bad_pin_mode_ends_run
           (session_client "abc"
              [RxData (header MSG_HW 1 8); RxData (payload ["pm"; "1"; "bad"]);
               RxData (header MSG_PING 2 0)])
           100 [101; 102] MSG_HW 1 (header MSG_HW 1 8) (payload ["pm"; "1"; "bad"])
           ["1"; "bad"]%string [RxData (header MSG_PING 2 0)]).
  - reflexivity.
  - reflexivity.
  - reflexivity.
  - reflexivity.
  - by left.
  - done.
  - reflexivity.
  - apply Exists_cons. by left.
Defined.

(** C4, as first stated, fails: after a login, a [pm] frame with the mode
    "bad" ends [run()] with ValueError; the PING frame that the server
    sent next is never read and never answered, so the loop does not go
    on with the frames that follow. *)
Lemma bad_pin_mode_stops_dispatch :
  let s := client "abc" [true]
             [ RxData (header MSG_RSP 1 STA_SUCCESS);
               RxData (header MSG_HW 1 8); RxData (payload ["pm"; "1"; "bad"]);
               RxData (header MSG_PING 2 0) ] in
  let r := run 1 [[100; 101; 102]] s in
  (forall (ended : bool) (s' : Sys), r ≠ Ok ended s') /\
  r = Raise ValueError (final r) /\
  wire (world (final r)) = [header MSG_LOGIN 2 3 ++ B "abc"] /\
  rx_script (world (final r)) = [RxData (header MSG_PING 2 0)].
Proof.
  vm_compute. split; [intros ? ?; discriminate|]. done.
Qed.

(** ** The liveness tracker *)

(** [_server_alive] says no only on a new second, with a heartbeat
    outstanding for at least MAX_SOCK_TO seconds. *)
Lemma server_alive_false (c_time : Z) (s s' : Sys) :
  _server_alive c_time s = Ok false s' ->
  _m_time (self s) ≠ c_time /\
  _last_hb_id (self s) ≠ 0 /\
  MAX_SOCK_TO <= c_time - _hb_time (self s).
Proof.
  unfold _server_alive, wdt_feed. msimpl.
  destruct (decide (_m_time (self s) ≠ c_time)) as [Hnew|]; [|done].
  destruct (_wdt (self s)); msimpl.
  all: destruct (bool_decide_reflect (_last_hb_id (self s) ≠ 0)) as [Hout|]; cbn [andb].
  all: try destruct (Z.leb_spec MAX_SOCK_TO (c_time - _hb_time (self s))); try done.
  all: destruct (_ && _); msimpl; try done.
  all: rewrite new_msg_id_run; msimpl; unfold pack_header.
  all: destruct (struct_pack _ _ _); msimpl; try done.
  all: destruct (_send _ _ _); done.
Qed.

(** And on a new second with a heartbeat outstanding that long, it does
    say no. *)
Lemma server_alive_timeout (c_time : Z) (s : Sys) :
  _m_time (self s) ≠ c_time ->
  _last_hb_id (self s) ≠ 0 ->
  MAX_SOCK_TO <= c_time - _hb_time (self s) ->
  exists s',
    _server_alive c_time s = Ok false s' /\
    connection_untouched s s' /\
    _do_connect (self s') = _do_connect (self s).
Proof.
  intros Hnew Hout Hlate. unfold _server_alive, wdt_feed. msimpl.
  rewrite decide_True by done.
  destruct (_wdt (self s)); msimpl.
  all: rewrite bool_decide_true by done.
  all: rewrite (proj2 (Z.leb_le _ _)) by done; cbn [andb].
  all: by eexists.
Qed.

(** Before the deadline of an outstanding heartbeat the check passes and
    leaves the session as it is. *)
Lemma check_alive_early (c_time : Z) (s : Sys) :
  c_time - _hb_time (self s) < MAX_SOCK_TO ->
  exists s',
    check_alive c_time s = Ok Continue s' /\
    connection_untouched s s' /\
    _do_connect (self s') = _do_connect (self s) /\
    _rx_data (self s') = _rx_data (self s) /\
    _last_hb_id (self s') = _last_hb_id (self s) /\
    _hb_time (self s') = _hb_time (self s) /\
    (_m_time (self s') = _m_time (self s) \/ _m_time (self s') = c_time).
Proof.
  intros Hearly. unfold check_alive, _server_alive, wdt_feed, _run_task. msimpl.
  destruct (decide (_m_time (self s) ≠ c_time)) as [Hnew|]; msimpl.
  - destruct (_wdt (self s)); msimpl.
    all: rewrite (proj2 (Z.leb_gt MAX_SOCK_TO _)) by done; rewrite andb_false_r.
    all: rewrite (proj2 (Z.leb_gt HB_PERIOD _)) by (unfold HB_PERIOD, MAX_SOCK_TO in *; lia).
    all: cbn [andb]; msimpl.
    all: eexists; split; [reflexivity|]; unfold connection_untouched; msimpl; auto 10.
  - exists s. unfold connection_untouched. auto 10.
Qed.

(** At the deadline the check fails, and the loop closes and breaks. *)
Lemma check_alive_late (c_time : Z) (s : Sys) :
  _m_time (self s) ≠ c_time ->
  _last_hb_id (self s) ≠ 0 ->
  MAX_SOCK_TO <= c_time - _hb_time (self s) ->
  exists s',
    check_alive c_time s = Ok Break s' /\
    state (self s') = DISCONNECTED /\
    closes (world s') = S (closes (world s)) /\
    wire (world s') = wire (world s).
Proof.
  intros Hnew Hout Hlate.
  destruct (server_alive_timeout c_time s Hnew Hout Hlate)
    as (s' & Hrun & (_ & Hcl & Hwire & _) & _).
  unfold check_alive, _close. msimpl. rewrite Hrun. msimpl.
  eexists. split; [reflexivity|]. msimpl. by rewrite Hcl, Hwire.
Qed.

(** [_recv] when the socket times out: nothing is returned, the buffer
    stays. *)
Lemma recv_timeout (len timeout : Z) (rx : list rx_event) (s : Sys) :
  rx_script (world s) = RxTimeout :: rx ->
  _recv len timeout s = Ok [] (after_recv timeout rx (_rx_data (self s)) s).
Proof.
  intros Hrx. destruct_sys s. subst rxs.
  unfold _recv, _settimeout, conn_recv. msimpl.
  destruct (decide (Some timeout ≠ tmo)) as [Hne|Heq]; msimpl; [done|].
  apply dec_stable in Heq. by subst tmo.
Qed.

(** An iteration in which the server stays silent or sends an RSP with
    another id comes down to the liveness check. *)
Lemma session_iter_unanswered (c_time hb last : Z) (s : Sys) :
  awaiting hb last s ->
  session_iter c_time s =
    check_alive c_time (after_recv NON_BLK_SOCK (tail (rx_script (world s))) [] s).
Proof.
  intros (Hdc & Hbuf & Hlast & Hnz & Hhb & Hm & Hrx).
  unfold session_iter. fold (check_alive c_time). msimpl.
  destruct (rx_script (world s)) as [|ev rx] eqn:Hscript.
  - rewrite recv_nothing, Hbuf by done. reflexivity.
  - apply Forall_cons in Hrx as [[->|(hdr & id & status & -> & Hun & Hid & Hother)] _].
    + rewrite (recv_timeout _ _ rx), Hbuf by done. reflexivity.
    + pose proof (struct_unpack_length _ _ Hun) as Hlen5.
      rewrite (recv_data HDR_LEN NON_BLK_SOCK hdr rx s) by (done || (rewrite Hlen5; done)).
      rewrite Hbuf. cbn [app tail].
      do 6 (destruct hdr as [|? hdr]; try done).
      cbn [length]. change (HDR_LEN <=? Z.of_nat 5) with true.
      change (Z.to_nat HDR_LEN) with 5%nat. cbn [take drop]. rewrite Hun. msimpl.
      rewrite decide_False by done.
      rewrite (decide_True (P := MSG_RSP = MSG_RSP)) by done. msimpl.
      rewrite decide_False by congruence. reflexivity.
Qed.

Lemma awaiting_after_recv (hb last : Z) (s : Sys) :
  awaiting hb last s ->
  awaiting hb last (after_recv NON_BLK_SOCK (tail (rx_script (world s))) [] s).
Proof.
  intros (Hdc & Hbuf & Hlast & Hnz & Hhb & Hm & Hrx).
  unfold awaiting. msimpl. repeat split; try done.
  destruct (rx_script (world s)); [done|]. by apply Forall_cons in Hrx as [_ ?].
Qed.

(** While the clock readings stay before the deadline, the loop goes on
    and closes nothing. *)
Lemma session_loop_early (early : list Z) (hb last : Z) (s : Sys) :
  awaiting hb last s ->
  Forall (λ c, c - hb < MAX_SOCK_TO) early ->
  exists s',
    (forall rest, session_loop (early ++ rest) s = session_loop rest s') /\
    awaiting hb last s' /\
    state (self s') = state (self s) /\
    closes (world s') = closes (world s) /\
    wire (world s') = wire (world s).
Proof.
  intros Haw Hearly. revert s Haw.
  induction Hearly as [|c early Hc _ IH]; intros s Haw; [by exists s|].
  pose proof (awaiting_after_recv hb last s Haw) as Haw0.
  set (s0 := after_recv NON_BLK_SOCK (tail (rx_script (world s))) [] s) in *.
  destruct Haw0 as (Hdc0 & Hbuf0 & Hlast0 & Hnz & Hhb0 & Hm0 & Hrx0).
  destruct (check_alive_early c s0) as
    (s1 & Hrun & (Hst & Hcl & Hwire & Hscript) & Hdc1 & Hbuf1 & Hlast1 & Hhb1 & Hm1);
    [by rewrite Hhb0|].
  assert (Haw1 : awaiting hb last s1).
  { unfold awaiting. rewrite Hdc1, Hbuf1, Hlast1, Hhb1, Hscript.
    repeat split; try done. destruct Hm1 as [->| ->]; done. }
  destruct (IH s1 Haw1) as (s' & Hloop & Haw' & Hst' & Hcl' & Hwire').
  exists s'. split; [|split; [done|]].
  - intros rest. cbn [app session_loop]. mgoal.
    rewrite (proj1 Haw), (session_iter_unanswered c hb last s Haw).
    fold s0. rewrite Hrun. apply Hloop.
  - rewrite Hst', Hcl', Hwire', Hst, Hcl, Hwire. subst s0. by mgoal.
Qed.

(** C6 -- Heartbeat liveness: with a heartbeat outstanding that was sent
    at second [hb], and a server that sends nothing or only RSP frames
    with other ids, the session loop goes on without closing while the
    clock reads less than [hb + MAX_SOCK_TO]; at the first reading of at
    least [hb + MAX_SOCK_TO] it closes the connection, once, and ends,
    whatever readings follow.  In any state the liveness check fails only
    with a heartbeat outstanding for at least MAX_SOCK_TO seconds, and
    MAX_SOCK_TO (5) is less than HB_PERIOD (10). *)
Theorem heartbeat_timeout (s : Sys) (hb last : Z) (early later : list Z) (t : Z) :
  awaiting hb last s ->
  Forall (λ c, c - hb < MAX_SOCK_TO) early ->
  MAX_SOCK_TO <= t - hb ->
  (exists s1,
     session_loop early s = Ok false s1 /\
     closes (world s1) = closes (world s) /\
     state (self s1) = state (self s)) /\
  (exists s2,
     session_loop (early ++ t :: later) s = Ok true s2 /\
     closes (world s2) = S (closes (world s)) /\
     state (self s2) = DISCONNECTED) /\
  (forall (c : Z) (s0 s' : Sys),
     _server_alive c s0 = Ok false s' ->
     _last_hb_id (self s0) ≠ 0 /\ MAX_SOCK_TO <= c - _hb_time (self s0)) /\
  MAX_SOCK_TO < HB_PERIOD.
Proof.
  intros Haw Hearly Hlate.
  destruct (session_loop_early early hb last s Haw Hearly)
    as (s' & Hloop & Haw' & Hst & Hcl & Hwire).
  split; [|split; [|split]].
  - exists s'. specialize (Hloop []). rewrite app_nil_r in Hloop.
    rewrite Hloop. cbn [session_loop]. msimpl. by rewrite (proj1 Haw').
  - pose proof (awaiting_after_recv hb last s' Haw') as Haw0.
    set (s0 := after_recv NON_BLK_SOCK (tail (rx_script (world s'))) [] s') in *.
    destruct Haw0 as (Hdc0 & Hbuf0 & Hlast0 & Hnz & Hhb0 & Hm0 & Hrx0).
    destruct (check_alive_late t s0) as (s2 & Hrun & Hst2 & Hcl2 & _);
      [lia | congruence | by rewrite Hhb0 |].
    exists s2. rewrite Hloop. cbn [session_loop]. mgoal.
    rewrite (proj1 Haw'), (session_iter_unanswered t hb last s' Haw').
    fold s0. rewrite Hrun. split; [done|]. split; [|done].
    rewrite Hcl2, <- Hcl. subst s0. by mgoal.
  - intros c s0 s1 Hfalse. by apply server_alive_false in Hfalse as (_ & ? & ?).
  - done.
Qed.

(** On the first check of a session the heartbeat is due: a PING goes out
    and is then outstanding. *)
Lemma first_check_sends_ping :
  let r := session_loop [100] (session_client "abc" []) in
  exists s',
    r = Ok false s' /\
    wire (world s') = [header MSG_PING 2 0] /\
    _last_hb_id (self s') = 2 /\ _hb_time (self s') = 100 /\ _m_time (self s') = 100.
Proof. eexists. by vm_compute. Qed.

Lemma heartbeat_timeout_witness :
  let s := final (session_loop [100] (session_client "abc" [])) in
  (exists s1,
     session_loop [100; 101; 104] s = Ok false s1 /\
     closes (world s1) = closes (world s) /\
     state (self s1) = state (self s)) /\
  (exists s2,
     session_loop ([100; 101; 104] ++ 105 :: [106; 120]) s = Ok true s2 /\
     closes (world s2) = S (closes (world s)) /\
     state (self s2) = DISCONNECTED) /\
  (forall (c : Z) (s0 s' : Sys),
     _server_alive c s0 = Ok false s' ->
     _last_hb_id (self s0) ≠ 0 /\ MAX_SOCK_TO <= c - _hb_time (self s0)) /\
  MAX_SOCK_TO < HB_PERIOD.
Proof.
  apply (heartbeat_timeout (final (session_loop [100] (session_client "abc" []))) 100 2).
  - unfold awaiting. repeat split; try reflexivity; try done.
    vm_compute. constructor.
  - repeat constructor.
  - done.
Defined.

(** ** Logging in *)

Lemma wdt_feed_run (s : Sys) :
  wdt_feed s =
    Ok tt {| self := self s;
             world := set_hw_log
                        (hw_log (world s) ++ (if _wdt (self s) then [WdtFeed] else []))
                        (world s) |}.
Proof.
  destruct_sys s. unfold wdt_feed. msimpl. destruct wdt; msimpl; by rewrite ?app_nil_r.
Qed.

(** A login attempt that cannot connect: the socket is closed, the state
    is Disconnected, and no message id is used. *)
Lemma login_iter_fails (cs : list bool) (s : Sys) :
  _do_connect (self s) = true ->
  connect_script (world s) = false :: cs ->
  exists s',
    login_iter s = Ok tt s' /\
    state (self s') = DISCONNECTED /\
    connect_script (world s') = cs /\
    closes (world s') = S (closes (world s)) /\
    same_traffic s s'.
Proof.
  intros Hdc Hcs. destruct_sys s. subst dc cns.
  unfold login_iter, _run_task, wdt_feed, conn_connect, _close. msimpl.
  destruct wdt; msimpl; cbn [head tail default]; msimpl; by eexists.
Qed.

Lemma login_loop_failures (k fuel : nat) (cs : list bool) (s : Sys) :
  _do_connect (self s) = true ->
  state (self s) ≠ AUTHENTICATED ->
  connect_script (world s) = replicate k false ++ cs ->
  exists s',
    login_loop (k + fuel) s = login_loop fuel s' /\
    state (self s') ≠ AUTHENTICATED /\
    connect_script (world s') = cs /\
    closes (world s') = (closes (world s) + k)%nat /\
    same_traffic s s'.
Proof.
  revert s. induction k as [|k IH]; intros s Hdc Hst Hcs.
  - exists s. rewrite Nat.add_0_r. unfold same_traffic. done.
  - cbn [replicate app] in Hcs.
    destruct (login_iter_fails _ s Hdc Hcs) as (s1 & Hrun & Hst1 & Hcs1 & Hcl1 & Htr1).
    destruct (IH s1) as (s' & Hloop & Hst' & Hcs' & Hcl' & Htr');
      [destruct Htr1 as (_ & -> & _); done | by rewrite Hst1 | done |].
    exists s'. split; [|split; [done|split; [done|split]]].
    + cbn [Nat.add login_loop]. mgoal. rewrite decide_False by done.
      by rewrite Hrun.
    + lia.
    + unfold same_traffic in *. destruct_and!. repeat split; congruence.
Qed.

(** A login attempt that connects and gets a success header back. *)
Lemma login_iter_succeeds (cs : list bool) (rsp : bytes) (t id : Z) (rx : list rx_event)
    (s : Sys) :
  _do_connect (self s) = true ->
  _rx_data (self s) = [] ->
  0 <= _msg_id (self s) < 0xFFFF ->
  Z.of_nat (length (_token (self s))) <= 0xFFFF ->
  connect_script (world s) = true :: cs ->
  accepts_next (world s) ->
  rx_script (world s) = RxData rsp :: rx ->
  struct_unpack rsp = Some (t, id, STA_SUCCESS) ->
  id ≠ 0 ->
  exists hdr s',
    login_iter s = Ok tt s' /\
    struct_pack MSG_LOGIN (_msg_id (self s) + 1) (Z.of_nat (length (_token (self s))))
      = Some hdr /\
    state (self s') = AUTHENTICATED /\
    _do_connect (self s') = true /\
    wire (world s') = wire (world s) ++ [hdr ++ _token (self s)] /\
    closes (world s') = closes (world s) /\
    rx_script (world s') = rx.
Proof.
  intros Hdc Hbuf Hid Hlen Hcs Hacc Hrx Hun Hnz.
  pose proof (struct_unpack_length _ _ Hun) as Hlen5.
  destruct_sys s. subst dc rxd cns rxs.
  assert (Hp := struct_pack_in_range MSG_LOGIN (mid + 1) (Z.of_nat (length tok))
                  ltac:(unfold MSG_LOGIN; lia) ltac:(lia) ltac:(lia)).
  do 6 (destruct rsp as [|? rsp]; try done).
  eexists _, _. split.
  {
  unfold login_iter, _run_task, conn_connect, pack_header.
  mgoal. rewrite wdt_feed_run. mgoal. cbn [head tail default from_option Datatypes.id]. mgoal.
  rewrite new_msg_id_run. mgoal. unfold next_id.
  rewrite (proj2 (Z.ltb_ge _ _)) by lia.
  rewrite Hp. mgoal.
  rewrite send_accepted by (mgoal; done || by rewrite orb_true_r). mgoal.
  match goal with
  | |- context [_recv HDR_LEN MAX_SOCK_TO ?s0] =>
      rewrite (recv_data HDR_LEN MAX_SOCK_TO _ rx s0) by done
  end. mgoal.
  cbn [app length]. change (HDR_LEN <=? Z.of_nat 5) with true.
  change (Z.to_nat HDR_LEN) with 5%nat. cbn [take drop]. rewrite Hun. mgoal.
  rewrite bool_decide_false by (by intros []).
  rewrite bool_decide_false by done. cbn [orb]. mgoal.
  reflexivity. }
  split; [exact Hp | mgoal; done].
Qed.


(** C2, as the code has it -- The first LOGIN frame: [run()] sets the
    counter to 1 and [_new_msg_id] adds one before it returns, so after
    any number of failed connection attempts the first LOGIN frame
    carries message id 2; a response header with status 200 and a
    non-zero id then moves the state to Authenticated. *)
Theorem first_login_frame (s : Sys) (k : nat) (cs : list bool) (rsp : bytes) (t id : Z)
    (rx : list rx_event) :
  _do_connect (self s) = true ->
  Z.of_nat (length (_token (self s))) <= 0xFFFF ->
  connect_script (world s) = replicate k false ++ true :: cs ->
  accepts_next (world s) ->
  rx_script (world s) = RxData rsp :: rx ->
  struct_unpack rsp = Some (t, id, STA_SUCCESS) ->
  id ≠ 0 ->
  exists hdr s',
    run (S k) [[]] s = Ok false s' /\
    struct_unpack hdr = Some (MSG_LOGIN, 2, Z.of_nat (length (_token (self s)))) /\
    wire (world s') = wire (world s) ++ [hdr ++ _token (self s)] /\
    state (self s') = AUTHENTICATED /\
    closes (world s') = (closes (world s) + k)%nat.
Proof.
  intros Hdc Hlen Hcs Hacc Hrx Hun Hnz.
  rewrite run_unfold. cbn [run_rounds]. unfold run_round, initialised. mgoal.
  replace (S k) with (k + 1)%nat by lia.
  match goal with
  | |- context [login_loop _ ?s0] =>
      destruct (login_loop_failures k 1 (true :: cs) s0)
        as (s1 & -> & Hst1 & Hcs1 & Hcl1 & Htok & Hdc1 & Hbuf1 & Hid1 & Hwire1 & Htx1 & Hrx1);
        [done..|]
  end.
  mgoal_in Htok; mgoal_in Hdc1; mgoal_in Hbuf1; mgoal_in Hid1; mgoal_in Hwire1;
    mgoal_in Htx1; mgoal_in Hrx1; mgoal_in Hcl1.
  destruct (login_iter_succeeds cs rsp t id rx s1)
    as (hdr & s2 & Hrun & Hpack & Hst2 & Hdc2 & Hwire2 & Hcl2 & _);
    [congruence | done | lia | by rewrite Htok | done
    | by unfold accepts_next in *; rewrite Htx1 | congruence | done | done |].
  exists hdr. cbn [login_loop]. mgoal.
  rewrite decide_False by done. rewrite Hrun, Hst2. mgoal.
  rewrite decide_True by done. mgoal. cbn [session_loop]. mgoal. rewrite Hdc2.
  eexists. split; [reflexivity|]. mgoal.
  rewrite Hid1, Htok in Hpack. split; [by apply struct_unpack_pack|].
  rewrite Hwire2, Hwire1, Htok, Hcl2, Hcl1. done.
Qed.

Lemma first_login_frame_witness :
  let s := client "abc" [false; false; true] [RxData (header MSG_RSP 1 STA_SUCCESS)] in
  exists hdr s',
    run 3 [[]] s = Ok false s' /\
    struct_unpack hdr = Some (MSG_LOGIN, 2, Z.of_nat (length (_token (self s)))) /\
    wire (world s') = wire (world s) ++ [hdr ++ _token (self s)] /\
    state (self s') = AUTHENTICATED /\
    closes (world s') = (closes (world s) + 2)%nat.
Proof.
  apply (first_login_frame
           (client "abc" [false; false; true] [RxData (header MSG_RSP 1 STA_SUCCESS)])
           2 [] (header MSG_RSP 1 STA_SUCCESS) MSG_RSP 1 []).
  - reflexivity.
  - vm_compute. discriminate.
  - reflexivity.
  - exact I.
  - reflexivity.
  - reflexivity.
  - discriminate.
Defined.

(** C2, as first stated, fails: in the scenario of the specification
    (two failed connection attempts, then the login with token "abc" and
    the response RSP, id 1, status 200) the first id the client generates
    is 2, and the LOGIN frame it sends carries id 2, not 1. *)
Lemma first_login_id_is_not_1 :
  let s := client "abc" [false; false; true] [RxData (header MSG_RSP 1 STA_SUCCESS)] in
  let r := run 3 [[]] s in
  (exists s', (run_init;; _new_msg_id) s = Ok 2 s') /\
  wire (world (final r)) = [header MSG_LOGIN 2 3 ++ B "abc"] /\
  (struct_unpack <$> (take 5 <$> head (wire (world (final r)))))
    = Some (Some (MSG_LOGIN, 2, 3)) /\
  (struct_unpack <$> (take 5 <$> head (wire (world (final r)))))
    ≠ Some (Some (MSG_LOGIN, 1, 3)) /\
  state (self (final r)) = AUTHENTICATED.
Proof.
  split; [eexists; by vm_compute|].
  split; [by vm_compute|]. split; [by vm_compute|]. split; [by vm_compute|].
  by vm_compute.
Qed.

(** ** The receive buffer and a payload that comes in two pieces *)

(** A header that comes in two pieces is put together over two
    iterations: the first two bytes wait in the buffer, and when the rest
    is there the PING is answered. *)
Lemma split_header_is_retried :
  let ping := header MSG_PING 7 0 in
  let s := session_client "abc" [RxData (take 2 ping); RxData (drop 2 ping)] in
  let r1 := session_loop [100] s in
  let r2 := session_loop [100; 100] s in
  _rx_data (self (final r1)) = take 2 ping /\
  wire (world (final r2)) = [header MSG_PING 2 0; header MSG_RSP 7 STA_SUCCESS] /\
  closes (world (final r2)) = 0%nat /\
  state (self (final r2)) = AUTHENTICATED.
Proof. by vm_compute. Qed.

(** C7, on the code -- The payload of a HW frame that comes in two
    pieces is not put together.  The frame [pm 4 out] (header: HW, id 1,
    length 8) arrives with its payload cut after four bytes.  The first
    piece stays in the buffer, but on the next iteration the loop reads
    five bytes as a new header from the buffer, finds the unknown type
    112 (the letter p) and closes the connection; pin 4 is never
    registered and the gate stays closed.  With the payload in one piece
    the same frame is handled. *)
Theorem split_payload_is_lost :
  let body := payload ["pm"; "4"; "out"] in
  let whole := session_client "abc" [RxData (header MSG_HW 1 8); RxData body] in
  let split :=
    session_client "abc"
      [RxData (header MSG_HW 1 8); RxData (take 4 body); RxData (drop 4 body)] in
  let r1 := session_loop [100] split in
  let r2 := session_loop [100; 100; 100] split in
  (* in one piece: handled *)
  _pins_configured (self (final (session_loop [100; 100; 100] whole))) = true /\
  _hw_pins (self (final (session_loop [100; 100; 100] whole))) !! 4 = Some (fresh_pin 4 "out") /\
  closes (world (final (session_loop [100; 100; 100] whole))) = 0%nat /\
  (* in two pieces: the first piece is kept ... *)
  _rx_data (self (final r1)) = take 4 body /\
  _pins_configured (self (final r1)) = false /\
  (* ... but then read as a header, and the connection is closed *)
  (exists s', r2 = Ok true s') /\
  struct_unpack (take 5 body) = Some (112, 27904, 13312) /\
  closes (world (final r2)) = 1%nat /\
  state (self (final r2)) = DISCONNECTED /\
  _pins_configured (self (final r2)) = false /\
  _hw_pins (self (final r2)) !! 4 = None.
Proof.
  repeat split; try (by vm_compute). eexists. by vm_compute.
Qed.

(** * The rest of the client *)

(** ** The dispatcher: commands it does not act on, and malformed ones *)

(** X1 -- A command token that is none of pm, vw, vr, dw, aw, dr, ar
    ([info] among them) is accepted and ignored, with the gate open or
    closed: the client and the world stay exactly as they were. *)
Theorem handle_hw_other_command (data : bytes) (cmd : string) (params : list string)
    (s : Sys) :
  mapM decode_ascii (split_nul data) = Some (cmd :: params) ->
  cmd ∉ acting_cmds ->
  _handle_hw data s = Ok tt s.
Proof.
  intros Hdec Hcmd. unfold _handle_hw, decode_params. rewrite Hdec. msimpl.
  unfold acting_cmds in Hcmd. rewrite !not_elem_of_cons in Hcmd.
  destruct Hcmd as (? & ? & ? & ? & ? & ? & ? & _).
  case_decide; [done|]. repeat (case_decide; [done|]). msimpl.
  destruct (_pins_configured (self s)); [|done].
  by repeat (case_decide; [done|]).
Qed.

Lemma handle_hw_other_command_witness :
  let s := session_client "abc" [] in
  _handle_hw (payload ["info"; "ver"; "0.1"]) s = Ok tt s /\
  _handle_hw (payload ["xx"; "1"]) s = Ok tt s.
Proof.
  split.
  - apply (handle_hw_other_command _ "info" ["ver"; "0.1"]%string); [reflexivity|].
    unfold acting_cmds. rewrite !not_elem_of_cons. repeat split; try done.
    apply not_elem_of_nil.
  - apply (handle_hw_other_command _ "xx" ["1"]%string); [reflexivity|].
    unfold acting_cmds. rewrite !not_elem_of_cons. repeat split; try done.
    apply not_elem_of_nil.
Defined.

Lemma split_nul_nonempty (data : bytes) : split_nul data ≠ [].
Proof. destruct data as [|c rest]; cbn; [done|]. by repeat case_match. Qed.

Lemma is_ascii_NUL (c : ascii) : Ascii.eqb c NUL = true -> is_ascii c = true.
Proof. intros H. apply Ascii.eqb_eq in H. by subst c. Qed.

Lemma decode_ascii_is_Some (field : bytes) :
  is_Some (decode_ascii field) <-> forallb is_ascii field = true.
Proof.
  unfold decode_ascii. destruct (forallb is_ascii field); split; done.
Qed.

(** The fields of a payload are ASCII when the payload is, and only then. *)
Lemma split_nul_ascii (data : bytes) :
  Forall (λ field, forallb is_ascii field = true) (split_nul data)
  <-> forallb is_ascii data = true.
Proof.
  induction data as [|c rest IH]; cbn [split_nul forallb].
  - split; [done|]. intros _. by constructor.
  - destruct (Ascii.eqb c NUL) eqn:Hc.
    + rewrite (is_ascii_NUL c Hc), Forall_cons, IH. cbn. tauto.
    + pose proof (split_nul_nonempty rest) as Hne.
      destruct (split_nul rest) as [|f fs]; [done|].
      rewrite Forall_cons in IH. rewrite Forall_cons. cbn [forallb].
      rewrite !andb_true_iff, <- IH. tauto.
Qed.

(** The tokens of a payload decode when all its bytes are ASCII, and only
    then. *)
Lemma decode_params_ascii (data : bytes) :
  forallb is_ascii data = true <-> is_Some (mapM decode_ascii (split_nul data)).
Proof.
  rewrite mapM_is_Some, <- split_nul_ascii.
  apply Forall_iff. intros field. symmetry. apply decode_ascii_is_Some.
Qed.

(** X2 -- A payload with a byte above 127 anywhere is not decoded:
    [_handle_hw] raises the decoding error before it looks at the command,
    and nothing has changed. *)
Theorem handle_hw_non_ascii (data : bytes) (s : Sys) :
  forallb is_ascii data = false ->
  _handle_hw data s = Raise UnicodeError s.
Proof.
  intros Hbad. unfold _handle_hw, decode_params.
  destruct (mapM decode_ascii (split_nul data)) as [toks|] eqn:Hdec; [|done].
  assert (forallb is_ascii data = true) by (apply decode_params_ascii; by eexists).
  congruence.
Qed.

Lemma handle_hw_non_ascii_witness :
  let s := session_client "abc" [] in
  _handle_hw (B "dw" ++ [NUL] ++ [byte_of 200]) s = Raise UnicodeError s.
Proof. apply handle_hw_non_ascii. reflexivity. Defined.

(** ** Virtual pins *)

Lemma logged_nil (s : Sys) : logged [] s = s.
Proof. destruct_sys s. unfold logged. msimpl. by rewrite app_nil_r. Qed.

Lemma vr_write_each_run (pin : Z) (params : list string) (s : Sys) :
  vr_write_each pin params s = Ok tt (logged (VrWrite pin <$> params) s).
Proof.
  revert s. induction params as [|param params IH]; intros s; cbn [vr_write_each].
  - by rewrite logged_nil.
  - mgoal. rewrite IH. destruct_sys s. unfold logged. msimpl.
    cbn [fmap list_fmap]. by rewrite <- app_assoc.
Qed.

(** X3 -- Virtual write: a [vw] command calls the write callback of its
    pin once for each token after the pin, in order, and does nothing else;
    for a pin that is not registered, or registered without a write
    callback, it does nothing at all. *)
Theorem handle_hw_vw (data : bytes) (tp : string) (params : list string) (pin : Z)
    (s : Sys) :
  mapM decode_ascii (split_nul data) = Some ("vw" :: tp :: params)%string ->
  py_int tp = Some pin ->
  _handle_hw data s = Ok tt (logged (vw_calls (_vr_pins (self s)) pin params) s).
Proof.
  intros Hdec Hpin. unfold _handle_hw, decode_params. rewrite Hdec. mgoal.
  repeat (case_decide; [done|]). rewrite decide_True by done.
  unfold pop_int. rewrite Hpin. mgoal. unfold vw_calls.
  destruct (_vr_pins (self s) !! pin) as [v|]; [|by rewrite logged_nil].
  destruct (write v); [apply vr_write_each_run | by rewrite logged_nil].
Qed.

Lemma handle_hw_vw_witness :
  let s := final (add_virtual_pin (PyInt 3) false true (session_client "abc" [])) in
  _handle_hw (payload ["vw"; "3"; "9"]) s = Ok tt (logged [VrWrite 3 "9"] s) /\
  _handle_hw (payload ["vw"; "4"; "9"]) s = Ok tt (logged [] s).
Proof.
  split.
  - apply (handle_hw_vw _ "3" ["9"]%string 3); reflexivity.
  - apply (handle_hw_vw _ "4" ["9"]%string 4); reflexivity.
Defined.

(** X4 -- Virtual read: a [vr] command calls the read callback of its pin
    once, with no argument, when there is one, and does nothing
    otherwise; tokens after the pin are ignored. *)
Theorem handle_hw_vr (data : bytes) (tp : string) (params : list string) (pin : Z)
    (s : Sys) :
  mapM decode_ascii (split_nul data) = Some ("vr" :: tp :: params)%string ->
  py_int tp = Some pin ->
  _handle_hw data s = Ok tt (logged (vr_calls (_vr_pins (self s)) pin) s).
Proof.
  intros Hdec Hpin. unfold _handle_hw, decode_params. rewrite Hdec. mgoal.
  repeat (case_decide; [done|]). rewrite decide_True by done.
  unfold pop_int. rewrite Hpin. mgoal. unfold vr_calls.
  destruct (_vr_pins (self s) !! pin) as [v|]; [|by rewrite logged_nil].
  destruct (read v); [done | by rewrite logged_nil].
Qed.

Lemma handle_hw_vr_witness :
  let s := final (add_virtual_pin (PyInt 3) true false (session_client "abc" [])) in
  _handle_hw (payload ["vr"; "3"]) s = Ok tt (logged [VrRead 3] s).
Proof. apply (handle_hw_vr _ "3" []%string 3); reflexivity. Defined.

(** X5 -- Registering a virtual pin: [add_virtual_pin] takes an [int] from
    0 to 31 and nothing else.  For such a pin the registry then holds the
    given callbacks under it and every other entry is as before; for any
    other argument ValueError is raised and nothing has changed. *)
Theorem add_virtual_pin_range (pin : py_value) (rd wr : bool) (s : Sys) :
  match pin with
  | PyInt p =>
      if decide (0 <= p < MAX_VIRTUAL_PINS) then
        exists s',
          add_virtual_pin pin rd wr s = Ok tt s' /\
          _vr_pins (self s') !! p = Some (Build_VrPin rd wr) /\
          (forall q, q ≠ p -> _vr_pins (self s') !! q = _vr_pins (self s) !! q) /\
          world s' = world s
      else add_virtual_pin pin rd wr s = Raise ValueError s
  | PyStr _ => add_virtual_pin pin rd wr s = Raise ValueError s
  end.
Proof.
  destruct pin as [str|p]; [done|]. unfold add_virtual_pin.
  case_decide as Hp.
  - rewrite (proj2 (Z.leb_le 0 p)), (proj2 (Z.ltb_lt p _)) by lia. cbn [andb].
    eexists. split; [reflexivity|]. unfold set_vr_pins. mgoal.
    split; [apply lookup_insert_eq|]. split; [|done].
    intros q Hq. by rewrite lookup_insert_ne.
  - destruct (Z.leb_spec 0 p), (Z.ltb_spec p MAX_VIRTUAL_PINS); cbn [andb]; try done. lia.
Qed.

(** ** The dispatcher: commands that name no pin, or a pin that is not there *)

(** X6 -- A [vw] or [vr] command, and with the gate open a [dw], [aw],
    [dr] or [ar] command, needs its pin token: without any token after the
    command IndexError is raised, with a first token that is no integer
    ValueError; in both cases nothing has changed. *)
Theorem handle_hw_pin_token (data : bytes) (cmd : string) (params : list string) (s : Sys) :
  mapM decode_ascii (split_nul data) = Some (cmd :: params) ->
  cmd ∈ virtual_cmds \/ (cmd ∈ gated_cmds /\ _pins_configured (self s) = true) ->
  (params = [] -> _handle_hw data s = Raise IndexError s) /\
  (forall tp rest, params = tp :: rest -> py_int tp = None ->
     _handle_hw data s = Raise ValueError s).
Proof.
  intros Hdec Hcmd. unfold _handle_hw, decode_params. rewrite Hdec. mgoal.
  unfold virtual_cmds, gated_cmds in Hcmd. rewrite !elem_of_cons, !elem_of_nil in Hcmd.
  destruct Hcmd as [[->|[->|[]]] | [[->|[->|[->|[->|[]]]]] Hgate]];
    repeat (case_decide; [done|]); mgoal; rewrite ?Hgate;
    try (rewrite decide_True by done); repeat (case_decide; [done|]);
    (split; [intros -> | intros tp rest -> Hnone; unfold pop_int; rewrite Hnone]); done.
Qed.

Lemma handle_hw_pin_token_witness :
  let s := session_client "abc" [] in
  (@nil string = [] -> _handle_hw (payload ["vw"]) s = Raise IndexError s) /\
  (forall tp rest, @nil string = tp :: rest -> py_int tp = None ->
     _handle_hw (payload ["vw"]) s = Raise ValueError s).
Proof.
  apply (handle_hw_pin_token _ "vw" []); [reflexivity|].
  left. unfold virtual_cmds. apply elem_of_cons. by left.
Defined.

(** X7 -- With the gate open, a hardware command for a pin that no [pm]
    command has registered raises KeyError, and nothing has changed: the
    pin is not made on the fly. *)
Theorem handle_hw_unregistered_pin (data : bytes) (cmd tp : string) (rest : list string)
    (pin : Z) (s : Sys) :
  mapM decode_ascii (split_nul data) = Some (cmd :: tp :: rest) ->
  cmd ∈ gated_cmds ->
  (cmd = "dw" \/ cmd = "aw" -> exists tv rest', rest = tv :: rest' /\ is_Some (py_int tv)) ->
  py_int tp = Some pin ->
  _pins_configured (self s) = true ->
  _hw_pins (self s) !! pin = None ->
  _handle_hw data s = Raise KeyError s.
Proof.
  intros Hdec Hcmd Hval Hpin Hgate Hnone.
  unfold _handle_hw, decode_params. rewrite Hdec. mgoal.
  unfold gated_cmds in Hcmd. rewrite !elem_of_cons, !elem_of_nil in Hcmd.
  destruct Hcmd as [->|[->|[->|[->|[]]]]];
    repeat (case_decide; [done|]); mgoal; rewrite Hgate;
    try (rewrite decide_True by done); repeat (case_decide; [done|]);
    unfold pop_int; rewrite Hpin; mgoal.
  - destruct Hval as (tv & rest' & -> & [v Hv]); [by left|].
    rewrite Hv. mgoal. unfold hw_pin. mgoal. by rewrite Hnone.
  - destruct Hval as (tv & rest' & -> & [v Hv]); [by right|].
    rewrite Hv. mgoal. unfold hw_pin. mgoal. by rewrite Hnone.
  - unfold hw_pin. mgoal. by rewrite Hnone.
  - unfold hw_pin. mgoal. by rewrite Hnone.
Qed.

(** A [pm] command without any pair opens the gate and registers nothing,
    so that the [dw] that follows finds no pin. *)
Lemma handle_hw_unregistered_pin_witness :
  let s := final (_handle_hw (payload ["pm"]) (session_client "abc" [])) in
  _handle_hw (payload ["dw"; "5"; "1"]) s = Raise KeyError s.
Proof.
  apply (handle_hw_unregistered_pin _ "dw" "5" ["1"]%string 5).
  - reflexivity.
  - unfold gated_cmds. apply elem_of_cons. by left.
  - intros _. exists "1"%string, []. split; [done|]. by exists 1.
  - reflexivity.
  - reflexivity.
  - reflexivity.
Defined.

(** ** The send path under back-pressure *)

Lemma send_attempts_again (k n : nat) (data : bytes) (rest : list tx_event) (s : Sys) :
  (k <= n)%nat ->
  tx_script (world s) = replicate k (TxError EAGAIN) ++ rest ->
  send_attempts n data s =
    send_attempts (n - k) data {| self := self s; world := set_tx_script rest (world s) |}.
Proof.
  revert n s. induction k as [|k IH]; intros n s Hk Hscript.
  - cbn [replicate app] in Hscript. rewrite Nat.sub_0_r.
    destruct_sys s. cbn in Hscript. by subst txs.
  - destruct n as [|n]; [lia|]. cbn [replicate app] in Hscript.
    destruct_sys s. cbn in Hscript. subst txs.
    cbn [send_attempts Nat.sub]. unfold conn_send. mgoal.
    change (EAGAIN =? EAGAIN) with true. cbn match.
    rewrite (IH n); [by mgoal | lia | done].
Qed.

(** X8 -- [_send] under back-pressure: a send that the limiter lets
    through is tried at most four times.  After up to three EAGAIN
    refusals it goes on the wire once and is counted once; an error other
    than EAGAIN at that point is raised, with nothing sent or counted;
    after four EAGAIN refusals the frame is given up without an error,
    and nothing is sent or counted. *)
Theorem send_retries (data : bytes) (send_anyway : bool) (k : nat) (rest : list tx_event)
    (s : Sys) :
  may_send send_anyway s ->
  tx_script (world s) = replicate k (TxError EAGAIN) ++ rest ->
  ((k <= 3)%nat ->
   match rest with
   | TxError errno :: rest' =>
       errno ≠ EAGAIN ->
       exists s', _send data send_anyway s = Raise (OSError errno) s' /\
                  wire (world s') = wire (world s) /\ self s' = self s /\
                  tx_script (world s') = rest'
   | _ =>
       exists s', _send data send_anyway s = Ok tt s' /\
                  wire (world s') = wire (world s) ++ [data] /\
                  _tx_count (self s') = _tx_count (self s) + 1 /\
                  tx_script (world s') = tail rest
   end) /\
  ((4 <= k)%nat ->
   exists s', _send data send_anyway s = Ok tt s' /\
              wire (world s') = wire (world s) /\ self s' = self s /\
              tx_script (world s') = replicate (k - 4) (TxError EAGAIN) ++ rest).
Proof.
  unfold may_send. intros Hgo Hscript. unfold _send. mgoal. rewrite Hgo.
  change (Z.to_nat (MAX_TX_RETRIES + 1)) with 4%nat. split.
  - intros Hk. rewrite (send_attempts_again k 4 data rest s) by (lia || done).
    destruct (4 - k)%nat as [|n] eqn:Hn; [lia|]. cbn [send_attempts].
    unfold conn_send. mgoal.
    destruct rest as [|[|errno] rest']; mgoal.
    + by eexists.
    + by eexists.
    + intros Hne. rewrite (proj2 (Z.eqb_neq _ _)) by done. by eexists.
  - intros Hk.
    replace k with (4 + (k - 4))%nat in Hscript by lia.
    rewrite replicate_add, <- app_assoc in Hscript.
    rewrite (send_attempts_again 4 4 data _ s (Nat.le_refl 4) Hscript).
    cbn [Nat.sub send_attempts]. mgoal. by eexists.
Qed.

Lemma send_retries_witness :
  let s := {| self := set_tx_count 25 (set_state AUTHENTICATED (Blynk_init (B "abc") true false));
              world := set_tx_script [TxError EAGAIN; TxError EAGAIN; TxOk] quiet_world |} in
  ((2 <= 3)%nat ->
   exists s', _send (B "ping") true s = Ok tt s' /\
              wire (world s') = wire (world s) ++ [B "ping"] /\
              _tx_count (self s') = _tx_count (self s) + 1 /\
              tx_script (world s') = tail [TxOk]) /\
  ((4 <= 2)%nat ->
   exists s', _send (B "ping") true s = Ok tt s' /\
              wire (world s') = wire (world s) /\ self s' = self s /\
              tx_script (world s') = replicate (2 - 4) (TxError EAGAIN) ++ [TxOk]).
Proof.
  apply (send_retries (B "ping") true 2 [TxOk]); reflexivity.
Defined.

(** ** The receive buffer keeps every byte *)

Lemma settimeout_run (timeout : Z) (s : Sys) :
  exists tmo' sto',
    _settimeout timeout s =
      Ok tt {| self := set_timeout tmo' (self s); world := set_sock_timeout sto' (world s) |}.
Proof.
  destruct_sys s. unfold _settimeout. mgoal. case_decide; mgoal; by eexists _, _.
Qed.

(** X9 -- [_recv] neither loses, repeats nor reorders a byte: what it
    returns, followed by the receive buffer and by what the socket still
    holds, is the buffer and the socket's bytes from before the call.  It
    returns either nothing or exactly [length] bytes.  When it raises, the
    bytes are where they were. *)
Theorem recv_conserves (len timeout : Z) (s : Sys) :
  0 <= len ->
  match _recv len timeout s with
  | Ok data s' =>
      data ++ unread s' = unread s /\
      (data = [] \/ Z.of_nat (length data) = len)
  | Raise e s' => unread s' = unread s
  end.
Proof.
  intros Hlen. unfold _recv. mgoal.
  destruct (settimeout_run timeout s) as (tmo' & sto' & ->).
  destruct_sys s. unfold unread, conn_recv. mgoal.
  destruct rxs as [|[chunk| |errno] rxs]; mgoal; cbn [pending].
  - split; [done | by left].
  - pose proof (take_drop (Z.to_nat len) chunk) as Hchunk.
    remember (take (Z.to_nat len) chunk) as tk eqn:Htk.
    remember (drop (Z.to_nat len) chunk) as dr eqn:Hdr.
    assert (Hrest : pending match dr with
                            | [] => rxs
                            | a :: l => RxData (a :: l) :: rxs
                            end = dr ++ pending rxs).
    { by destruct dr. }
    rewrite <- Hchunk.
    destruct (Z.leb_spec len (Z.of_nat (length (rxd ++ tk)))) as [Hge|Hlt];
      mgoal; rewrite Hrest.
    + split.
      * rewrite !app_assoc, take_drop. by rewrite <- !app_assoc.
      * right. rewrite length_take. lia.
    + split; [|by left]. cbn [app]. by rewrite <- !app_assoc.
  - split; [done | by left].
  - destruct (errno =? EAGAIN); mgoal; [|done]. split; [done | by left].
Qed.

Lemma recv_conserves_witness :
  let s := session_client "abc" [RxData (B "abcdefg"); RxTimeout; RxData (B "hij")] in
  match _recv 5 0 s with
  | Ok data s' =>
      data ++ unread s' = unread s /\
      (data = [] \/ Z.of_nat (length data) = 5)
  | Raise e s' => unread s' = unread s
  end.
Proof. apply (recv_conserves 5 0). lia. Defined.

(** ** The frames of a session *)

Lemma struct_unpack_range (hdr : bytes) (t id len : Z) :
  struct_unpack hdr = Some (t, id, len) ->
  0 <= t <= 0xFF /\ 0 <= id <= 0xFFFF /\ 0 <= len <= 0xFFFF.
Proof.
  do 6 (destruct hdr as [|? hdr]; try done). intros [= <- <- <-].
  repeat match goal with |- context [byte_val ?c] =>
    lazymatch goal with
    | _ : 0 <= byte_val c < 256 |- _ => fail
    | _ => pose proof (byte_val_range c)
    end end.
  lia.
Qed.

Lemma header_is_packed (t id len : Z) :
  0 <= t <= 0xFF -> 0 <= id <= 0xFFFF -> 0 <= len <= 0xFFFF ->
  struct_pack t id len = Some (header t id len).
Proof.
  intros Ht Hid Hlen. unfold header. by rewrite struct_pack_in_range.
Qed.

(** The header read of an iteration, when the header is there in one
    piece. *)
Lemma recv_header (hdr : bytes) (t id len : Z) (rx : list rx_event) (s : Sys) :
  next_header hdr t id len rx s ->
  _recv HDR_LEN NON_BLK_SOCK s = Ok hdr (after_recv NON_BLK_SOCK rx [] s) /\ hdr ≠ [].
Proof.
  intros (_ & Hbuf & Hrx & Hun).
  pose proof (struct_unpack_length _ _ Hun) as Hlen5.
  rewrite (recv_data HDR_LEN NON_BLK_SOCK hdr rx s) by (done || (rewrite Hlen5; done)).
  rewrite Hbuf. cbn [app].
  do 6 (destruct hdr as [|? hdr]; try done).
Qed.

(** X10 -- A header with message id 0, or with a type that is none of
    RSP, PING, HW and BRIDGE, ends the session at once: the connection is
    closed, nothing is sent in reply, the liveness check of that iteration
    is not run and the rest of what the server sent stays unread. *)
Theorem invalid_frame_ends_session (hdr : bytes) (t id len c_time : Z) (ticks : list Z)
    (rx : list rx_event) (s : Sys) :
  next_header hdr t id len rx s ->
  id = 0 \/ t ∉ known_types ->
  exists s',
    session_loop (c_time :: ticks) s = Ok true s' /\
    state (self s') = DISCONNECTED /\
    closes (world s') = S (closes (world s)) /\
    wire (world s') = wire (world s) /\
    rx_script (world s') = rx /\
    _m_time (self s') = _m_time (self s) /\
    hw_log (world s') = hw_log (world s).
Proof.
  intros Hnext Hbad. destruct (recv_header _ _ _ _ _ _ Hnext) as [Hrecv Hne].
  destruct Hnext as (Hdc & Hbuf & Hrx & Hun).
  cbn [session_loop]. unfold session_iter. mgoal. rewrite Hdc, Hrecv.
  destruct hdr as [|c0 hdr]; [done|]. rewrite Hun. mgoal.
  assert (Hclose : forall s0, _close s0 =
            Ok tt {| self := set_state DISCONNECTED (self s0);
                     world := set_closes (S (closes (world s0))) (world s0) |}).
  { intros s0. by destruct_sys s0. }
  destruct Hbad as [->|Hty].
  - rewrite decide_True by done. rewrite Hclose. mgoal. by eexists.
  - unfold known_types in Hty. rewrite !not_elem_of_cons in Hty.
    destruct Hty as (? & ? & ? & ? & _).
    destruct (decide (id = 0)); [rewrite Hclose; mgoal; by eexists|].
    repeat (rewrite decide_False by tauto). rewrite Hclose. mgoal. by eexists.
Qed.

Lemma invalid_frame_ends_session_witness :
  let s := session_client "abc" [RxData (header 33 7 0); RxData (header MSG_PING 8 0)] in
  exists s',
    session_loop [100; 101] s = Ok true s' /\
    state (self s') = DISCONNECTED /\
    closes (world s') = S (closes (world s)) /\
    wire (world s') = wire (world s) /\
    rx_script (world s') = [RxData (header MSG_PING 8 0)] /\
    _m_time (self s') = _m_time (self s) /\
    hw_log (world s') = hw_log (world s).
Proof.
  apply (invalid_frame_ends_session (header 33 7 0) 33 7 0 100 [101]
           [RxData (header MSG_PING 8 0)]).
  - by repeat split.
  - right. unfold known_types. rewrite !not_elem_of_cons. repeat split; try done.
    apply not_elem_of_nil.
Defined.

(** X11 -- A PING from the server is answered in the same iteration with
    an RSP header that carries the server's id and the status 200.  The
    answer is a priority send: it goes out whatever the send counter
    says, and it is counted.  The liveness check of the iteration
    follows. *)
Theorem server_ping_answered (hdr : bytes) (id len c_time : Z) (rx : list rx_event)
    (s : Sys) :
  next_header hdr MSG_PING id len rx s ->
  id ≠ 0 ->
  accepts_next (world s) ->
  exists s1,
    session_iter c_time s = check_alive c_time s1 /\
    wire (world s1) = wire (world s) ++ [header MSG_RSP id STA_SUCCESS] /\
    _tx_count (self s1) = _tx_count (self s) + 1 /\
    rx_script (world s1) = rx /\
    state (self s1) = state (self s) /\
    closes (world s1) = closes (world s) /\
    _last_hb_id (self s1) = _last_hb_id (self s) /\
    _hb_time (self s1) = _hb_time (self s) /\
    _m_time (self s1) = _m_time (self s).
Proof.
  intros Hnext Hid Hacc. destruct (recv_header _ _ _ _ _ _ Hnext) as [Hrecv Hne].
  destruct Hnext as (Hdc & Hbuf & Hrx & Hun).
  destruct (struct_unpack_range _ _ _ _ Hun) as (_ & Hidr & _).
  unfold session_iter. fold (check_alive c_time). mgoal. rewrite Hrecv.
  destruct hdr as [|c0 hdr]; [done|]. rewrite Hun. mgoal.
  rewrite decide_False by done. rewrite decide_False by done.
  rewrite decide_True by done. unfold pack_header.
  rewrite (header_is_packed MSG_RSP id STA_SUCCESS) by done. mgoal.
  rewrite send_accepted by (done || by rewrite orb_true_r).
  mgoal. by eexists.
Qed.

Lemma server_ping_answered_witness :
  let s := {| self := set_tx_count 20 (set_state AUTHENTICATED (Blynk_init (B "abc") true false));
              world := set_rx_script [RxData (header MSG_PING 8 0)] quiet_world |} in
  exists s1,
    session_iter 100 s = check_alive 100 s1 /\
    wire (world s1) = wire (world s) ++ [header MSG_RSP 8 STA_SUCCESS] /\
    _tx_count (self s1) = _tx_count (self s) + 1 /\
    rx_script (world s1) = [] /\
    state (self s1) = state (self s) /\
    closes (world s1) = closes (world s) /\
    _last_hb_id (self s1) = _last_hb_id (self s) /\
    _hb_time (self s1) = _hb_time (self s) /\
    _m_time (self s1) = _m_time (self s).
Proof.
  apply (server_ping_answered (header MSG_PING 8 0) 8 0 100 []); [by repeat split|done|done].
Defined.

(** X12 -- An RSP header settles the outstanding heartbeat when it
    carries the heartbeat's id, and only then: [_last_hb_id] becomes 0 for
    a match and stays for any other id.  Nothing is sent, and the status
    field of the header is not looked at.  The liveness check of the
    iteration follows. *)
Theorem rsp_settles_heartbeat (hdr : bytes) (id status c_time : Z) (rx : list rx_event)
    (s : Sys) :
  next_header hdr MSG_RSP id status rx s ->
  id ≠ 0 ->
  exists s1,
    session_iter c_time s = check_alive c_time s1 /\
    _last_hb_id (self s1) = (if decide (id = _last_hb_id (self s)) then 0
                             else _last_hb_id (self s)) /\
    wire (world s1) = wire (world s) /\
    _tx_count (self s1) = _tx_count (self s) /\
    rx_script (world s1) = rx /\
    state (self s1) = state (self s) /\
    closes (world s1) = closes (world s) /\
    _hb_time (self s1) = _hb_time (self s) /\
    _m_time (self s1) = _m_time (self s).
Proof.
  intros Hnext Hid. destruct (recv_header _ _ _ _ _ _ Hnext) as [Hrecv Hne].
  destruct Hnext as (Hdc & Hbuf & Hrx & Hun).
  unfold session_iter. fold (check_alive c_time). mgoal. rewrite Hrecv.
  destruct hdr as [|c0 hdr]; [done|]. rewrite Hun. mgoal.
  rewrite decide_False by done. rewrite decide_True by done. mgoal.
  destruct (decide (id = _last_hb_id (self s))); mgoal; by eexists.
Qed.

Lemma rsp_settles_heartbeat_witness :
  let s := {| self := set_last_hb_id 8 (set_state AUTHENTICATED
                                          (Blynk_init (B "abc") true false));
              world := set_rx_script [RxData (header MSG_RSP 8 9)] quiet_world |} in
  exists s1,
    session_iter 100 s = check_alive 100 s1 /\
    _last_hb_id (self s1) = (if decide (8 = _last_hb_id (self s)) then 0
                             else _last_hb_id (self s)) /\
    wire (world s1) = wire (world s) /\
    _tx_count (self s1) = _tx_count (self s) /\
    rx_script (world s1) = [] /\
    state (self s1) = state (self s) /\
    closes (world s1) = closes (world s) /\
    _hb_time (self s1) = _hb_time (self s) /\
    _m_time (self s1) = _m_time (self s).
Proof.
  apply (rsp_settles_heartbeat (header MSG_RSP 8 9) 8 9 100 []); [by repeat split|done].
Defined.

(** ** The liveness check and the heartbeat *)

Lemma send_attempts_self (k : nat) (data : bytes) (s : Sys) :
  exists n, self (final (send_attempts k data s)) = set_tx_count n (self s).
Proof.
  revert s. induction k as [|k IH]; intros s.
  - exists (_tx_count (self s)). by destruct_sys s.
  - cbn [send_attempts]. unfold conn_send. mgoal.
    destruct (tx_script (world s)) as [|[|errno] rest]; mgoal.
    + by eexists.
    + by eexists.
    + destruct (errno =? EAGAIN); mgoal.
      * destruct (IH {| self := self s;
                        world := set_tx_script rest (world s) |}) as [n Hn].
        exists n. mgoal_in Hn. exact Hn.
      * exists (_tx_count (self s)). by destruct_sys s.
Qed.

(** Whatever comes of it, [_send] touches nothing of the client but the
    send counter. *)
Lemma send_self (data : bytes) (send_anyway : bool) (s : Sys) :
  exists n, self (final (_send data send_anyway s)) = set_tx_count n (self s).
Proof.
  unfold _send. mgoal. destruct (_ || _).
  - apply send_attempts_self.
  - exists (_tx_count (self s)). by destruct_sys s.
Qed.

Lemma server_alive_m_time (c_time : Z) (s : Sys) :
  _m_time (self (final (_server_alive c_time s))) = c_time.
Proof.
  unfold _server_alive, wdt_feed. mgoal.
  destruct (decide (_m_time (self s) ≠ c_time)) as [Hnew|Hsame]; mgoal.
  - destruct (_wdt (self s)); mgoal.
    all: destruct (_ && _); mgoal; [done|].
    all: destruct (_ && _); mgoal; [|done].
    all: rewrite new_msg_id_run; mgoal; unfold pack_header.
    all: destruct (struct_pack _ _ _) as [hdr|]; mgoal; [|done].
    all: match goal with |- context [_send ?d ?f ?s0] =>
           destruct (send_self d f s0) as [n Hn]; destruct (_send d f s0) end.
    all: cbn [final] in *; mgoal_in Hn; by rewrite Hn.
  - by apply dec_stable in Hsame.
Qed.

(** X13 -- The liveness check does its work once a second.  Whatever a
    call of [_server_alive] has come to (alive, dead, or an error of the
    heartbeat send), a further call within the same second returns True
    and changes nothing: no counter reset, no feed of the watchdog, no
    heartbeat, and a dead server is not reported a second time. *)
Theorem server_alive_once_a_second (c_time : Z) (s : Sys) :
  let s' := final (_server_alive c_time s) in
  _server_alive c_time s' = Ok true s'.
Proof.
  intros s'. pose proof (server_alive_m_time c_time s) as Hm. fold s' in Hm.
  clearbody s'. unfold _server_alive. mgoal. rewrite Hm.
  by rewrite decide_False by (intros H; by apply H).
Qed.

(** X14 -- The heartbeat: on a new second, and unless the server has timed
    out, the check resets the send counter and returns True.  It sends a
    PING header under a fresh message id, as a priority send, exactly when
    the last heartbeat is at least HB_PERIOD seconds old and the state is
    AUTHENTICATED; it then remembers the id and the second.  No
    heartbeat is sent while an earlier one is outstanding. *)
Theorem heartbeat_sent (c_time : Z) (s : Sys) :
  _m_time (self s) ≠ c_time ->
  _last_hb_id (self s) = 0 \/ c_time - _hb_time (self s) < MAX_SOCK_TO ->
  0 <= _msg_id (self s) ->
  accepts_next (world s) ->
  exists s',
    _server_alive c_time s = Ok true s' /\
    _m_time (self s') = c_time /\
    state (self s') = state (self s) /\
    closes (world s') = closes (world s) /\
    if bool_decide (HB_PERIOD <= c_time - _hb_time (self s) /\ state (self s) = AUTHENTICATED)
    then
      _last_hb_id (self s) = 0 /\
      wire (world s') = wire (world s) ++ [header MSG_PING (next_id (_msg_id (self s))) 0] /\
      _last_hb_id (self s') = next_id (_msg_id (self s)) /\
      _msg_id (self s') = next_id (_msg_id (self s)) /\
      _hb_time (self s') = c_time /\
      _tx_count (self s') = 1
    else
      wire (world s') = wire (world s) /\
      _last_hb_id (self s') = _last_hb_id (self s) /\
      _msg_id (self s') = _msg_id (self s) /\
      _hb_time (self s') = _hb_time (self s) /\
      _tx_count (self s') = 0.
Proof.
  intros Hnew Hout Hid Hacc. unfold _server_alive, wdt_feed. mgoal.
  rewrite decide_True by done.
  assert (Hdead : bool_decide (_last_hb_id (self s) ≠ 0)
                  && (MAX_SOCK_TO <=? c_time - _hb_time (self s)) = false).
  { destruct Hout as [->|Hearly]; [done|].
    rewrite (proj2 (Z.leb_gt _ _)) by done. apply andb_false_r. }
  pose proof (next_id_range _ Hid) as Hrange.
  destruct (bool_decide_reflect (HB_PERIOD <= c_time - _hb_time (self s) /\
                                 state (self s) = AUTHENTICATED)) as [[Hdue Hauth]|Hnot].
  - assert (Hzero : _last_hb_id (self s) = 0).
    { destruct Hout as [?|Hearly]; [done|]. unfold HB_PERIOD, MAX_SOCK_TO in *. lia. }
    destruct (_wdt (self s)); mgoal; rewrite Hdead.
    all: rewrite (proj2 (Z.leb_le _ _)) by done; rewrite bool_decide_true by done.
    all: cbn [andb]; mgoal; rewrite new_msg_id_run; mgoal; unfold pack_header.
    all: rewrite (header_is_packed MSG_PING _ 0) by (unfold MSG_PING; lia); mgoal.
    all: rewrite send_accepted by done; mgoal.
    all: by eexists.
  - assert (Hno : (HB_PERIOD <=? c_time - _hb_time (self s))
                  && bool_decide (state (self s) = AUTHENTICATED) = false).
    { destruct (Z.leb_spec HB_PERIOD (c_time - _hb_time (self s))); [|done].
      cbn [andb]. apply bool_decide_false. tauto. }
    destruct (_wdt (self s)); mgoal; rewrite Hdead; mgoal; rewrite Hno; mgoal; by eexists.
Qed.

Lemma heartbeat_sent_witness :
  let s := session_client "abc" [] in
  exists s',
    _server_alive 100 s = Ok true s' /\
    _m_time (self s') = 100 /\
    state (self s') = state (self s) /\
    closes (world s') = closes (world s) /\
    if bool_decide (HB_PERIOD <= 100 - _hb_time (self s) /\ state (self s) = AUTHENTICATED)
    then
      _last_hb_id (self s) = 0 /\
      wire (world s') = wire (world s) ++ [header MSG_PING (next_id (_msg_id (self s))) 0] /\
      _last_hb_id (self s') = next_id (_msg_id (self s)) /\
      _msg_id (self s') = next_id (_msg_id (self s)) /\
      _hb_time (self s') = 100 /\
      _tx_count (self s') = 1
    else
      wire (world s') = wire (world s) /\
      _last_hb_id (self s') = _last_hb_id (self s) /\
      _msg_id (self s') = _msg_id (self s) /\
      _hb_time (self s') = _hb_time (self s) /\
      _tx_count (self s') = 0.
Proof. apply (heartbeat_sent 100); [done | by left | done | done]. Defined.

(** ** Logging in, refused; and a client that is not to connect *)

Lemma close_run (s : Sys) :
  _close s = Ok tt {| self := set_state DISCONNECTED (self s);
                      world := set_closes (S (closes (world s))) (world s) |}.
Proof. by destruct_sys s. Qed.



Lemma login_iter_offline (s : Sys) :
  _do_connect (self s) = false ->
  login_iter s = Ok tt (logged (if _wdt (self s) then [WdtFeed] else []) s).
Proof.
  intros Hdc. unfold login_iter, _run_task. mgoal. rewrite wdt_feed_run. mgoal.
  by rewrite Hdc.
Qed.

Lemma login_loop_offline (fuel : nat) (s : Sys) :
  _do_connect (self s) = false ->
  state (self s) ≠ AUTHENTICATED ->
  login_loop fuel s =
    Ok false (logged (if _wdt (self s) then replicate fuel WdtFeed else []) s).
Proof.
  intros Hdc Hst. revert s Hdc Hst. induction fuel as [|fuel IH]; intros s Hdc Hst.
  - cbn [login_loop]. mgoal. rewrite decide_False by done.
    cbn [replicate]. destruct (_wdt (self s)); by rewrite logged_nil.
  - cbn [login_loop]. mgoal. rewrite decide_False by done.
    rewrite login_iter_offline by done. rewrite IH by done.
    destruct_sys s. unfold logged. mgoal. destruct wdt; cbn [replicate].
    + by rewrite <- app_assoc.
    + by rewrite !app_nil_r.
Qed.



Lemma login_loop_done (fuel : nat) (s : Sys) :
  state (self s) = AUTHENTICATED -> login_loop fuel s = Ok true s.
Proof.
  intros Hst. destruct fuel; cbn [login_loop]; mgoal; by rewrite decide_True by done.
Qed.

Lemma session_loop_unwanted (ticks : list Z) (s : Sys) :
  _do_connect (self s) = false -> session_loop ticks s = Ok true s.
Proof. intros Hdc. destruct ticks; cbn [session_loop]; mgoal; by rewrite Hdc. Qed.

(** [run_round] ends with [round_end]. *)
Lemma run_round_end (fuel : nat) (ticks : list Z) (s : Sys) :
  run_round fuel ticks s =
    (authenticated ← login_loop fuel;
     if (authenticated : bool) then
       self_upd (set_hb_time 0);;
       self_upd (set_last_hb_id 0);;
       self_upd (set_tx_count 0);;
       ended ← session_loop ticks;
       if (ended : bool) then round_end;; mret true else mret false
     else mret false) s.
Proof. reflexivity. Qed.

(** X17 -- [disconnect()] where the test of the session loop comes next,
    as when the user task calls it (the user task is the last statement
    of an iteration): the loop ends at that test, with nothing read, sent
    or closed by then; the statements that end the round close the
    connection once; and the login loop that follows never connects,
    however long it runs. *)
Theorem disconnect_ends_session (fuel : nat) (ticks ticks' : list Z)
    (rest : list (list Z)) (s : Sys) :
  let s0 := final (disconnect s) in
  (disconnect;; session_loop ticks) s = Ok true s0 /\
  world s0 = world s /\
  exists s1 s2,
    round_end s0 = Ok tt s1 /\
    state (self s1) = DISCONNECTED /\
    closes (world s1) = S (closes (world s)) /\
    run_rounds fuel (ticks' :: rest) s1 = Ok false s2 /\
    state (self s2) = DISCONNECTED /\
    closes (world s2) = S (closes (world s)) /\
    wire (world s2) = wire (world s) /\
    rx_script (world s2) = rx_script (world s) /\
    _rx_data (self s2) = _rx_data (self s) /\
    connect_script (world s2) = connect_script (world s).
Proof.
  intros s0. subst s0. unfold disconnect. mgoal.
  split; [by rewrite session_loop_unwanted|]. split; [done|].
  unfold round_end. mgoal. rewrite close_run. mgoal.
  eexists _, _. split; [reflexivity|]. split; [done|]. split; [done|].
  cbn [run_rounds]. unfold run_round. mgoal.
  rewrite login_loop_offline by done. mgoal. by repeat split.
Qed.

(** ** The pin objects: set up on first use, and again when the use changes *)

Lemma with_pin_lookup (pin : Z) (f : HwPin.t -> HwPin.t) (events : list hw_event)
    (hp : HwPin.t) (s : Sys) :
  _hw_pins (self s) !! pin = Some hp ->
  _hw_pins (self (with_pin pin f events s)) !! pin = Some (f hp).
Proof. intros Hpin. unfold with_pin. mgoal. by rewrite lookup_alter_eq, Hpin. Qed.

Lemma digital_write_first (pin value : Z) (hp : HwPin.t) (s : Sys) :
  _hw_pins (self s) !! pin = Some hp ->
  HwPin._function hp ≠ "dig" ->
  digital_write pin value s =
    Ok tt (with_pin pin as_dig [dig_init hp; PinWrite (HwPin._name hp) value] s).
Proof.
  intros Hpin Hfn. destruct_sys s. cbn in Hpin. unfold digital_write, with_pin, as_dig.
  pin_step Hpin. rewrite decide_True by done. pin_step Hpin.
  rewrite decide_True by done. pin_step Hpin. pin_step Hpin.
  rewrite <- app_assoc. cbn [app]. by rewrite alter_alter_eq.
Qed.

Lemma digital_write_again (pin value : Z) (hp : HwPin.t) (s : Sys) :
  _hw_pins (self s) !! pin = Some hp ->
  HwPin._function hp = "dig" ->
  HwPin._pin hp = true ->
  digital_write pin value s = Ok tt (logged [PinWrite (HwPin._name hp) value] s).
Proof.
  intros Hpin Hfn Hset. destruct_sys s. cbn in Hpin. unfold digital_write, logged.
  pin_step Hpin. rewrite decide_False by (by intros []). pin_step Hpin.
  by rewrite Hset.
Qed.

Lemma analog_read_first (pin : Z) (hp : HwPin.t) (s : Sys) :
  _hw_pins (self s) !! pin = Some hp ->
  HwPin._function hp ≠ "ana" ->
  analog_read pin s =
    Ok (adc_level (world s) (HwPin._name hp))
       (with_pin pin as_ana [AdcInit (HwPin._name hp); AdcRead (HwPin._name hp)] s).
Proof.
  intros Hpin Hfn. destruct_sys s. cbn in Hpin. unfold analog_read, with_pin, as_ana.
  pin_step Hpin. rewrite decide_True by done. pin_step Hpin.
  rewrite decide_False by done. rewrite decide_True by done. pin_step Hpin. pin_step Hpin.
  rewrite <- app_assoc. cbn [app]. by rewrite alter_alter_eq.
Qed.

(** X18 -- A pin is set up when it is first used, and again whenever its
    use changes, but not while it stays the same: two digital writes in a
    row make one [machine.Pin] and write twice; with an analog read in
    between, the pin is made an ADC channel and then a digital pin
    again. *)
Theorem pin_setup_follows_use (pin v1 v2 : Z) (hp : HwPin.t) (s : Sys) :
  _hw_pins (self s) !! pin = Some hp ->
  HwPin._function hp ≠ "dig" ->
  let name := HwPin._name hp in
  (exists s',
     (digital_write pin v1;; digital_write pin v2) s = Ok tt s' /\
     hw_log (world s') =
       hw_log (world s) ++ [dig_init hp; PinWrite name v1; PinWrite name v2]) /\
  (exists s',
     (digital_write pin v1;; analog_read pin;; digital_write pin v2) s = Ok tt s' /\
     hw_log (world s') =
       hw_log (world s) ++ [dig_init hp; PinWrite name v1; AdcInit name; AdcRead name;
                            dig_init hp; PinWrite name v2]).
Proof.
  intros Hpin Hfn name. split.
  - eexists. split.
    + mgoal. rewrite (digital_write_first pin v1 hp s) by done.
      rewrite (digital_write_again pin v2 (as_dig hp)); [reflexivity| |done|done].
      by apply with_pin_lookup.
    + unfold logged, with_pin. mgoal. by rewrite <- app_assoc.
  - eexists. split.
    + mgoal. rewrite (digital_write_first pin v1 hp s) by done.
      rewrite (analog_read_first pin (as_dig hp)); [| by apply with_pin_lookup | done].
      rewrite (digital_write_first pin v2 (as_ana (as_dig hp)));
        [reflexivity | by do 2 apply with_pin_lookup | done].
    + unfold with_pin. mgoal. by rewrite <- !app_assoc.
Qed.

Lemma pin_setup_follows_use_witness :
  let s := final (_handle_hw (payload ["pm"; "5"; "out"]) (session_client "abc" [])) in
  let hp := fresh_pin 5 "out" in
  let name := HwPin._name hp in
  (exists s',
     (digital_write 5 1;; digital_write 5 0) s = Ok tt s' /\
     hw_log (world s') =
       hw_log (world s) ++ [dig_init hp; PinWrite name 1; PinWrite name 0]) /\
  (exists s',
     (digital_write 5 1;; analog_read 5;; digital_write 5 0) s = Ok tt s' /\
     hw_log (world s') =
       hw_log (world s) ++ [dig_init hp; PinWrite name 1; AdcInit name; AdcRead name;
                            dig_init hp; PinWrite name 0]).
Proof.
  apply (pin_setup_follows_use 5 1 0 (fresh_pin 5 "out")); [by vm_compute | done].
Defined.

(** ** Analog writes: the pins with PWM, and the others *)

Lemma pin_name_inj (p q : Z) : "GP" +:+ pretty p = "GP" +:+ pretty q -> p = q.
Proof.
  intros H.
  change (String "G" (String "P" (pretty p)) = String "G" (String "P" (pretty q))) in H.
  injection H as H. by apply (inj pretty) in H.
Qed.

(** [_PWMMap] has no entry for a pin that is none of 9, 10, 11, 24, 25. *)
Lemma pwm_map_other (pin : Z) :
  pin ∉ pwm_pins -> HwPin._PWMMap !! ("GP" +:+ pretty pin) = None.
Proof.
  unfold pwm_pins. rewrite !not_elem_of_cons. intros (H9 & H10 & H11 & H24 & H25 & _).
  unfold HwPin._PWMMap. cbn [list_to_map foldr uncurry fst snd].
  change "GP9"%string with ("GP" +:+ pretty 9).
  change "GP10"%string with ("GP" +:+ pretty 10).
  change "GP11"%string with ("GP" +:+ pretty 11).
  change "GP24"%string with ("GP" +:+ pretty 24).
  change "GP25"%string with ("GP" +:+ pretty 25).
  rewrite !lookup_insert_ne; [apply lookup_empty|..];
    intros Heq; apply pin_name_inj in Heq; congruence.
Qed.

(** X19 -- An analog write to a pin without PWM (any pin other than GP9,
    GP10, GP11, GP24 and GP25) fails with KeyError before the hardware is
    touched, but leaves the pin marked as a PWM pin: every later analog
    write to it fails with AttributeError instead. *)
Theorem analog_write_without_pwm (pin v1 v2 : Z) (hp : HwPin.t) (s : Sys) :
  _hw_pins (self s) !! pin = Some hp ->
  HwPin._name hp = "GP" +:+ pretty pin ->
  HwPin._function hp ≠ "pwm" ->
  HwPin._pwm hp = false ->
  pin ∉ pwm_pins ->
  let s1 := with_pin pin (HwPin.set_function "pwm") [] s in
  analog_write pin v1 s = Raise KeyError s1 /\
  hw_log (world s1) = hw_log (world s) /\
  analog_write pin v2 s1 = Raise AttributeError s1.
Proof.
  intros Hpin Hname Hfn Hpwm Hother s1. pose proof (pwm_map_other pin Hother) as Hmap.
  split; [|split].
  - subst s1. destruct_sys s. cbn in Hpin. unfold analog_write, with_pin.
    pin_step Hpin. rewrite decide_True by done. pin_step Hpin.
    rewrite decide_False by done. rewrite decide_False by done.
    rewrite Hname, Hmap. mgoal. by rewrite app_nil_r.
  - subst s1. unfold with_pin. mgoal. by rewrite app_nil_r.
  - assert (Hpin1 : _hw_pins (self s1) !! pin = Some (HwPin.set_function "pwm" hp))
      by (by apply with_pin_lookup).
    clearbody s1. unfold analog_write, hw_pin. mgoal. rewrite Hpin1. mgoal.
    cbn [HwPin.set_function HwPin._function HwPin._pwm].
    rewrite decide_False by (by intros []). by rewrite Hpwm.
Qed.

Lemma analog_write_without_pwm_witness :
  let s := final (_handle_hw (payload ["pm"; "5"; "out"]) (session_client "abc" [])) in
  let s1 := with_pin 5 (HwPin.set_function "pwm") [] s in
  analog_write 5 128 s = Raise KeyError s1 /\
  hw_log (world s1) = hw_log (world s) /\
  analog_write 5 64 s1 = Raise AttributeError s1.
Proof.
  apply (analog_write_without_pwm 5 128 64 (fresh_pin 5 "out")); try done.
  unfold pwm_pins. rewrite !not_elem_of_cons. repeat split; try done. apply not_elem_of_nil.
Defined.

(** X20 -- An analog write to a pin with PWM: the first one sets the pin
    up in its alternate function and starts the timer channel with the
    value as duty cycle; from then on an analog write only sets the duty
    cycle. *)
Theorem analog_write_pwm (pin v1 v2 alt : Z) (tm : Z * timer_ch) (hp : HwPin.t) (s : Sys) :
  _hw_pins (self s) !! pin = Some hp ->
  HwPin._function hp ≠ "pwm" ->
  HwPin._PWMMap !! HwPin._name hp = Some alt ->
  HwPin._TimerMap !! HwPin._name hp = Some tm ->
  let name := HwPin._name hp in
  exists s',
    (analog_write pin v1;; analog_write pin v2) s = Ok tt s' /\
    hw_log (world s') = hw_log (world s) ++ [PwmInit name alt tm.1 tm.2 v1; PwmDuty name v2] /\
    _hw_pins (self s') !! pin = Some (as_pwm hp) /\
    wire (world s') = wire (world s).
Proof.
  intros Hpin Hfn Halt Htm name. destruct_sys s. cbn in Hpin.
  unfold analog_write, as_pwm. pin_step Hpin.
  rewrite decide_True by done. pin_step Hpin.
  rewrite decide_False by done. rewrite decide_False by done.
  rewrite Halt, Htm. pin_step Hpin. pin_step Hpin.
  rewrite decide_False by (by intros []). mgoal.
  eexists. split; [reflexivity|]. mgoal. rewrite !lookup_alter_eq, Hpin.
  by rewrite <- app_assoc.
Qed.

Lemma analog_write_pwm_witness :
  let s := final (_handle_hw (payload ["pm"; "9"; "out"]) (session_client "abc" [])) in
  let name := HwPin._name (fresh_pin 9 "out") in
  exists s',
    (analog_write 9 128;; analog_write 9 64) s = Ok tt s' /\
    hw_log (world s') = hw_log (world s) ++ [PwmInit name 3 3 TimerB 128; PwmDuty name 64] /\
    _hw_pins (self s') !! 9 = Some (as_pwm (fresh_pin 9 "out")) /\
    wire (world s') = wire (world s).
Proof.
  apply (analog_write_pwm 9 128 64 3 (3, TimerB) (fresh_pin 9 "out")); try done.
  all: by vm_compute.
Defined.

(** ** Payloads: what is joined is split again *)

Lemma B_app (s1 s2 : string) : B (s1 ++ s2)%string = B s1 ++ B s2.
Proof.
  unfold B. induction s1 as [|c s1 IH]; [done|].
  change (list_ascii_of_string (String c s1 ++ s2)%string)
    with (c :: list_ascii_of_string (s1 ++ s2)%string).
  by rewrite IH.
Qed.

Lemma split_nul_plain (l : bytes) : NUL ∉ l -> split_nul l = [l].
Proof.
  induction l as [|c l IH]; [done|]. intros Hnul. apply not_elem_of_cons in Hnul as [Hc Hl].
  cbn [split_nul]. rewrite (proj2 (Ascii.eqb_neq c NUL)) by done. by rewrite IH.
Qed.

Lemma split_nul_field (l rest : bytes) :
  NUL ∉ l -> split_nul (l ++ NUL :: rest) = l :: split_nul rest.
Proof.
  induction l as [|c l IH]; intros Hnul.
  - cbn [app split_nul]. by rewrite Ascii.eqb_refl.
  - apply not_elem_of_cons in Hnul as [Hc Hl].
    cbn [app split_nul]. rewrite (proj2 (Ascii.eqb_neq c NUL)) by done. by rewrite IH.
Qed.

Lemma split_join_nul (ts : list string) :
  ts ≠ [] -> Forall plain ts -> split_nul (B (join_nul ts)) = B <$> ts.
Proof.
  induction ts as [|t ts IH]; [done|]. intros _ Hplain.
  apply Forall_cons in Hplain as [[_ Hnul] Hrest].
  destruct ts as [|t' ts].
  - cbn [join_nul fmap list_fmap]. by apply split_nul_plain.
  - change (join_nul (t :: t' :: ts)) with (t ++ String NUL (join_nul (t' :: ts)))%string.
    rewrite B_app. change (B (String NUL ?r)) with (NUL :: B r).
    rewrite split_nul_field by done. rewrite IH by done. done.
Qed.

Lemma decode_ascii_B (t : string) :
  forallb is_ascii (B t) = true -> decode_ascii (B t) = Some t.
Proof.
  intros Hascii. unfold decode_ascii. rewrite Hascii. unfold B.
  by rewrite string_of_list_ascii_of_string.
Qed.

Lemma decode_tokens (ts : list string) :
  ts ≠ [] -> Forall plain ts ->
  mapM decode_ascii (split_nul (payload ts)) = Some ts.
Proof.
  intros Hne Hplain. unfold payload. rewrite split_join_nul by done.
  apply mapM_Some_2. clear Hne. induction Hplain as [|t ts [Hascii _] _ IH]; cbn.
  - constructor.
  - constructor; [by apply decode_ascii_B | done].
Qed.

(** X21 -- Payload round trip: tokens that are joined with NUL the way
    [_format_msg] joins them are split and decoded by [_handle_hw] into
    the same tokens, when there is at least one token and each is ASCII
    without a NUL.  (No tokens at all come back as one empty token.) *)
Theorem payload_roundtrip (ts : list string) (s : Sys) :
  Forall plain ts ->
  decode_params (payload ts) s = Ok (if decide (ts = []) then [EmptyString] else ts) s.
Proof.
  intros Hplain. case_decide as Hne.
  - by subst ts.
  - unfold decode_params. by rewrite decode_tokens.
Qed.

Lemma payload_roundtrip_witness :
  let s := session_client "abc" [] in
  decode_params (payload ["vw"; "3"; "on"]) s = Ok ["vw"; "3"; "on"]%string s.
Proof.
  apply (payload_roundtrip ["vw"; "3"; "on"]%string).
  repeat (apply Forall_cons; split); [| | |done].
  all: split; [reflexivity | by apply (bool_decide_unpack _)].
Defined.

(** ** Numbers in a payload: [str] and [int] *)

Lemma digit_char (d : N) :
  (d < 10)%N ->
  is_digit (pretty_N_char d) = true /\ byte_val (pretty_N_char d) - 48 = Z.of_N d.
Proof.
  intros Hd.
  assert (d = 0 \/ d = 1 \/ d = 2 \/ d = 3 \/ d = 4 \/ d = 5 \/ d = 6 \/ d = 7 \/ d = 8
          \/ d = 9)%N as Hcases by lia.
  repeat destruct Hcases as [->|Hcases]; try subst d; by vm_compute.
Qed.

Lemma digits_value_app (acc : Z) (l1 l2 : list ascii) :
  digits_value acc (l1 ++ l2) = digits_value acc l1 ≫= λ a, digits_value a l2.
Proof.
  revert acc. induction l1 as [|c l1 IH]; intros acc; [done|].
  cbn [app digits_value]. destruct (is_digit c); [apply IH | done].
Qed.

(** The digits that [pretty_N_go] puts in front of its accumulator. *)
Lemma pretty_N_go_digits (x : N) :
  exists pre,
    Forall (λ c, is_digit c = true) pre /\
    ((0 < x)%N -> pre ≠ []) /\
    (forall s, list_ascii_of_string (pretty_N_go x s) = pre ++ list_ascii_of_string s) /\
    (forall acc, digits_value acc pre = Some (acc * 10 ^ Z.of_nat (length pre) + Z.of_N x)).
Proof.
  induction (N.lt_wf_0 x) as [x _ IH].
  destruct (decide (0 < x)%N) as [Hpos|Hzero].
  - destruct (IH (x `div` 10)%N) as (pre & Hdig & _ & Hpre & Hval).
    { by apply N.div_lt. }
    destruct (digit_char (x `mod` 10)%N) as [Hc Hv]; [by apply N.mod_lt|].
    exists (pre ++ [pretty_N_char (x `mod` 10)]). split; [|split; [|split]].
    + apply Forall_app. split; [done|]. by repeat constructor.
    + intros _. by destruct pre.
    + intros s. rewrite pretty_N_go_step by done. rewrite Hpre.
      by rewrite <- app_assoc.
    + intros acc. rewrite digits_value_app, Hval. cbn [mbind option_bind digits_value].
      rewrite Hc. f_equal. rewrite length_app. cbn [length].
      rewrite Nat2Z.inj_add. change (Z.of_nat 1) with 1.
      rewrite Z.pow_add_r by lia. rewrite Z.pow_1_r.
      rewrite N2Z.inj_div in *. rewrite N2Z.inj_mod in Hv.
      change (Z.of_N 10) with 10 in *.
      pose proof (Z.div_mod (Z.of_N x) 10 ltac:(done)). lia.
  - assert (x = 0%N) as -> by lia. exists []. split; [constructor|].
    split; [lia|]. split; [done|]. intros acc. cbn. f_equal. lia.
Qed.

Lemma pretty_N_digits (x : N) :
  exists ds,
    Forall (λ c, is_digit c = true) ds /\ ds ≠ [] /\
    list_ascii_of_string (pretty x) = ds /\
    digits_value 0 ds = Some (Z.of_N x).
Proof.
  unfold pretty, pretty_N. case_decide as Hx.
  - subst x. exists ["0"%char]. by repeat split; [repeat constructor|..].
  - destruct (pretty_N_go_digits x) as (pre & Hdig & Hne & Hpre & Hval).
    exists pre. split; [done|]. split; [apply Hne; lia|]. split.
    + rewrite Hpre. apply app_nil_r.
    + by rewrite Hval.
Qed.

Lemma digit_not_space (c : ascii) : is_digit c = true -> is_space c = false.
Proof.
  unfold is_digit, is_space. generalize (byte_val c). intros v Hd.
  apply andb_true_iff in Hd as [H1%Z.leb_le H2%Z.leb_le].
  rewrite (proj2 (Z.eqb_neq v 32)) by lia. rewrite (proj2 (Z.leb_gt v 13)) by lia.
  by rewrite andb_false_r.
Qed.

Lemma lstrip_digits (ds : list ascii) :
  Forall (λ c, is_digit c = true) ds -> lstrip ds = ds.
Proof.
  intros [|c l Hc _]; [done|]. cbn [lstrip]. by rewrite digit_not_space.
Qed.

Lemma strip_digits (ds : list ascii) :
  Forall (λ c, is_digit c = true) ds -> strip ds = ds.
Proof.
  intros Hd. unfold strip. rewrite (lstrip_digits ds) by done.
  rewrite lstrip_digits by (by apply Forall_rev). apply rev_involutive.
Qed.

Lemma strip_minus_digits (ds : list ascii) :
  Forall (λ c, is_digit c = true) ds -> ds ≠ [] ->
  strip ("-"%char :: ds) = "-"%char :: ds.
Proof.
  intros Hd Hne. unfold strip. change (lstrip ("-"%char :: ds)) with ("-"%char :: ds).
  assert (lstrip (rev ("-"%char :: ds)) = rev ("-"%char :: ds)) as ->; [|apply rev_involutive].
  cbn [rev]. apply Forall_rev in Hd.
  destruct (rev ds) as [|c l] eqn:Hrev.
  - apply (f_equal (@rev ascii)) in Hrev. rewrite rev_involutive in Hrev. done.
  - apply Forall_cons in Hd as [Hc _]. cbn [app lstrip]. by rewrite digit_not_space.
Qed.

(** [int(str(z))] is [z]. *)
Lemma py_int_str (z : Z) : py_int (py_str (PyInt z)) = Some z.
Proof.
  unfold py_str, py_int. destruct z as [|p|p]; [done|..]; unfold pretty, pretty_Z.
  - destruct (pretty_N_digits (N.pos p)) as (ds & Hd & Hne & Hds & Hval).
    change (pretty p) with (pretty (N.pos p)). rewrite Hds, strip_digits by done.
    destruct ds as [|c ds]; [done|]. apply Forall_cons in Hd as Hd'. destruct Hd' as [Hc _].
    revert Hval.
    destruct c as [[] [] [] [] [] [] [] []]; try (by vm_compute in Hc);
      intros Hval; cbv beta iota; cbn [unsigned_value]; by rewrite Hval.
  - destruct (pretty_N_digits (N.pos p)) as (ds & Hd & Hne & Hds & Hval).
    change (list_ascii_of_string ("-" +:+ pretty p))
      with ("-"%char :: list_ascii_of_string (pretty (N.pos p))).
    rewrite Hds, strip_minus_digits by done.
    destruct ds as [|c ds]; [done|]. cbn [unsigned_value]. by rewrite Hval.
Qed.

(** The digits and the sign are ASCII, and none of them is NUL. *)
Lemma py_str_int_plain (z : Z) : plain (py_str (PyInt z)).
Proof.
  assert (Hdigit : forall c, is_digit c = true -> is_ascii c = true /\ c ≠ NUL).
  { intros c Hc. unfold is_digit in Hc. apply andb_true_iff in Hc as [H1%Z.leb_le H2%Z.leb_le].
    split; [unfold is_ascii; apply Z.ltb_lt; lia|]. intros Heq. subst c. change (byte_val NUL) with 0 in H1. lia. }
  assert (Hplain : forall ds, Forall (λ c, is_digit c = true) ds ->
            forallb is_ascii ds = true /\ NUL ∉ ds).
  { induction 1 as [|c ds Hc _ [IH1 IH2]]; [split; [done|apply not_elem_of_nil]|].
    destruct (Hdigit c Hc) as [Ha Hn]. split.
    - cbn [forallb]. by rewrite Ha.
    - apply not_elem_of_cons. split; [by intros Heq|done]. }
  unfold plain, py_str, B. destruct z as [|p|p]; unfold pretty, pretty_Z.
  - split; [done|]. by apply (bool_decide_unpack _).
  - destruct (pretty_N_digits (N.pos p)) as (ds & Hd & _ & Hds & _).
    change (pretty p) with (pretty (N.pos p)). rewrite Hds. by apply Hplain.
  - destruct (pretty_N_digits (N.pos p)) as (ds & Hd & _ & Hds & _).
    change (list_ascii_of_string ("-" +:+ pretty p))
      with ("-"%char :: list_ascii_of_string (pretty (N.pos p))).
    rewrite Hds. destruct (Hplain ds Hd) as [H1 H2]. split.
    + cbn [forallb]. by rewrite H1.
    + apply not_elem_of_cons. split; [done|done].
Qed.

(** ** The reply to a digital read *)

Lemma join_nul_ascii (ts : list string) :
  Forall plain ts -> forallb is_ascii (B (join_nul ts)) = true.
Proof.
  induction 1 as [|t ts [Hascii _] Hrest IH]; [done|].
  destruct ts as [|t' ts]; [done|].
  change (join_nul (t :: t' :: ts)) with (t ++ String NUL (join_nul (t' :: ts)))%string.
  rewrite B_app, forallb_app, Hascii. change (B (String NUL ?r)) with (NUL :: B r).
  cbn [forallb andb]. by rewrite IH.
Qed.

Lemma encode_payload (ts : list string) :
  Forall plain ts -> encode_ascii (join_nul ts) = Some (payload ts).
Proof.
  intros Hplain. pose proof (join_nul_ascii ts Hplain) as Hascii.
  unfold encode_ascii, payload, B in *. by rewrite Hascii.
Qed.

Lemma digital_read_run (pin : Z) (hp : HwPin.t) (s : Sys) :
  _hw_pins (self s) !! pin = Some hp ->
  (HwPin._function hp = "dig" -> HwPin._pin hp = true) ->
  digital_read pin s =
    Ok (pin_level (world s) (HwPin._name hp))
       (if decide (HwPin._function hp = "dig")
        then logged [PinRead (HwPin._name hp)] s
        else with_pin pin as_dig [dig_init hp; PinRead (HwPin._name hp)] s).
Proof.
  intros Hpin Hready. destruct_sys s. cbn in Hpin.
  unfold digital_read, with_pin, logged, as_dig. pin_step Hpin.
  destruct (decide (HwPin._function hp = "dig")) as [Hdig|Hdig].
  - rewrite decide_False by (by intros []). pin_step Hpin. by rewrite (Hready Hdig).
  - rewrite decide_True by done. pin_step Hpin. rewrite decide_True by done.
    pin_step Hpin. pin_step Hpin.
    rewrite <- app_assoc. cbn [app]. by rewrite alter_alter_eq.
Qed.

(** X22 -- The reply to a digital read: a [dr] command reads the pin
    (setting it up first if need be) and answers with a hardware frame
    under a fresh message id whose payload is [dw], the pin and the level
    read.  The answer is a regular send: with the send counter at the
    limit the pin is read and the id is used up all the same, but nothing
    goes on the wire.  The payload reads back, by the decoding of
    [_handle_hw], as those three tokens, and the numbers in it as the pin
    and the level. *)
Theorem digital_read_reply (data : bytes) (tp : string) (rest : list string) (pin : Z)
    (hp : HwPin.t) (s : Sys) :
  let name := HwPin._name hp in
  let val := pin_level (world s) name in
  let body := payload ["dw"%string; py_str (PyInt pin); py_str (PyInt val)] in
  mapM decode_ascii (split_nul data) = Some ("dr" :: tp :: rest)%string ->
  py_int tp = Some pin ->
  _pins_configured (self s) = true ->
  _hw_pins (self s) !! pin = Some hp ->
  (HwPin._function hp = "dig" -> HwPin._pin hp = true) ->
  0 <= _msg_id (self s) ->
  accepts_next (world s) ->
  Z.of_nat (length body) <= 0xFFFF ->
  exists s',
    _handle_hw data s = Ok tt s' /\
    hw_log (world s') =
      hw_log (world s)
      ++ (if decide (HwPin._function hp = "dig") then [] else [dig_init hp])
      ++ [PinRead name] /\
    _msg_id (self s') = next_id (_msg_id (self s)) /\
    wire (world s') =
      (if _tx_count (self s) <? MAX_MSG_PER_SEC
       then wire (world s)
            ++ [header MSG_HW (next_id (_msg_id (self s))) (Z.of_nat (length body)) ++ body]
       else wire (world s)) /\
    decode_params body s' = Ok ["dw"%string; py_str (PyInt pin); py_str (PyInt val)] s' /\
    py_int (py_str (PyInt pin)) = Some pin /\
    py_int (py_str (PyInt val)) = Some val.
Proof.
  intros name val body Hdec Hp Hgate Hpin Hready Hid Hacc Hlen.
  assert (Hplain : Forall plain ["dw"%string; py_str (PyInt pin); py_str (PyInt val)]).
  { repeat (apply Forall_cons; split); [|apply py_str_int_plain..|done].
    split; [reflexivity | by apply (bool_decide_unpack _)]. }
  assert (Hback : forall s', decode_params body s' =
                    Ok ["dw"%string; py_str (PyInt pin); py_str (PyInt val)] s').
  { intros s'. unfold body, decode_params. by rewrite decode_tokens. }
  pose proof (next_id_range _ Hid) as Hrange.
  unfold _handle_hw, decode_params. rewrite Hdec. mgoal.
  repeat (case_decide; [done|]). mgoal. rewrite Hgate.
  repeat (case_decide; [done|]). rewrite decide_True by done.
  unfold pop_int. rewrite Hp. mgoal. unfold hw_pin at 1. mgoal. rewrite Hpin. mgoal.
  rewrite (digital_read_run pin hp s) by done. fold name. fold val.
  set (s1 := if decide (HwPin._function hp = "dig") then logged [PinRead name] s
             else with_pin pin as_dig [dig_init hp; PinRead name] s).
  assert (Hs1 : _msg_id (self s1) = _msg_id (self s) /\
                _tx_count (self s1) = _tx_count (self s) /\
                wire (world s1) = wire (world s) /\
                tx_script (world s1) = tx_script (world s) /\
                hw_log (world s1) =
                  hw_log (world s)
                  ++ (if decide (HwPin._function hp = "dig") then [] else [dig_init hp])
                  ++ [PinRead name]).
  { subst s1. destruct (decide (HwPin._function hp = "dig")); by destruct_sys s. }
  clearbody s1. destruct Hs1 as (Hmid & Htxc & Hwire & Htxs & Hlog).
  destruct (format_msg_run MSG_HW [PyStr "dw"; PyInt pin; PyInt val] body s1)
    as (hdr & Hpack & ->).
  { by apply encode_payload. }
  { done. }
  { by rewrite Hmid. }
  { done. }
  rewrite Hmid in Hpack.
  rewrite (header_is_packed MSG_HW) in Hpack by (unfold MSG_HW; lia).
  injection Hpack as <-.
  destruct (Z.ltb_spec (_tx_count (self s)) MAX_MSG_PER_SEC) as [Hroom|Hfull].
  - rewrite send_accepted.
    + eexists. split; [reflexivity|]. mgoal. rewrite Hmid, Hwire, Hlog.
      split; [done|]. split; [done|]. split; [reflexivity|]. split; [apply Hback|].
      split; apply py_int_str.
    + unfold accepts_next in *. mgoal. by rewrite Htxs.
    + mgoal. rewrite Htxc. by rewrite (proj2 (Z.ltb_lt _ _)).
  - rewrite send_dropped by (mgoal; by rewrite Htxc).
    eexists. split; [reflexivity|]. mgoal. rewrite Hmid, Hwire, Hlog.
      split; [done|]. split; [done|]. split; [reflexivity|]. split; [apply Hback|].
      split; apply py_int_str.
Qed.

Lemma digital_read_reply_witness :
  let s := final (_handle_hw (payload ["pm"; "5"; "in"]) (session_client "abc" [])) in
  let hp := fresh_pin 5 "in" in
  let name := HwPin._name hp in
  let val := pin_level (world s) name in
  let body := payload ["dw"%string; py_str (PyInt 5); py_str (PyInt val)] in
  exists s',
    _handle_hw (payload ["dr"; "5"]) s = Ok tt s' /\
    hw_log (world s') =
      hw_log (world s)
      ++ (if decide (HwPin._function hp = "dig") then [] else [dig_init hp])
      ++ [PinRead name] /\
    _msg_id (self s') = next_id (_msg_id (self s)) /\
    wire (world s') =
      (if _tx_count (self s) <? MAX_MSG_PER_SEC
       then wire (world s)
            ++ [header MSG_HW (next_id (_msg_id (self s))) (Z.of_nat (length body)) ++ body]
       else wire (world s)) /\
    decode_params body s' = Ok ["dw"%string; py_str (PyInt 5); py_str (PyInt val)] s' /\
    py_int (py_str (PyInt 5)) = Some 5 /\
    py_int (py_str (PyInt val)) = Some val.
Proof.
  apply (digital_read_reply (payload ["dr"; "5"]) "5" [] 5 (fresh_pin 5 "in")); try done.
  all: by vm_compute.
Defined.

(** ** The user task *)

Lemma run_task_millis (c : Z) (u : UserTask.t) :
  let '(u', fired) := UserTask._run_task c u in
  UserTask._task u' = UserTask._task u /\
  UserTask._task_period u' = UserTask._task_period u /\
  UserTask._task_millis u' =
    UserTask._task_millis u + (if fired then UserTask._task_period u else 0) /\
  (fired = true -> UserTask._task_millis u' <= c).
Proof.
  unfold UserTask._run_task. destruct (UserTask._task u) eqn:Htask.
  - destruct (Z.leb_spec (UserTask._task_period u) (c - UserTask._task_millis u)); cbn.
    + repeat split; try done. lia.
    + repeat split; try done. lia.
  - cbn. repeat split; try done. lia.
Qed.

(** X23 -- The user task is never called early, and never more often than
    its period allows: after any number of calls of [_run_task], the
    task's time base has moved on by one period for each call of the task,
    and, with a positive period, it has not passed the latest clock
    reading.  So [n] calls of the task need [n] periods of elapsed
    time. *)
Theorem user_task_rate (task : bool) (period cmax : Z) (readings : list Z)
    (u0 u : UserTask.t) :
  UserTask.set_user_task task period u0 = Some u ->
  0 < period ->
  Forall (λ c, c <= cmax) readings ->
  let '(u', n) := UserTask.run_tasks readings u in
  UserTask._task_millis u' = UserTask._task_millis u0 + Z.of_nat n * period /\
  Z.of_nat n * period <= Z.max 0 (cmax - UserTask._task_millis u0).
Proof.
  intros Hset Hpos Hmax.
  assert (Hperiod : UserTask._task_period u = period /\
                    UserTask._task_millis u = UserTask._task_millis u0).
  { unfold UserTask.set_user_task in Hset. case_decide; [done|]. by injection Hset as <-. }
  destruct Hperiod as [Hperiod <-]. clear Hset u0.
  assert (Hgen : let '(u', n) := UserTask.run_tasks readings u in
            UserTask._task_period u' = period /\
            UserTask._task_millis u' = UserTask._task_millis u + Z.of_nat n * period /\
            (n ≠ O -> UserTask._task_millis u' <= cmax)).
  { revert u Hperiod. induction Hmax as [|c readings Hc _ IH]; intros u Hperiod.
    - cbn. split; [done|]. split; [lia|done].
    - cbn [UserTask.run_tasks].
      pose proof (run_task_millis c u) as Hstep.
      destruct (UserTask._run_task c u) as [u1 fired].
      destruct Hstep as (_ & Hp1 & Hm1 & Hle1).
      specialize (IH u1 ltac:(congruence)).
      destruct (UserTask.run_tasks readings u1) as [u2 n].
      destruct IH as (Hp2 & Hm2 & Hle2). rewrite Hperiod in Hm1.
      split; [done|]. destruct fired.
      + split; [lia|]. intros _. destruct n as [|n]; [|apply Hle2; lia].
        rewrite Hm2. specialize (Hle1 eq_refl). lia.
      + split; [lia|]. intros Hn. by apply Hle2. }
  destruct (UserTask.run_tasks readings u) as [u' n].
  destruct Hgen as (_ & Hm & Hle). split; [done|].
  destruct n as [|n]; [lia|]. specialize (Hle ltac:(done)). lia.
Qed.

Lemma user_task_rate_witness :
  let u0 := {| UserTask._task := false; UserTask._task_period := 0;
               UserTask._task_millis := 1000 |} in
  let u := {| UserTask._task := true; UserTask._task_period := 100;
              UserTask._task_millis := 1000 |} in
  let '(u', n) := UserTask.run_tasks [1050; 1100; 1105; 1350; 1355; 1360] u in
  UserTask._task_millis u' = UserTask._task_millis u0 + Z.of_nat n * 100 /\
  Z.of_nat n * 100 <= Z.max 0 (1360 - UserTask._task_millis u0).
Proof.
  apply (user_task_rate true 100 1360 [1050; 1100; 1105; 1350; 1355; 1360]
           {| UserTask._task := false; UserTask._task_period := 0;
              UserTask._task_millis := 1000 |}).
  - reflexivity.
  - lia.
  - repeat constructor; lia.
Defined.

(** X24 -- A late task catches up: no call is skipped.  When the clock is
    [k] periods or more past the task's time base, the next [k] calls of
    [_run_task] each call the task, however short the time between
    them. *)
Theorem user_task_catches_up (k : nat) (c : Z) (u : UserTask.t) :
  UserTask._task u = true ->
  0 <= UserTask._task_period u ->
  Z.of_nat k * UserTask._task_period u <= c - UserTask._task_millis u ->
  UserTask.run_tasks (replicate k c) u =
    ({| UserTask._task := true;
        UserTask._task_period := UserTask._task_period u;
        UserTask._task_millis := UserTask._task_millis u
                                 + Z.of_nat k * UserTask._task_period u |}, k).
Proof.
  revert u. induction k as [|k IH]; intros u Htask Hpos Hlate.
  - cbn. destruct u as [tk p m]. cbn in *. subst tk. f_equal. f_equal. lia.
  - cbn [replicate UserTask.run_tasks]. unfold UserTask._run_task at 1. rewrite Htask.
    rewrite (proj2 (Z.leb_le _ _)) by nia.
    rewrite IH; cbn [UserTask._task UserTask._task_period UserTask._task_millis];
      [|done|done|nia].
    f_equal. f_equal. lia.
Qed.

Lemma user_task_catches_up_witness :
  let u := {| UserTask._task := true; UserTask._task_period := 100;
              UserTask._task_millis := 1000 |} in
  UserTask.run_tasks (replicate 3 1320) u =
    ({| UserTask._task := true; UserTask._task_period := 100;
        UserTask._task_millis := 1000 + Z.of_nat 3 * 100 |}, 3%nat).
Proof.
  apply (user_task_catches_up 3 1320
           {| UserTask._task := true; UserTask._task_period := 100;
              UserTask._task_millis := 1000 |}); [reflexivity | simpl; lia | simpl; lia].
Defined.

(** * The demo application *)

(** ** The battery monitor *)

Lemma py_setitem_in_range {A} (l : list A) (i : Z) (v : A) :
  0 <= i < Z.of_nat (length l) -> py_setitem l i v = Some (<[Z.to_nat i := v]> l).
Proof.
  intros Hi. unfold py_setitem.
  by rewrite (proj2 (Z.leb_le 0 i)), (proj2 (Z.ltb_lt i _)) by lia.
Qed.

Lemma charge_run (b : BatteryMonitor.t) :
  let '(b', c) := BatteryMonitor._charge b in
  c = BatteryMonitor.chrg b' /\
  BatteryMonitor.chrg b' <= BatteryMonitor.chrg b /\
  BatteryMonitor.values b' = BatteryMonitor.values b /\
  BatteryMonitor.idx b' = BatteryMonitor.idx b /\
  BatteryMonitor.volt b' = BatteryMonitor.volt b.
Proof.
  unfold BatteryMonitor._charge.
  destruct (BatteryMonitor.first_level _ _) as [c|]; [|cbn; by repeat split].
  destruct (Z.ltb_spec c (BatteryMonitor.chrg b)); cbn; repeat split; try done. lia.
Qed.

Lemma read_run (sample : Z) (b : BatteryMonitor.t) :
  battery_ok b ->
  exists b' r,
    BatteryMonitor.read sample b = Some (b', r) /\
    battery_ok b' /\
    BatteryMonitor.chrg b' <= BatteryMonitor.chrg b /\
    match r with
    | Some v => v = BatteryMonitor.chrg b'
    | None => BatteryMonitor.chrg b' = BatteryMonitor.chrg b
    end /\
    length (BatteryMonitor.values b') = length (BatteryMonitor.values b) /\
    BatteryMonitor.idx b' =
      (BatteryMonitor.idx b + 1) `mod` Z.of_nat (length (BatteryMonitor.values b)) /\
    (is_Some r <-> BatteryMonitor.idx b' = 0).
Proof.
  unfold battery_ok. intros Hok. unfold BatteryMonitor.read.
  rewrite py_setitem_in_range by done. cbn [mbind option_bind].
  rewrite length_insert.
  set (n := Z.of_nat (length (BatteryMonitor.values b))) in *.
  rewrite decide_False by lia.
  pose proof (Z.mod_pos_bound (BatteryMonitor.idx b + 1) n ltac:(lia)) as Hmod.
  case_decide as Hwrap.
  - match goal with |- context [BatteryMonitor._charge ?b1] =>
      pose proof (charge_run b1) as Hc; destruct (BatteryMonitor._charge b1) as [b2 c] end.
    destruct Hc as (-> & Hle & Hvals & Hidx & _). cbn in Hle, Hvals, Hidx.
    eexists _, _. split; [reflexivity|]. rewrite Hvals, Hidx, length_insert. fold n.
    repeat split; try done; try lia; by eexists.
  - eexists _, _. split; [reflexivity|]. cbn. rewrite length_insert. fold n.
    repeat split; try done; try lia; by intros [? ?].
Qed.

(** X25 -- The battery monitor never reports a charge above an earlier
    one: over any series of samples, low or high, no call of [read()]
    fails, each value returned is at most the one returned before it (and
    the first at most the charge held at the start), and the charge held
    is at every moment the last value returned, or the charge from the
    start while nothing has been returned. *)
Theorem battery_charge_never_rises (samples : list Z) (b : BatteryMonitor.t) :
  battery_ok b ->
  exists b' rs,
    BatteryMonitor.reads samples b = Some (b', rs) /\
    length rs = length samples /\
    never_rises (BatteryMonitor.chrg b) rs /\
    BatteryMonitor.chrg b' = last_report (BatteryMonitor.chrg b) rs /\
    BatteryMonitor.chrg b' <= BatteryMonitor.chrg b /\
    reports_at_most (BatteryMonitor.chrg b) rs /\
    battery_ok b'.
Proof.
  revert b. induction samples as [|sample samples IH]; intros b Hok.
  - exists b, []. split; [done|]. split; [done|]. split; [done|]. split; [done|].
    split; [lia|]. split; [by constructor|done].
  - destruct (read_run sample b Hok) as (b1 & r & Hread & Hok1 & Hle1 & Hr & _).
    destruct (IH b1 Hok1) as (b2 & rs & Hreads & Hlen & Hfall & Hlast & Hle2 & Hrs & Hok2).
    exists b2, (r :: rs). cbn [BatteryMonitor.reads]. rewrite Hread. cbn. rewrite Hreads. cbn.
    split; [done|]. split; [by rewrite Hlen|].
    split; [|split; [|split; [lia|split; [|done]]]].
    + destruct r as [v|]; cbn [never_rises].
      * subst v. split; [lia|done].
      * by rewrite <- Hr.
    + destruct r as [v|]; cbn [last_report].
      * by subst v.
      * by rewrite <- Hr.
    + constructor.
      * destruct r; [lia|done].
      * eapply Forall_impl; [exact Hrs|]. intros [v|]; [cbn; lia|done].
Qed.

Lemma battery_charge_never_rises_witness :
  exists b' rs,
    BatteryMonitor.reads [3000; 3000; 3000; 3000; 3000; 3600; 3600; 3600; 3600; 3600]
      BatteryMonitor.init = Some (b', rs) /\
    length rs = 10%nat /\
    never_rises (BatteryMonitor.chrg BatteryMonitor.init) rs /\
    BatteryMonitor.chrg b' = last_report (BatteryMonitor.chrg BatteryMonitor.init) rs /\
    BatteryMonitor.chrg b' <= BatteryMonitor.chrg BatteryMonitor.init /\
    reports_at_most (BatteryMonitor.chrg BatteryMonitor.init) rs /\
    battery_ok b'.
Proof.
  apply (battery_charge_never_rises
           [3000; 3000; 3000; 3000; 3000; 3600; 3600; 3600; 3600; 3600] BatteryMonitor.init).
  unfold battery_ok. simpl. lia.
Defined.

Lemma read_inner (sample : Z) (b : BatteryMonitor.t) :
  0 <= BatteryMonitor.idx b ->
  BatteryMonitor.idx b + 1 < Z.of_nat (length (BatteryMonitor.values b)) ->
  BatteryMonitor.read sample b =
    Some ({| BatteryMonitor.values :=
               <[Z.to_nat (BatteryMonitor.idx b) := scaled sample]> (BatteryMonitor.values b);
             BatteryMonitor.volt := BatteryMonitor.volt b;
             BatteryMonitor.chrg := BatteryMonitor.chrg b;
             BatteryMonitor.idx := BatteryMonitor.idx b + 1 |}, None).
Proof.
  intros Hlo Hhi. unfold BatteryMonitor.read.
  rewrite py_setitem_in_range by lia. cbn [mbind option_bind].
  rewrite length_insert. rewrite decide_False by lia.
  rewrite Z.mod_small by lia. by rewrite decide_False by lia.
Qed.

Lemma read_wrap (sample : Z) (b : BatteryMonitor.t) :
  0 <= BatteryMonitor.idx b ->
  BatteryMonitor.idx b + 1 = Z.of_nat (length (BatteryMonitor.values b)) ->
  BatteryMonitor.read sample b =
    let vals := <[Z.to_nat (BatteryMonitor.idx b) := scaled sample]> (BatteryMonitor.values b) in
    let '(b2, c) :=
      BatteryMonitor._charge
        {| BatteryMonitor.values := vals;
           BatteryMonitor.volt := py_sum vals `div` Z.of_nat (length (BatteryMonitor.values b));
           BatteryMonitor.chrg := BatteryMonitor.chrg b;
           BatteryMonitor.idx := 0 |} in
    Some (b2, Some c).
Proof.
  intros Hlo Hhi. unfold BatteryMonitor.read.
  rewrite py_setitem_in_range by lia. cbn [mbind option_bind].
  rewrite length_insert. rewrite decide_False by lia.
  rewrite Hhi, Z.mod_same by lia. by rewrite decide_True by done.
Qed.

(** X26 -- The battery monitor reports once in five calls, from the last
    five samples alone: with the list index at 0, four calls of [read()]
    return None and the fifth returns the charge; the voltage is then the
    mean of the five scaled samples, whatever the list held before, and
    the charge is the level of that voltage in the table unless the charge
    held was lower already. *)
Theorem battery_window (v1 v2 v3 v4 v5 : Z) (b : BatteryMonitor.t) :
  length (BatteryMonitor.values b) = 5%nat ->
  BatteryMonitor.idx b = 0 ->
  exists b',
    BatteryMonitor.reads [v1; v2; v3; v4; v5] b =
      Some (b', [None; None; None; None; Some (BatteryMonitor.chrg b')]) /\
    BatteryMonitor.values b' = scaled <$> [v1; v2; v3; v4; v5] /\
    BatteryMonitor.volt b' =
      (scaled v1 + scaled v2 + scaled v3 + scaled v4 + scaled v5) `div` 5 /\
    BatteryMonitor.chrg b' =
      match BatteryMonitor.first_level (BatteryMonitor.volt b') BatteryMonitor.levels with
      | Some c => Z.min c (BatteryMonitor.chrg b)
      | None => BatteryMonitor.chrg b
      end /\
    BatteryMonitor.idx b' = 0.
Proof.
  intros Hlen Hidx. destruct b as [vals volt chrg idx]. cbn in Hlen, Hidx. subst idx.
  do 6 (destruct vals as [|? vals]; try done).
  cbn [BatteryMonitor.reads].
  rewrite read_inner by (by vm_compute).
  match goal with |- context [Some (?r, None)] =>
    change r with {| BatteryMonitor.values := [scaled v1; z0; z1; z2; z3];
                     BatteryMonitor.volt := volt; BatteryMonitor.chrg := chrg;
                     BatteryMonitor.idx := 1 |} end.
  cbn [mbind option_bind]. rewrite read_inner by (by vm_compute).
  match goal with |- context [Some (?r, None)] =>
    change r with {| BatteryMonitor.values := [scaled v1; scaled v2; z1; z2; z3];
                     BatteryMonitor.volt := volt; BatteryMonitor.chrg := chrg;
                     BatteryMonitor.idx := 2 |} end.
  cbn [mbind option_bind]. rewrite read_inner by (by vm_compute).
  match goal with |- context [Some (?r, None)] =>
    change r with {| BatteryMonitor.values := [scaled v1; scaled v2; scaled v3; z2; z3];
                     BatteryMonitor.volt := volt; BatteryMonitor.chrg := chrg;
                     BatteryMonitor.idx := 3 |} end.
  cbn [mbind option_bind]. rewrite read_inner by (by vm_compute).
  match goal with |- context [Some (?r, None)] =>
    change r with {| BatteryMonitor.values := [scaled v1; scaled v2; scaled v3; scaled v4; z3];
                     BatteryMonitor.volt := volt; BatteryMonitor.chrg := chrg;
                     BatteryMonitor.idx := 4 |} end.
  cbn [mbind option_bind]. rewrite read_wrap by (by vm_compute). cbv zeta.
  match goal with |- context [BatteryMonitor._charge ?r] =>
    change r with {| BatteryMonitor.values := [scaled v1; scaled v2; scaled v3; scaled v4;
                                               scaled v5];
                     BatteryMonitor.volt :=
                       (scaled v1 + (scaled v2 + (scaled v3 + (scaled v4 + (scaled v5 + 0)))))
                       `div` 5;
                     BatteryMonitor.chrg := chrg; BatteryMonitor.idx := 0 |} end.
  replace (scaled v1 + (scaled v2 + (scaled v3 + (scaled v4 + (scaled v5 + 0)))))
    with (scaled v1 + scaled v2 + scaled v3 + scaled v4 + scaled v5) by lia.
  set (volt' := (scaled v1 + scaled v2 + scaled v3 + scaled v4 + scaled v5) `div` 5).
  unfold BatteryMonitor._charge.
  cbn [BatteryMonitor.values BatteryMonitor.idx BatteryMonitor.chrg BatteryMonitor.volt].
  destruct (BatteryMonitor.first_level volt' BatteryMonitor.levels) as [c|] eqn:Hlevel.
  - destruct (Z.ltb_spec c chrg).
    + eexists. split; [reflexivity|].
      cbn [BatteryMonitor.values BatteryMonitor.idx BatteryMonitor.chrg BatteryMonitor.volt].
      rewrite Hlevel. repeat split; try done. lia.
    + eexists. split; [reflexivity|].
      cbn [BatteryMonitor.values BatteryMonitor.idx BatteryMonitor.chrg BatteryMonitor.volt].
      rewrite Hlevel. repeat split; try done. lia.
  - eexists. split; [reflexivity|].
    cbn [BatteryMonitor.values BatteryMonitor.idx BatteryMonitor.chrg BatteryMonitor.volt].
    rewrite Hlevel. by repeat split.
Qed.

Lemma battery_window_witness :
  exists b',
    BatteryMonitor.reads [3200; 3200; 3210; 3190; 3200] BatteryMonitor.init =
      Some (b', [None; None; None; None; Some (BatteryMonitor.chrg b')]) /\
    BatteryMonitor.values b' = scaled <$> [3200; 3200; 3210; 3190; 3200] /\
    BatteryMonitor.volt b' =
      (scaled 3200 + scaled 3200 + scaled 3210 + scaled 3190 + scaled 3200) `div` 5 /\
    BatteryMonitor.chrg b' =
      match BatteryMonitor.first_level (BatteryMonitor.volt b') BatteryMonitor.levels with
      | Some c => Z.min c (BatteryMonitor.chrg BatteryMonitor.init)
      | None => BatteryMonitor.chrg BatteryMonitor.init
      end /\
    BatteryMonitor.idx b' = 0.
Proof. apply (battery_window 3200 3200 3210 3190 3200 BatteryMonitor.init); reflexivity. Defined.

(** ** The switches of the demo *)

Lemma checks_quiet (k : nat) (h : HwSw.t) (s : Sys) :
  0 <= HwSw.period h ->
  HwSw.time h + Z.of_nat k * HwSw.period h <= HwSw.SW_MAX_UPDATE_TIME ->
  HwSw.checks (replicate k (HwSw.value h)) h s =
    (HwSw.set_time (HwSw.time h + Z.of_nat k * HwSw.period h) h,
     Ok (replicate k false) s).
Proof.
  revert h. induction k as [|k IH]; intros h Hp Hk.
  - cbn. destruct h as [vp v p tm]. unfold HwSw.set_time. cbn. do 2 f_equal. lia.
  - cbn [replicate HwSw.checks]. unfold HwSw.check.
    rewrite decide_False by (intros Hne; by apply Hne).
    cbn [HwSw.set_time HwSw.time HwSw.period HwSw.value HwSw.v_pin].
    rewrite (proj2 (Z.ltb_ge _ _)) by nia.
    specialize (IH (HwSw.set_time (HwSw.time h + HwSw.period h) h)).
    cbn [HwSw.set_time HwSw.time HwSw.period HwSw.value HwSw.v_pin] in IH.
    rewrite IH by (done || nia). unfold HwSw.set_time.
    cbn [HwSw.set_time HwSw.time HwSw.period HwSw.value HwSw.v_pin].
    do 2 f_equal. lia.
Qed.

(** X27 -- A switch that does not change is reported again all the same,
    but not before its time: the checks whose accumulated period stays
    within SW_MAX_UPDATE_TIME send nothing and leave the client alone;
    the first check that takes the accumulated time past it writes the
    negated switch value to the virtual pin of the switch and starts the
    time again.  None of these checks reports a press. *)
Theorem switch_report_time (k : nat) (h : HwSw.t) (s : Sys) :
  0 < HwSw.period h ->
  HwSw.time h = 0 ->
  Z.of_nat k * HwSw.period h <= HwSw.SW_MAX_UPDATE_TIME <
    Z.of_nat (S k) * HwSw.period h ->
  let v := HwSw.value h in
  HwSw.checks (replicate k v) h s =
    (HwSw.set_time (Z.of_nat k * HwSw.period h) h, Ok (replicate k false) s) /\
  HwSw.checks (replicate (S k) v) h s =
    (h, match virtual_write (PyInt (HwSw.v_pin h)) (PyStr (HwSw.str_not v)) s with
        | Ok _ s' => Ok (replicate (S k) false) s'
        | Raise e s' => Raise e s'
        end).
Proof.
  intros Hp Ht Hk v. subst v.
  pose proof (checks_quiet k h s ltac:(lia) ltac:(lia)) as Hquiet.
  rewrite Ht, Z.add_0_l in Hquiet. split; [done|].
  replace (S k) with (k + 1)%nat by lia. rewrite replicate_add.
  assert (Happ : forall r1 r2 h0 s0,
    HwSw.checks (r1 ++ r2) h0 s0 =
      match HwSw.checks r1 h0 s0 with
      | (h1, Ok ps1 s1) =>
          match HwSw.checks r2 h1 s1 with
          | (h2, Ok ps2 s2) => (h2, Ok (ps1 ++ ps2) s2)
          | (h2, Raise e s2) => (h2, Raise e s2)
          end
      | (h1, Raise e s1) => (h1, Raise e s1)
      end).
  { induction r1 as [|r r1 IH]; intros r2 h0 s0.
    - cbn. by destruct (HwSw.checks r2 h0 s0) as [h2 [ps2 s2|e s2]].
    - cbn [app HwSw.checks]. destruct (HwSw.check r h0 s0) as [h1 [p s1|e s1]]; [|done].
      rewrite IH. destruct (HwSw.checks r1 h1 s1) as [h2 [ps1 s2|e s2]]; [|done].
      by destruct (HwSw.checks r2 h2 s2) as [h3 [ps2 s3|e s3]]. }
  rewrite Happ, Hquiet. cbn [replicate HwSw.checks]. unfold HwSw.check.
  cbn [HwSw.set_time HwSw.time HwSw.period HwSw.value HwSw.v_pin].
  rewrite decide_False by (intros Hne; by apply Hne).
  rewrite (proj2 (Z.ltb_lt _ _)) by lia.
  unfold HwSw.update. cbn [HwSw.set_time HwSw.time HwSw.period HwSw.value HwSw.v_pin].
  destruct h as [vp v p tm]. cbn in Ht. subst tm.
  cbn [HwSw.set_time HwSw.time HwSw.period HwSw.value HwSw.v_pin].
  destruct (virtual_write _ _ s) as [[] s'|e s']; [|done].
  do 2 f_equal. by rewrite replicate_add.
Qed.

Lemma switch_report_time_witness :
  let h := {| HwSw.v_pin := 1; HwSw.value := 1; HwSw.period := 50; HwSw.time := 0 |} in
  let s := session_client "abc" [] in
  HwSw.checks (replicate 20 1) h s =
    (HwSw.set_time (Z.of_nat 20 * 50) h, Ok (replicate 20 false) s) /\
  HwSw.checks (replicate 21 1) h s =
    (h, match virtual_write (PyInt 1) (PyStr (HwSw.str_not 1)) s with
        | Ok _ s' => Ok (replicate 21 false) s'
        | Raise e s' => Raise e s'
        end).
Proof.
  apply (switch_report_time 20
           {| HwSw.v_pin := 1; HwSw.value := 1; HwSw.period := 50; HwSw.time := 0 |}
           (session_client "abc" [])); [by vm_compute | reflexivity | by vm_compute].
Defined.

(** * The LED driver *)

Lemma bit_code (color n : Z) :
  0 <= n ->
  nth (Z.to_nat (Z.land (Z.shiftr color n) 1)) WS2812.bits 0 =
    if Z.testbit color n then 0xFC else 0xE0.
Proof.
  intros Hn. change 1 with (Z.ones 1) at 1. rewrite Z.land_ones by lia.
  change (2 ^ 1) with 2. rewrite <- Z.bit0_mod, Z.shiftr_spec by lia.
  rewrite Z.add_0_l. by destruct (Z.testbit color n).
Qed.

Lemma store_at (k : Z) (pre mid : list Z) (x : Z) (post : list Z) (v idx : Z) :
  idx = Z.of_nat (length pre) ->
  k = Z.of_nat (length mid) ->
  WS2812.store (idx + k) v (pre ++ mid ++ x :: post) = WS2812.Done tt (pre ++ mid ++ v :: post).
Proof.
  intros -> ->. unfold WS2812.store, py_setitem. rewrite !length_app. cbn [length].
  rewrite (proj2 (Z.leb_le 0 _)), (proj2 (Z.ltb_lt _ _)) by lia. cbn [andb].
  rewrite <- Nat2Z.inj_add, Nat2Z.id, app_assoc, <- length_app.
  rewrite (insert_app_r_alt _ _ (length (pre ++ mid))) by lia.
  rewrite Nat.sub_diag. cbn [insert list_insert]. by rewrite <- app_assoc.
Qed.

Lemma set_bits_from (color idx : Z) (pre mid old post : list Z) :
  idx = Z.of_nat (length pre) ->
  WS2812.set_bits (Z.of_nat <$> seq (length mid) (length old)) color idx
    (pre ++ mid ++ old ++ post) =
    WS2812.Done tt
      (pre ++ mid
       ++ ((λ k : nat, nth (Z.to_nat (Z.land (Z.shiftr color (7 - Z.of_nat k)) 1))
                         WS2812.bits 0) <$> seq (length mid) (length old))
       ++ post).
Proof.
  intros Hidx. revert mid. induction old as [|x old IH]; intros mid; [done|].
  cbn [length seq fmap list_fmap WS2812.set_bits app].
  rewrite (store_at (Z.of_nat (length mid)) pre mid x (old ++ post)) by done.
  rewrite (cons_middle _ mid (old ++ post)), (app_assoc mid).
  replace (S (length mid)) with (length (mid ++ [x])) at 1
    by (rewrite length_app; cbn; lia).
  match goal with |- WS2812.set_bits _ _ _ (pre ++ (mid ++ [?v]) ++ _) = _ =>
    replace (length (mid ++ [x])) with (length (mid ++ [v]))
      by (rewrite !length_app; done);
    rewrite (IH (mid ++ [v])) end.
  rewrite <- !app_assoc. cbn [app]. do 4 f_equal.
  rewrite length_app. cbn [length]. by rewrite Nat.add_1_r.
Qed.

Lemma set_bits_run (color idx : Z) (pre old post : list Z) :
  idx = Z.of_nat (length pre) ->
  length old = 8%nat ->
  WS2812.set_bits (seqZ 0 8) color idx (pre ++ old ++ post) =
    WS2812.Done tt (pre ++ color_bytes color ++ post).
Proof.
  intros Hidx Hlen. pose proof (set_bits_from color idx pre [] old post Hidx) as Hrun.
  cbn [app length] in Hrun. rewrite Hlen in Hrun.
  change (seqZ 0 8) with (Z.of_nat <$> seq 0 8). rewrite Hrun.
  do 3 f_equal. unfold color_bytes.
  apply list_fmap_ext. intros i k Hk. apply lookup_seq in Hk as [-> Hi].
  apply bit_code. lia.
Qed.

Lemma color_bytes_length (color : Z) : length (color_bytes color) = 8%nat.
Proof. done. Qed.

Lemma led_bytes_length (colors : Z * Z * Z) : length (led_bytes colors) = 24%nat.
Proof. by destruct colors as [[r g] b]. Qed.

Lemma set_channels_run (colors : Z * Z * Z) (idx : Z) (pre old post : list Z) :
  idx = Z.of_nat (length pre) ->
  length old = 24%nat ->
  WS2812.set_channels [1; 0; 2] colors idx (pre ++ old ++ post) =
    WS2812.Done (idx + 24) (pre ++ led_bytes colors ++ post).
Proof.
  intros Hidx Hlen. destruct colors as [[r g] b].
  rewrite <- (take_drop 8 old), <- (take_drop 8 (drop 8 old)). rewrite drop_drop.
  set (o1 := take 8 old). set (o2 := take 8 (drop 8 old)). set (o3 := drop (8 + 8) old).
  assert (length o1 = 8%nat) by (subst o1; rewrite length_take; lia).
  assert (length o2 = 8%nat) by (subst o2; rewrite length_take, length_drop; lia).
  assert (length o3 = 8%nat) by (subst o3; rewrite length_drop; lia).
  clearbody o1 o2 o3. cbn [WS2812.set_channels WS2812.channel].
  change (1 =? 0) with false. change (1 =? 1) with true. change (0 =? 0) with true.
  change (2 =? 0) with false. change (2 =? 1) with false. cbv iota.
  rewrite <- !app_assoc.
  rewrite (set_bits_run g idx pre o1) by done.
  rewrite (app_assoc pre (color_bytes g)).
  rewrite (set_bits_run r (idx + 8) (pre ++ color_bytes g) o2)
    by (done || (rewrite length_app, color_bytes_length; lia)).
  rewrite (app_assoc (pre ++ color_bytes g) (color_bytes r)).
  rewrite (set_bits_run b (idx + 8 + 8) ((pre ++ color_bytes g) ++ color_bytes r) o3)
    by (done || (rewrite !length_app, !color_bytes_length; lia)).
  unfold led_bytes. rewrite <- !app_assoc. f_equal. lia.
Qed.

Lemma update_loop_run (data : list (Z * Z * Z)) (idx : Z) (pre old post : list Z) :
  idx = Z.of_nat (length pre) ->
  length old = (24 * length data)%nat ->
  WS2812.update_loop data idx (pre ++ old ++ post) =
    WS2812.Done (idx + 24 * Z.of_nat (length data)) (pre ++ (data ≫= led_bytes) ++ post).
Proof.
  revert idx pre old. induction data as [|colors data IH]; intros idx pre old Hidx Hlen.
  - destruct old; [|done]. cbn. f_equal. lia.
  - cbn [WS2812.update_loop length] in *.
    rewrite <- (take_drop 24 old), <- app_assoc.
    rewrite (set_channels_run colors idx pre (take 24 old)) by (done || (rewrite length_take; lia)).
    rewrite (app_assoc pre (led_bytes colors)).
    rewrite (IH (idx + 24) (pre ++ led_bytes colors) (drop 24 old)).
    + cbn [mbind list_bind]. rewrite <- !app_assoc. f_equal. lia.
    + rewrite length_app, led_bytes_length. lia.
    + rewrite length_drop. lia.
Qed.

Lemma set_off_run (idx : Z) (pre rest : list Z) :
  idx = Z.of_nat (length pre) ->
  WS2812.set_off (seqZ idx (Z.of_nat (length rest))) (pre ++ rest) =
    WS2812.Done tt (pre ++ replicate (length rest) 0xE0).
Proof.
  revert idx pre. induction rest as [|x rest IH]; intros idx pre Hidx.
  - done.
  - cbn [length]. rewrite Nat2Z.inj_succ, seqZ_cons by lia. cbn [WS2812.set_off].
    replace idx with (idx + 0) at 1 by lia.
    rewrite (store_at 0 pre [] x rest) by done. cbn [app].
    rewrite (cons_middle _ pre rest), app_assoc.
    replace (Z.pred (Z.succ (Z.of_nat (length rest)))) with (Z.of_nat (length rest)) by lia.
    rewrite (IH (Z.succ idx)) by (rewrite length_app; cbn; lia).
    rewrite <- app_assoc. done.
Qed.

Lemma led_bytes_total (data : list (Z * Z * Z)) :
  length (data ≫= led_bytes) = (24 * length data)%nat.
Proof.
  unfold mbind. induction data as [|c data IH]; [done|].
  cbn [list_bind length]. rewrite length_app, led_bytes_length. lia.
Qed.

(** [update] from the first LED on, for data that fit. *)
Lemma update_fits (data : list (Z * Z * Z)) (buf : list Z) :
  (24 * length data <= length buf)%nat ->
  WS2812.update data 0 buf =
    WS2812.Done (Z.of_nat (length data))
      ((data ≫= led_bytes) ++ drop (24 * length data) buf).
Proof.
  intros Hfit. unfold WS2812.update.
  pose proof (update_loop_run data (0 * 24) [] (take (24 * length data) buf)
                (drop (24 * length data) buf) eq_refl) as Hrun.
  cbn [app] in Hrun. rewrite take_drop in Hrun. rewrite Hrun by (rewrite length_take; lia).
  f_equal. rewrite Z.add_0_l, (Z.mul_comm 24). by apply Z.div_mul.
Qed.

(** The loop of [fill] that turns off what comes after the data. *)
Lemma set_off_rest (n : nat) (enc rest : list Z) :
  length enc = (24 * n)%nat ->
  WS2812.set_off (seqZ (Z.of_nat n * 24) (Z.of_nat (length (enc ++ rest)) - Z.of_nat n * 24))
    (enc ++ rest) =
    WS2812.Done tt (enc ++ replicate (length rest) 0xE0).
Proof.
  intros Hlen. rewrite length_app.
  replace (Z.of_nat (length enc + length rest) - Z.of_nat n * 24)
    with (Z.of_nat (length rest)) by lia.
  apply set_off_run. lia.
Qed.

(** X28 -- What [fill] leaves in the buffer: for data that fit the chain,
    the buffer holds, LED by LED, the 24 bytes of each colour tuple
    (green, red, blue; each value most significant bit first, 0xFC for a 1
    and 0xE0 for a 0, only the low eight bits of a value counting), and
    every byte after the data stands for 0: the LEDs after the data are
    off, whatever the buffer held before.  The length of the buffer is
    unchanged. *)
Theorem fill_encoding (data : list (Z * Z * Z)) (buf : list Z) :
  (24 * length data <= length buf)%nat ->
  WS2812.fill data buf =
    WS2812.Done tt ((data ≫= led_bytes) ++ replicate (length buf - 24 * length data) 0xE0) /\
  length ((data ≫= led_bytes) ++ replicate (length buf - 24 * length data) 0xE0) = length buf.
Proof.
  intros Hfit. split.
  - unfold WS2812.fill. rewrite update_fits by done.
    rewrite set_off_rest by apply led_bytes_total.
    by rewrite length_drop.
  - rewrite length_app, length_replicate, led_bytes_total. lia.
Qed.

Lemma fill_encoding_witness :
  WS2812.fill [(255, 0, 1)] (WS2812.new_buf 2) =
    WS2812.Done tt (([(255, 0, 1)] ≫= led_bytes)
                    ++ replicate (length (WS2812.new_buf 2) - 24 * 1) 0xE0) /\
  length (([(255, 0, 1)] ≫= led_bytes)
          ++ replicate (length (WS2812.new_buf 2) - 24 * 1) 0xE0) =
    length (WS2812.new_buf 2).
Proof. apply (fill_encoding [(255, 0, 1)] (WS2812.new_buf 2)). simpl. lia. Defined.

(** ** More data than LEDs *)

Lemma store_outcome (idx v : Z) (buf : list Z) :
  0 <= idx ->
  match WS2812.store idx v buf with
  | WS2812.Done _ buf' => idx < Z.of_nat (length buf) /\ buf' = <[Z.to_nat idx := v]> buf
  | WS2812.IndexErr buf' => Z.of_nat (length buf) <= idx /\ buf' = buf
  end.
Proof.
  intros Hidx. unfold WS2812.store, py_setitem.
  rewrite (proj2 (Z.leb_le 0 idx)) by done. cbn [andb].
  destruct (Z.ltb_spec idx (Z.of_nat (length buf))); [done|].
  rewrite (proj2 (Z.ltb_ge idx 0)) by done. by rewrite andb_false_r.
Qed.

Lemma set_bits_bound (color idx : Z) (bit_range : list Z) (buf : list Z) :
  0 <= idx ->
  Forall (λ b, 0 <= b) bit_range ->
  match WS2812.set_bits bit_range color idx buf with
  | WS2812.Done _ buf' =>
      length buf' = length buf /\ take (Z.to_nat idx) buf' = take (Z.to_nat idx) buf /\
      Forall (λ b, idx + b < Z.of_nat (length buf)) bit_range
  | WS2812.IndexErr buf' =>
      length buf' = length buf /\ take (Z.to_nat idx) buf' = take (Z.to_nat idx) buf
  end.
Proof.
  intros Hidx Hrange. revert buf. induction Hrange as [|b bit_range Hb _ IH]; intros buf.
  - cbn. by repeat split.
  - cbn [WS2812.set_bits].
    match goal with |- context [WS2812.store ?i ?v buf] =>
      pose proof (store_outcome i v buf ltac:(lia)) as Hstore;
      destruct (WS2812.store i v buf) as [[] buf1|buf1] end.
    + destruct Hstore as [Hin ->].
      match goal with |- context [WS2812.set_bits bit_range color idx ?b1] =>
        specialize (IH b1); destruct (WS2812.set_bits bit_range color idx b1)
          as [[] buf2|buf2] end.
      * destruct IH as (Hlen & Htake & Hall). rewrite length_insert in Hlen, Hall.
        rewrite take_insert_ge in Htake by lia.
        split; [done|]. split; [done|]. by constructor.
      * destruct IH as (Hlen & Htake). rewrite length_insert in Hlen.
        rewrite take_insert_ge in Htake by lia. done.
    + by destruct Hstore as [_ ->].
Qed.

Lemma take_shorter {A} (n m : nat) (l1 l2 : list A) :
  (n <= m)%nat -> take m l1 = take m l2 -> take n l1 = take n l2.
Proof.
  intros Hnm Heq. rewrite <- (Nat.min_l n m) by done.
  by rewrite <- !take_take, Heq.
Qed.

Lemma set_channels_bound (colors : Z * Z * Z) (idx : Z) (buf : list Z) :
  0 <= idx ->
  match WS2812.set_channels [1; 0; 2] colors idx buf with
  | WS2812.Done idx' buf' =>
      idx' = idx + 24 /\ idx' <= Z.of_nat (length buf) /\
      length buf' = length buf /\ take (Z.to_nat idx) buf' = take (Z.to_nat idx) buf
  | WS2812.IndexErr buf' =>
      length buf' = length buf /\ take (Z.to_nat idx) buf' = take (Z.to_nat idx) buf
  end.
Proof.
  intros Hidx.
  assert (Hrange : Forall (λ b, 0 <= b) (seqZ 0 8)).
  { apply Forall_forall. intros b Hb%elem_of_seqZ. lia. }
  assert (Hlast : forall i n, Forall (λ b, i + b < n) (seqZ 0 8) -> i + 8 <= n).
  { intros i n Hall. rewrite Forall_forall in Hall.
    specialize (Hall 7 ltac:(apply elem_of_seqZ; lia)). lia. }
  cbn [WS2812.set_channels].
  pose proof (set_bits_bound (WS2812.channel colors 1) idx (seqZ 0 8) buf Hidx Hrange) as H1.
  destruct (WS2812.set_bits (seqZ 0 8) (WS2812.channel colors 1) idx buf) as [[] b1|b1];
    [|done].
  destruct H1 as (Hl1 & Ht1 & _).
  pose proof (set_bits_bound (WS2812.channel colors 0) (idx + 8) (seqZ 0 8) b1
                ltac:(lia) Hrange) as H2.
  destruct (WS2812.set_bits (seqZ 0 8) (WS2812.channel colors 0) (idx + 8) b1) as [[] b2|b2].
  - destruct H2 as (Hl2 & Ht2 & _).
    pose proof (set_bits_bound (WS2812.channel colors 2) (idx + 8 + 8) (seqZ 0 8) b2
                  ltac:(lia) Hrange) as H3.
    destruct (WS2812.set_bits (seqZ 0 8) (WS2812.channel colors 2) (idx + 8 + 8) b2)
      as [[] b3|b3].
    + destruct H3 as (Hl3 & Ht3 & Hall3). apply Hlast in Hall3.
      split; [lia|]. split; [lia|]. split; [congruence|].
      rewrite <- Ht1.
      rewrite <- (take_shorter (Z.to_nat idx) (Z.to_nat (idx + 8)) _ _ ltac:(lia) Ht2).
      apply (take_shorter _ (Z.to_nat (idx + 8 + 8))); [lia|done].
    + destruct H3 as (Hl3 & Ht3). split; [congruence|].
      rewrite <- Ht1.
      rewrite <- (take_shorter (Z.to_nat idx) (Z.to_nat (idx + 8)) _ _ ltac:(lia) Ht2).
      apply (take_shorter _ (Z.to_nat (idx + 8 + 8))); [lia|done].
  - destruct H2 as (Hl2 & Ht2). split; [congruence|].
    rewrite <- Ht1. apply (take_shorter _ (Z.to_nat (idx + 8))); [lia|done].
Qed.

Lemma update_loop_bound (data : list (Z * Z * Z)) (idx : Z) (buf : list Z) :
  0 <= idx ->
  match WS2812.update_loop data idx buf with
  | WS2812.Done idx' buf' =>
      idx' = idx + 24 * Z.of_nat (length data) /\
      (data ≠ [] -> idx' <= Z.of_nat (length buf)) /\
      length buf' = length buf /\ take (Z.to_nat idx) buf' = take (Z.to_nat idx) buf
  | WS2812.IndexErr buf' =>
      length buf' = length buf /\ take (Z.to_nat idx) buf' = take (Z.to_nat idx) buf
  end.
Proof.
  revert idx buf. induction data as [|colors data IH]; intros idx buf Hidx.
  - cbn. repeat split; try done. lia.
  - cbn [WS2812.update_loop].
    pose proof (set_channels_bound colors idx buf Hidx) as H1.
    destruct (WS2812.set_channels [1; 0; 2] colors idx buf) as [idx1 b1|b1]; [|done].
    destruct H1 as (-> & Hle1 & Hl1 & Ht1).
    specialize (IH (idx + 24) b1 ltac:(lia)).
    destruct (WS2812.update_loop data (idx + 24) b1) as [idx2 b2|b2].
    + destruct IH as (-> & Hle2 & Hl2 & Ht2). cbn [length].
      split; [lia|]. split; [|split; [congruence|]].
      * intros _. destruct data as [|c data]; [cbn; lia|].
        rewrite <- Hl1. apply Hle2. done.
      * rewrite <- Ht1. apply (take_shorter _ (Z.to_nat (idx + 24))); [lia|done].
    + destruct IH as (Hl2 & Ht2). split; [congruence|].
      rewrite <- Ht1. apply (take_shorter _ (Z.to_nat (idx + 24))); [lia|done].
Qed.

Lemma update_loop_app (d1 d2 : list (Z * Z * Z)) (idx : Z) (buf : list Z) :
  WS2812.update_loop (d1 ++ d2) idx buf =
    match WS2812.update_loop d1 idx buf with
    | WS2812.Done idx' buf' => WS2812.update_loop d2 idx' buf'
    | WS2812.IndexErr buf' => WS2812.IndexErr buf'
    end.
Proof.
  revert idx buf. induction d1 as [|c d1 IH]; intros idx buf; [done|].
  cbn [app WS2812.update_loop].
  destruct (WS2812.set_channels [1; 0; 2] c idx buf); [apply IH | done].
Qed.

(** X29 -- More colour tuples than LEDs: [fill] (and so [show], before it
    sends anything over SPI) ends in an IndexError.  By then the LEDs that
    fit the buffer have been written, and the buffer has kept its
    length. *)
Theorem fill_overflow (data : list (Z * Z * Z)) (buf : list Z) :
  (length buf < 24 * length data)%nat ->
  let fit := (length buf / 24)%nat in
  exists buf',
    WS2812.fill data buf = WS2812.IndexErr buf' /\
    length buf' = length buf /\
    take (24 * fit) buf' = take fit data ≫= led_bytes.
Proof.
  intros Hover fit.
  assert (Hfit : (24 * fit <= length buf < 24 * fit + 24)%nat).
  { subst fit. pose proof (Nat.div_mod_eq (length buf) 24).
    pose proof (Nat.mod_upper_bound (length buf) 24). lia. }
  clearbody fit.
  pose proof led_bytes_total as Hbytes.
  unfold WS2812.fill, WS2812.update.
  assert (Hsplit : WS2812.update_loop data (0 * 24) buf =
                   WS2812.update_loop (take fit data ++ drop fit data) (0 * 24) buf)
    by (by rewrite take_drop).
  rewrite Hsplit, update_loop_app. clear Hsplit.
  pose proof (update_loop_run (take fit data) (0 * 24) [] (take (24 * fit) buf)
                (drop (24 * fit) buf) eq_refl) as Hrun.
  cbn [app] in Hrun. rewrite take_drop in Hrun.
  rewrite Hrun by (rewrite !length_take; lia). clear Hrun.
  rewrite length_take, Nat.min_l by lia.
  set (buf1 := (take fit data ≫= led_bytes) ++ drop (24 * fit) buf).
  assert (Hlen1 : length buf1 = length buf).
  { subst buf1. rewrite length_app, Hbytes, length_take, length_drop. lia. }
  assert (Hrest : drop fit data ≠ []).
  { intros Hnil. apply (f_equal length) in Hnil. rewrite length_drop in Hnil. cbn in Hnil. lia. }
  pose proof (update_loop_bound (drop fit data) (0 * 24 + 24 * Z.of_nat fit) buf1 ltac:(lia))
    as Hbound.
  destruct (WS2812.update_loop (drop fit data) (0 * 24 + 24 * Z.of_nat fit) buf1)
    as [idx' buf'|buf'].
  - destruct Hbound as (-> & Hle & _). specialize (Hle Hrest).
    rewrite length_drop in Hle. lia.
  - destruct Hbound as (Hlen & Htake). exists buf'. split; [done|]. split; [congruence|].
    replace (Z.to_nat (0 * 24 + 24 * Z.of_nat fit)) with (24 * fit)%nat in Htake by lia.
    rewrite Htake. subst buf1.
    rewrite take_app_length'; [done|]. rewrite Hbytes, length_take. lia.
Qed.

Lemma fill_overflow_witness :
  let fit := (length (WS2812.new_buf 1) / 24)%nat in
  exists buf',
    WS2812.fill [(1, 2, 3); (4, 5, 6)] (WS2812.new_buf 1) = WS2812.IndexErr buf' /\
    length buf' = length (WS2812.new_buf 1) /\
    take (24 * fit) buf' = take fit [(1, 2, 3); (4, 5, 6)] ≫= led_bytes.
Proof. apply (fill_overflow [(1, 2, 3); (4, 5, 6)] (WS2812.new_buf 1)). simpl. lia. Defined.

(** ** The LED show of the demo, on the driver *)




